(** * Technical-analysis engine of stock-predictor: a shallow embedding

    This file embeds the transforms of [src/stock_predictor_agent.py]
    ([calculate_moving_average], [calculate_volatility], [predict_trend],
    [analyze_support_resistance], [analyze_price_movement],
    [generate_report]), [run_prediction] and the page of [src/app.py], and
    proves properties of them.

    Modelling choices:
    - JSON values produced by [json.loads] are [pyval]; a transform returns
      the Python dict it passes to [json.dumps] (serialisation is not
      modelled).
    - Python numbers are [num]: an [int] is an unbounded integer, a [float]
      an IEEE 754 binary64 value ([double]: signed zeros, finite values,
      infinities and NaN) and every float operation is rounded to nearest,
      ties to even, with gradual underflow and overflow to infinity. [bool]
      is an int subclass and counts as 0 / 1 in arithmetic. Conversions and
      divisions raise the exceptions CPython raises ([OverflowError] for an
      int too large for a float, [ZeroDivisionError] for a zero divisor).
      Comparisons between numbers are exact, NaN compares false.
    - [sum] follows CPython: an exact integer total until the first float,
      then a float loop. That loop changed between versions (plain
      additions up to 3.11, compensated summation from 3.12), so it is the
      parameter [fsum_tail]; [fsum_naive] and [fsum_neumaier] are the two
      versions. [x ** y] on floats is [float_pow], with CPython's special
      cases; the C library's [pow] it calls is the parameter [libm_pow].
    - A raised exception is a value [Raise e] of the error monad [Exc];
      the [try ... except Exception as e] of every tool is [tool_boundary].
    - [json.loads], [str()] of a value in an f-string, [format(x, ".Nf")]
      and [str.upper] are parameters: every statement holds for any parser,
      any number formatting and any upper-casing. *)

From Stdlib Require Import String Ascii List Bool ZArith Lia.
From Stdlib Require Import QArith Qround Qabs Qpower Lqa.
From Stdlib Require Import Sorted Permutation.
Import ListNotations.
Open Scope string_scope.
Open Scope Z_scope.
#[local] Set Warnings "-register-all".

(** ** Binary64 floating point *)

(** [x < y] on rationals, as a boolean. *)
Definition Qlt_bool (x y : Q) : bool := negb (Qle_bool y x).

(** Rounding to the nearest integer, ties to even. *)
Definition round_half_even (q : Q) : Z :=
  let f := Qfloor q in
  let r := (q - inject_Z f)%Q in
  if Qlt_bool r (1 # 2)%Q then f
  else if Qlt_bool (1 # 2)%Q r then f + 1
  else if Z.even f then f else f + 1.

(** A binary64 value: a signed zero, a finite non-zero value
    [(-1)^neg * m * 2^e], a signed infinity, or NaN. The finite values of
    the format are those accepted by [dvalid]. *)
Inductive double : Type :=
| DZero (neg : bool)
| DFin (neg : bool) (m : positive) (e : Z)
| DInf (neg : bool)
| DNaN.

(** A normal value has a 53-bit significand and an exponent in
    [[-1074, 971]]; a subnormal one a smaller significand and the exponent
    [-1074]. *)
Definition dvalid (d : double) : bool :=
  match d with
  | DFin _ m e =>
      (Zpos m <? 2 ^ 53) && (-1074 <=? e) && (e <=? 971)
      && ((2 ^ 52 <=? Zpos m) || (e =? -1074))
  | _ => true
  end.

Definition signed (neg : bool) (q : Q) : Q := if neg then (- q)%Q else q.

(** The value of a finite double (0 for the others). *)
Definition dval (d : double) : Q :=
  match d with
  | DFin neg m e => signed neg (inject_Z (Zpos m) * 2 ^ e)%Q
  | _ => 0%Q
  end.

(** [floor(log2 q)] for [q > 0]. *)
Definition qlog2 (q : Q) : Z :=
  let k := Z.log2 (Qnum q) - Z.log2 (Zpos (Qden q)) in
  if Qle_bool (2 ^ k)%Q q then k else k - 1.

(** The double nearest to a non-zero rational (ties to even), with
    overflow to infinity and underflow to a zero of the sign of [q]. *)
Definition round_nz (q : Q) : double :=
  let neg := Qlt_bool q 0 in
  let a := Qabs q in
  let e := Z.max (qlog2 a - 52) (-1074) in
  let m := round_half_even (a / 2 ^ e)%Q in
  if m =? 0 then DZero neg
  else if Qle_bool (2 ^ 1024)%Q (inject_Z m * 2 ^ e)%Q then DInf neg
  else if m =? 2 ^ 53 then DFin neg (2 ^ 52) (e + 1)
  else DFin neg (Z.to_pos m) e.

(** The result of a floating-point operation whose exact value is [q]; an
    exact zero is the zero of sign [zero_neg]. *)
Definition dround (zero_neg : bool) (q : Q) : double :=
  if Qeq_bool q 0 then DZero zero_neg else round_nz q.

(** The double a decimal literal or a rational denotes. *)
Definition D (q : Q) : double := dround false q.

Definition dsign (d : double) : bool :=
  match d with DZero s | DFin s _ _ | DInf s => s | DNaN => false end.

Definition dneg (d : double) : double :=
  match d with
  | DZero s => DZero (negb s)
  | DFin s m e => DFin (negb s) m e
  | DInf s => DInf (negb s)
  | DNaN => DNaN
  end.

(** [fabs] *)
Definition dabs (d : double) : double :=
  match d with
  | DZero _ => DZero false
  | DFin _ m e => DFin false m e
  | DInf _ => DInf false
  | DNaN => DNaN
  end.

(** [x + y]; an exact zero sum of non-zero terms is [+0.0]. *)
Definition dadd (x y : double) : double :=
  match x, y with
  | DNaN, _ | _, DNaN => DNaN
  | DInf a, DInf b => if Bool.eqb a b then DInf a else DNaN
  | DInf a, _ => DInf a
  | _, DInf b => DInf b
  | DZero a, DZero b => DZero (a && b)
  | _, _ => dround false (dval x + dval y)
  end.

(** [x - y] *)
Definition dsub (x y : double) : double := dadd x (dneg y).

(** [x * y] *)
Definition dmul (x y : double) : double :=
  match x, y with
  | DNaN, _ | _, DNaN => DNaN
  | DInf _, DZero _ | DZero _, DInf _ => DNaN
  | DInf _, _ | _, DInf _ => DInf (xorb (dsign x) (dsign y))
  | _, _ => dround (xorb (dsign x) (dsign y)) (dval x * dval y)
  end.

(** [x / y] in IEEE arithmetic (Python raises before dividing by zero). *)
Definition ddiv (x y : double) : double :=
  match x, y with
  | DNaN, _ | _, DNaN => DNaN
  | DInf _, DInf _ | DZero _, DZero _ => DNaN
  | DInf _, _ => DInf (xorb (dsign x) (dsign y))
  | _, DInf _ => DZero (xorb (dsign x) (dsign y))
  | _, DZero _ => DInf (xorb (dsign x) (dsign y))
  | _, _ => dround (xorb (dsign x) (dsign y)) (dval x / dval y)
  end.

Definition dis_zero (d : double) : bool :=
  match d with DZero _ => true | _ => false end.

(** The extended reals, where the doubles other than NaN live. *)
Inductive xreal : Type :=
| XNInf
| XFin (q : Q)
| XPInf.

(** The value of a double, [None] for NaN. *)
Definition dx (d : double) : option xreal :=
  match d with
  | DZero _ => Some (XFin 0)
  | DFin _ _ _ => Some (XFin (dval d))
  | DInf neg => Some (if neg then XNInf else XPInf)
  | DNaN => None
  end.

Definition xltb (a b : xreal) : bool :=
  match a, b with
  | XNInf, XNInf => false
  | XNInf, _ => true
  | XFin _, XNInf => false
  | XFin x, XFin y => Qlt_bool x y
  | XFin _, XPInf => true
  | XPInf, _ => false
  end.

Definition xeqb (a b : xreal) : bool :=
  match a, b with
  | XNInf, XNInf | XPInf, XPInf => true
  | XFin x, XFin y => Qeq_bool x y
  | _, _ => false
  end.

(** [round(x, 2)] on a float: CPython rounds the exact binary value to two
    decimals (ties to even) and reads the decimal back as a double;
    infinities and NaN round to themselves. *)
Definition round2_double (x : double) : double :=
  match x with
  | DFin s _ _ => dround s (inject_Z (round_half_even (dval x * 100)) / 100)
  | _ => x
  end.

(** Truncation toward zero of a finite value. *)
Definition qtrunc (q : Q) : Z :=
  if Qle_bool 0 q then Qfloor q else - Qfloor (- q)%Q.

(** ** Python values and exceptions *)

(** A Python number: [int] or [float]. *)
Inductive num : Type :=
| NInt (z : Z)
| NFloat (d : double).

Inductive pyval : Type :=
| PNone
| PBool (b : bool)
| PNum (n : num)
| PStr (s : string)
| PList (xs : list pyval)
| PDict (kvs : list (string * pyval)).

Record exn : Type := Exn { exn_type : string; exn_msg : string }.

Inductive Exc (A : Type) : Type :=
| Raise (e : exn)
| Ok (a : A).
Arguments Raise {A} e.
Arguments Ok {A} a.

Definition bind {A B : Type} (m : Exc A) (k : A -> Exc B) : Exc B :=
  match m with
  | Raise e => Raise e
  | Ok a => k a
  end.

Notation "'let*' x ':=' m 'in' k" := (bind m (fun x => k))
  (at level 200, x name, m at level 100, k at level 200).

Definition type_name (v : pyval) : string :=
  match v with
  | PNone => "NoneType"
  | PBool _ => "bool"
  | PNum (NInt _) => "int"
  | PNum (NFloat _) => "float"
  | PStr _ => "str"
  | PList _ => "list"
  | PDict _ => "dict"
  end.

Definition type_error {A : Type} (msg : string) : Exc A :=
  Raise (Exn "TypeError" msg).

Definition index_error : exn := Exn "IndexError" "list index out of range".

Fixpoint mapM {A B : Type} (f : A -> Exc B) (l : list A) : Exc (list B) :=
  match l with
  | [] => Ok []
  | x :: r => let* y := f x in let* ys := mapM f r in Ok (y :: ys)
  end.

(** ** Dicts, iteration, indexing and slicing *)

(** Lookup in a dict produced by [json.loads] (its keys are distinct). *)
Fixpoint dict_get (k : string) (kvs : list (string * pyval)) : option pyval :=
  match kvs with
  | [] => None
  | (k', v) :: r => if String.eqb k k' then Some v else dict_get k r
  end.

Definition get (k : string) (v : pyval) : option pyval :=
  match v with
  | PDict kvs => dict_get k kvs
  | _ => None
  end.

(** [item[k]] for a string key [k]. *)
Definition py_getitem (v : pyval) (k : string) : Exc pyval :=
  match v with
  | PDict kvs =>
      match dict_get k kvs with
      | Some x => Ok x
      | None => Raise (Exn "KeyError" ("'" ++ k ++ "'"))
      end
  | PList _ => type_error "list indices must be integers or slices, not str"
  | PStr _ => type_error "string indices must be integers, not 'str'"
  | _ => type_error ("'" ++ type_name v ++ "' object is not subscriptable")
  end.

Fixpoint str_chars (s : string) : list pyval :=
  match s with
  | EmptyString => []
  | String c r => PStr (String c EmptyString) :: str_chars r
  end.

(** [for item in v]: a list yields its elements, a dict its keys, a string
    its characters. *)
Definition py_iter (v : pyval) : Exc (list pyval) :=
  match v with
  | PList xs => Ok xs
  | PDict kvs => Ok (map (fun kv => PStr (fst kv)) kvs)
  | PStr s => Ok (str_chars s)
  | _ => type_error ("'" ++ type_name v ++ "' object is not iterable")
  end.

Definition py_len (v : pyval) : Exc Z :=
  match v with
  | PList xs => Ok (Z.of_nat (length xs))
  | PDict kvs => Ok (Z.of_nat (length kvs))
  | PStr s => Ok (Z.of_nat (String.length s))
  | _ => type_error ("object of type '" ++ type_name v ++ "' has no len()")
  end.

(** [isinstance(data, dict) and "data" in data] then [data = data["data"]]. *)
Definition unwrap_data (data : pyval) : pyval :=
  match data with
  | PDict kvs =>
      match dict_get "data" kvs with
      | Some d => d
      | None => data
      end
  | _ => data
  end.

(** [[item[k] for item in data]] *)
Definition column (data : pyval) (k : string) : Exc (list pyval) :=
  let* items := py_iter data in
  mapM (fun item => py_getitem item k) items.

(** [l[i]] with Python's negative indices. *)
Definition py_index {A : Type} (l : list A) (i : Z) : Exc A :=
  let n := Z.of_nat (length l) in
  let j := if i <? 0 then i + n else i in
  if j <? 0 then Raise index_error
  else match nth_error l (Z.to_nat j) with
       | Some x => Ok x
       | None => Raise index_error
       end.

(** A slice bound of [l[start:stop]] clamped into [0, n]. *)
Definition slice_bound (n b : Z) : Z :=
  if b <? 0 then Z.max 0 (b + n) else Z.min b n.

(** [l[start:stop]] with step 1. *)
Definition py_slice {A : Type} (l : list A) (start stop : option Z) : list A :=
  let n := Z.of_nat (length l) in
  let lo := match start with Some b => slice_bound n b | None => 0 end in
  let hi := match stop with Some b => slice_bound n b | None => n end in
  firstn (Z.to_nat (hi - lo)) (skipn (Z.to_nat lo) l).

(** Slicing a JSON value: lists and strings slice, a dict refuses. *)
Definition py_slice_val (v : pyval) (start stop : option Z) : Exc pyval :=
  match v with
  | PList xs => Ok (PList (py_slice xs start stop))
  | PStr s =>
      Ok (PStr (string_of_list_ascii (py_slice (list_ascii_of_string s) start stop)))
  | PDict _ => type_error "unhashable type: 'slice'"
  | _ => type_error ("'" ++ type_name v ++ "' object is not subscriptable")
  end.

(** [range(a, b)] *)
Definition zrange (a b : Z) : list Z :=
  map (fun k => a + Z.of_nat k) (seq 0 (Z.to_nat (b - a))).

(** ** Python arithmetic on numbers *)

Definition overflow_error (msg : string) : exn := Exn "OverflowError" msg.

(** [float(z)] of an int: the nearest double; an int too large for the
    format raises. *)
Definition int_to_double (z : Z) : Exc double :=
  match D (inject_Z z) with
  | DInf _ => Raise (overflow_error "int too large to convert to float")
  | d => Ok d
  end.

Definition num_to_double (n : num) : Exc double :=
  match n with
  | NInt z => int_to_double z
  | NFloat d => Ok d
  end.

(** A numeric operand: [bool] counts as [int]. *)
Definition as_num (v : pyval) : option num :=
  match v with
  | PBool b => Some (NInt (Z.b2z b))
  | PNum n => Some n
  | _ => None
  end.

(** [a op b] for [+], [-], [*]: exact on two ints, in floating point as
    soon as one operand is a float (the int converted first). *)
Definition num_binop (fi : Z -> Z -> Z) (fd : double -> double -> double) (a b : num)
  : Exc num :=
  match a, b with
  | NInt x, NInt y => Ok (NInt (fi x y))
  | _, _ => let* x := num_to_double a in let* y := num_to_double b in Ok (NFloat (fd x y))
  end.

Definition num_add (a b : num) : Exc num := num_binop Z.add dadd a b.
Definition num_sub (a b : num) : Exc num := num_binop Z.sub dsub a b.
Definition num_mul (a b : num) : Exc num := num_binop Z.mul dmul a b.

(** [a / b] of two ints: the correctly rounded quotient. *)
Definition int_truediv (a b : Z) : Exc double :=
  if b =? 0 then Raise (Exn "ZeroDivisionError" "division by zero")
  else match dround (xorb (a <? 0) (b <? 0)) (inject_Z a / inject_Z b)%Q with
       | DInf _ => Raise (overflow_error "integer division result too large for a float")
       | d => Ok d
       end.

(** [a / b] *)
Definition num_truediv (a b : num) : Exc num :=
  match a, b with
  | NInt x, NInt y => let* d := int_truediv x y in Ok (NFloat d)
  | _, _ =>
      let* x := num_to_double a in
      let* y := num_to_double b in
      if dis_zero y then Raise (Exn "ZeroDivisionError" "float division by zero")
      else Ok (NFloat (ddiv x y))
  end.

(** The value of a number on the extended real line ([None] for NaN). *)
Definition nx (n : num) : option xreal :=
  match n with
  | NInt z => Some (XFin (inject_Z z))
  | NFloat d => dx d
  end.

(** [a < b] on numbers: exact, false when NaN is involved. *)
Definition num_ltb (a b : num) : bool :=
  match nx a, nx b with
  | Some x, Some y => xltb x y
  | _, _ => false
  end.

(** [a == b] on numbers. *)
Definition num_eqb (a b : num) : bool :=
  match nx a, nx b with
  | Some x, Some y => xeqb x y
  | _, _ => false
  end.

(** [abs(n)] *)
Definition num_abs (n : num) : num :=
  match n with
  | NInt z => NInt (Z.abs z)
  | NFloat d => NFloat (dabs d)
  end.

(** [round(n, 2)]: an int is returned unchanged. *)
Definition num_round2 (n : num) : num :=
  match n with
  | NInt z => NInt z
  | NFloat d => NFloat (round2_double d)
  end.

(** [int(n)]: truncation toward zero. *)
Definition num_int (n : num) : Exc Z :=
  match n with
  | NInt z => Ok z
  | NFloat DNaN => Raise (Exn "ValueError" "cannot convert float NaN to integer")
  | NFloat (DInf _) => Raise (overflow_error "cannot convert float infinity to integer")
  | NFloat d => Ok (qtrunc (dval d))
  end.

(** The operand [v] of the arithmetic operator [op] whose other operand is
    [w], with the message of the [TypeError] a non-number raises. *)
Definition py_arith (op : string) (f : num -> num -> Exc num) (v w : pyval) : Exc num :=
  match as_num v, as_num w with
  | Some a, Some b => f a b
  | _, _ => type_error ("unsupported operand type(s) for " ++ op ++ ": '"
                         ++ type_name v ++ "' and '" ++ type_name w ++ "'")
  end.

Definition py_sub (v w : pyval) : Exc num := py_arith "-" num_sub v w.
Definition py_truediv (v w : pyval) : Exc num := py_arith "/" num_truediv v w.

(** [x ** y] on floats ([float_pow] of CPython's floatobject.c), given the
    C library's [pow] on a positive base other than 1 and a finite non-zero
    exponent, which returns its result and whether it set [errno] to
    [ERANGE]. [Ok None] is a complex result (a negative base with a
    non-integral exponent). *)
Definition dis_integer (d : double) : bool :=
  match d with
  | DZero _ => true
  | DFin _ _ _ => Qeq_bool (dval d) (inject_Z (Qfloor (dval d)))
  | _ => false
  end.

Definition dis_odd_integer (d : double) : bool :=
  dis_integer d && Z.odd (Qfloor (dval d)).

Definition deq_one (d : double) : bool :=
  match dx d with Some x => xeqb x (XFin 1) | None => false end.

Definition dgt_one (d : double) : bool :=
  match dx d with Some x => xltb (XFin 1) x | None => false end.

Definition float_pow (libm_pow : double -> double -> double * bool) (iv iw : double)
  : Exc (option double) :=
  if dis_zero iw then Ok (Some (D 1)) else
  match iv, iw with
  | DNaN, _ => Ok (Some DNaN)
  | _, DNaN => Ok (Some (if deq_one iv then D 1 else DNaN))
  | _, DInf wneg =>
      let av := dabs iv in
      if deq_one av then Ok (Some (D 1))
      else if Bool.eqb (negb wneg) (dgt_one av) then Ok (Some (DInf false))
      else Ok (Some (DZero false))
  | DInf vneg, _ =>
      if negb (dsign iw)
      then Ok (Some (if dis_odd_integer iw then iv else DInf false))
      else Ok (Some (if dis_odd_integer iw then DZero vneg else DZero false))
  | DZero _, _ =>
      if dsign iw
      then Raise (Exn "ZeroDivisionError" "0.0 cannot be raised to a negative power")
      else Ok (Some (if dis_odd_integer iw then iv else DZero false))
  | _, _ =>
      if dsign iv && negb (dis_integer iw) then Ok None else
      let negate := dsign iv && dis_odd_integer iw in
      let av := dabs iv in
      if deq_one av then Ok (Some (if negate then dneg (D 1) else D 1)) else
      let (ix, erange) := libm_pow av iw in
      (* [_Py_ADJUST_ERANGE1]: an infinite result sets [ERANGE], a zero
         result clears it *)
      let erange := if erange then negb (dis_zero ix)
                    else match ix with DInf _ => true | _ => false end in
      if erange then Raise (overflow_error "(34, 'Numerical result out of range')")
      else Ok (Some (if negate then dneg ix else ix))
  end.

(** [a ** b] with a float [a] (as at every call site): [b] is converted. *)
Definition float_pow_num (libm_pow : double -> double -> double * bool) (a b : num)
  : Exc (option double) :=
  let* x := num_to_double a in
  let* y := num_to_double b in
  float_pow libm_pow x y.

(** ** [sum] *)

(** The range of a C [long]. *)
Definition fits_long (z : Z) : bool := (- 2 ^ 63 <=? z) && (z <=? 2 ^ 63 - 1).

(** An item of the float loop of [sum]: a number, an int being convertible
    to a float. *)
Definition float_operand (v : pyval) : Exc num :=
  match as_num v with
  | Some (NInt z) => let* _ := int_to_double z in Ok (NInt z)
  | Some (NFloat d) => Ok (NFloat d)
  | None => type_error ("unsupported operand type(s) for +: 'float' and '"
                         ++ type_name v ++ "'")
  end.

(** An operand of the float loop as a double (its conversion was checked). *)
Definition operand_double (n : num) : double :=
  match n with NInt z => D (inject_Z z) | NFloat d => d end.

(** The generic loop of [sum] on a float total: one addition per item. *)
Definition fsum_plain (f : double) (l : list num) : double :=
  fold_left (fun acc n => dadd acc (operand_double n)) l f.

(** [sum(l)] (start 0). The total is an exact int while the items are ints
    (bools count as ints); the fast path holds while the items and the
    total fit in a C long. At the first float the total is converted and
    the rest is summed in floating point: by [fsum_tail] on the fast path,
    by plain additions otherwise. *)
Fixpoint sum_loop (fsum_tail : double -> list num -> double)
    (fast : bool) (acc : Z) (l : list pyval) : Exc num :=
  match l with
  | [] => Ok (NInt acc)
  | v :: r =>
      match as_num v with
      | Some (NInt z) =>
          sum_loop fsum_tail (fast && fits_long z && fits_long (acc + z)) (acc + z) r
      | Some (NFloat d) =>
          let* a := int_to_double acc in
          let* rest := mapM float_operand r in
          Ok (NFloat ((if fast then fsum_tail else fsum_plain) (dadd a d) rest))
      | None => type_error ("unsupported operand type(s) for +: 'int' and '"
                             ++ type_name v ++ "'")
      end
  end.

Definition py_sum (fsum_tail : double -> list num -> double) (l : list pyval) : Exc num :=
  sum_loop fsum_tail true 0 l.

(** The float loop of CPython 3.11: plain additions. *)
Definition fsum_naive (f : double) (l : list num) : double := fsum_plain f l.

Definition dge (a b : double) : bool :=
  match dx a, dx b with Some x, Some y => negb (xltb x y) | _, _ => false end.

Definition dfinite (d : double) : bool :=
  match d with DZero _ | DFin _ _ _ => true | _ => false end.

(** The float loop of CPython 3.12: Neumaier's compensated summation of the
    floats, ints added to the total directly; an int beyond a C long ends
    the compensation and the rest goes through the generic loop. *)
Fixpoint neumaier_loop (f c : double) (l : list num) : double :=
  let finish := if negb (dis_zero c) && dfinite c then dadd f c else f in
  match l with
  | [] => finish
  | NFloat x :: r =>
      let t := dadd f x in
      let c := if dge (dabs f) (dabs x) then dadd c (dadd (dsub f t) x)
               else dadd c (dadd (dsub x t) f) in
      neumaier_loop t c r
  | NInt z :: r =>
      if fits_long z then neumaier_loop (dadd f (D (inject_Z z))) c r
      else fsum_plain (dadd finish (D (inject_Z z))) r
  end.

Definition fsum_neumaier (f : double) (l : list num) : double :=
  neumaier_loop f (DZero false) l.

(** ** Comparisons, [min], [max], [set] and [sorted] *)

(** Byte-wise lexicographic order of strings. *)
Fixpoint str_ltb (s t : string) : bool :=
  match s, t with
  | _, EmptyString => false
  | EmptyString, String _ _ => true
  | String a s', String b t' =>
      if Ascii.eqb a b then str_ltb s' t'
      else (nat_of_ascii a <? nat_of_ascii b)%nat
  end.

(** [a < b]: numbers (and bools) with numbers, strings with strings. *)
Definition py_lt (a b : pyval) : Exc bool :=
  match as_num a, as_num b with
  | Some x, Some y => Ok (num_ltb x y)
  | _, _ =>
      match a, b with
      | PStr s, PStr t => Ok (str_ltb s t)
      | _, _ => type_error ("'<' not supported between instances of '"
                             ++ type_name a ++ "' and '" ++ type_name b ++ "'")
      end
  end.

(** [a > b] *)
Definition py_gt (a b : pyval) : Exc bool :=
  match as_num a, as_num b with
  | Some x, Some y => Ok (num_ltb y x)
  | _, _ =>
      match a, b with
      | PStr s, PStr t => Ok (str_ltb t s)
      | _, _ => type_error ("'>' not supported between instances of '"
                             ++ type_name a ++ "' and '" ++ type_name b ++ "'")
      end
  end.

(** [min(l)]: keeps the current minimum unless [item < min]. *)
Definition py_min (l : list pyval) : Exc pyval :=
  match l with
  | [] => Raise (Exn "ValueError" "min() arg is an empty sequence")
  | x :: r =>
      fold_left (fun acc y => let* m := acc in
                              let* b := py_lt y m in
                              Ok (if b then y else m)) r (Ok x)
  end.

(** [max(l)]: keeps the current maximum unless [item > max]. *)
Definition py_max (l : list pyval) : Exc pyval :=
  match l with
  | [] => Raise (Exn "ValueError" "max() arg is an empty sequence")
  | x :: r =>
      fold_left (fun acc y => let* m := acc in
                              let* b := py_gt y m in
                              Ok (if b then y else m)) r (Ok x)
  end.

Definition hashable (v : pyval) : bool :=
  match v with
  | PList _ | PDict _ => false
  | _ => true
  end.

(** Equality of hashable values as a set tests it ([1 == True],
    [1 == 1.0]). [json.loads] returns one float object for every [NaN]
    literal, and membership tests identity before [==], so NaN is found in
    a set built from the same parse. *)
Definition py_eqb (a b : pyval) : bool :=
  match as_num a, as_num b with
  | Some (NFloat DNaN), Some (NFloat DNaN) => true
  | Some x, Some y => num_eqb x y
  | _, _ =>
      match a, b with
      | PStr s, PStr t => String.eqb s t
      | PNone, PNone => true
      | _, _ => false
      end
  end.

(** [set(l)], as the list of first occurrences of its distinct values (the
    order of a set does not matter to its callers, which sort it). *)
Definition py_set (l : list pyval) : Exc (list pyval) :=
  fold_left (fun acc v =>
               let* s := acc in
               if hashable v
               then Ok (if existsb (py_eqb v) s then s else (s ++ [v])%list)
               else type_error ("unhashable type: '" ++ type_name v ++ "'"))
            l (Ok []).

(** [sorted(l)]: a stable insertion sort on [<]. When [<] orders the
    values totally (no NaN among them) this is the result of CPython's
    sort. *)
Fixpoint py_insert (x : pyval) (s : list pyval) : Exc (list pyval) :=
  match s with
  | [] => Ok [x]
  | y :: r =>
      let* b := py_lt x y in
      if b then Ok (x :: y :: r)
      else let* r' := py_insert x r in Ok (y :: r')
  end.

Definition py_sorted (l : list pyval) : Exc (list pyval) :=
  fold_left (fun acc x => let* s := acc in py_insert x s) l (Ok []).

(** [round(v, 2)] *)
Definition py_round2 (v : pyval) : Exc pyval :=
  match as_num v with
  | Some n => Ok (PNum (num_round2 n))
  | None => type_error ("type " ++ type_name v ++ " doesn't define __round__ method")
  end.

(** The value [format(v, ".Nf")] formats: a number; a string or another
    object refuses the format. *)
Definition format_operand (v : pyval) : Exc num :=
  match as_num v with
  | Some n => Ok n
  | None =>
      match v with
      | PStr _ => Raise (Exn "ValueError" "Unknown format code 'f' for object of type 'str'")
      | _ => type_error ("unsupported format string passed to " ++ type_name v ++ ".__format__")
      end
  end.

(** ** The series interchange format *)

(** One record of the series. *)
Record price_point : Type := PricePoint {
  pp_date : string;
  pp_open : num;
  pp_high : num;
  pp_low : num;
  pp_close : num;
  pp_volume : num
}.

Definition point_json (p : price_point) : pyval :=
  PDict [("date", PStr (pp_date p)); ("open", PNum (pp_open p));
         ("high", PNum (pp_high p)); ("low", PNum (pp_low p));
         ("close", PNum (pp_close p)); ("volume", PNum (pp_volume p))].

(** The bare sequence of records. *)
Definition series_json (s : list price_point) : pyval := PList (map point_json s).

(** ** The result of a tool *)

(** [try: <body> except Exception as e:
       return json.dumps({"error": str(e), "status": "failed"})] *)
Definition tool_boundary (body : Exc pyval) : pyval :=
  match body with
  | Ok v => v
  | Raise e => PDict [("error", PStr (exn_msg e)); ("status", PStr "failed")]
  end.

(** ** [generate_report] *)

Definition nl : string := String (ascii_of_nat 10) EmptyString.

(** The text before [{symbol.upper()}]. *)
Definition report_head : string :=
  nl ++ "╔════════════════════════════════════════════════════════════╗" ++ nl
  ++ "║           STOCK MARKET ANALYSIS REPORT                     ║" ++ nl
  ++ "║           Symbol: ".

(** The text between [{symbol.upper()}] and the timestamp. *)
Definition report_symbol_tail : string :=
  "                                    ║" ++ nl ++ "║           Generated: ".

(** The text between the timestamp and [{analysis_data}]. *)
Definition report_banner_tail : string :=
  "                  ║" ++ nl
  ++ "╚════════════════════════════════════════════════════════════╝" ++ nl
  ++ nl
  ++ "ANALYSIS SUMMARY:" ++ nl.

(** The text after [{analysis_data}]: recommendation and disclaimer. *)
Definition report_footer : string :=
  nl ++ nl
  ++ "RECOMMENDATION:" ++ nl
  ++ "Based on the time series analysis, technical indicators, and trend" ++ nl
  ++ "forecasting, this report provides actionable insights for trading" ++ nl
  ++ "decisions. Always consult with a financial advisor before trading." ++ nl
  ++ nl
  ++ "DISCLAIMER:" ++ nl
  ++ "This analysis is for educational purposes only and should not be" ++ nl
  ++ "considered as financial advice. Past performance does not guarantee" ++ nl
  ++ "future results." ++ nl.

(** [generate_report(symbol, analysis_data)], given [str.upper] as
    [py_upper] and called when
    [datetime.now().strftime('%Y-%m-%d %H:%M:%S')] reads [now]. Nothing in
    the [try] block raises, so the [except] branch is never taken. *)
Definition generate_report (py_upper : string -> string) (now symbol analysis_data : string)
  : string :=
  report_head ++ py_upper symbol ++ report_symbol_tail ++ now
  ++ report_banner_tail ++ analysis_data ++ report_footer.

(** ** Explanations of [analyze_price_movement] *)

Record alibi : Type := Alibi {
  rank : Z;
  title : string;
  explanation : string;
  signals : list (string * bool);
  confidence : Z
}.

Definition alibi_json (a : alibi) : pyval :=
  PDict [("rank", PNum (NInt (rank a))); ("title", PStr (title a));
         ("explanation", PStr (explanation a));
         ("signals", PDict (map (fun kv => (fst kv, PBool (snd kv))) (signals a)));
         ("confidence", PNum (NInt (confidence a)))].

(** [alibis.sort(key=lambda x: x["confidence"], reverse=True)]: a stable
    sort on decreasing confidence (equal keys keep their order). *)
Fixpoint insert_by_confidence (a : alibi) (l : list alibi) : list alibi :=
  match l with
  | [] => [a]
  | b :: r =>
      if confidence a <? confidence b then b :: insert_by_confidence a r
      else a :: b :: r
  end.

Definition sort_by_confidence (l : list alibi) : list alibi :=
  fold_right insert_by_confidence [] l.

Definition bullish_title : string := "📈 Bullish Volume Surge".
Definition panic_title : string := "📉 Panic Selling / Distribution".
Definition news_title : string := "📰 News Event / Earnings".
Definition bounce_title : string := "🎯 Support Bounce".
Definition rejection_title : string := "🚫 Resistance Rejection".
Definition range_title : string := "➡️ Range-bound Movement".

(** The series metrics computed at the top of [analyze_price_movement]. *)
Record movement_metrics : Type := Metrics {
  m_closes : list pyval;
  m_highs : list pyval;
  m_lows : list pyval;
  m_first : pyval;                  (** [closes[0]] *)
  m_last : pyval;                   (** [closes[-1]] *)
  m_price_change : num;
  m_price_change_pct : num;
  m_volume_spike : num;
  m_volatility : num
}.

(** [data[-days_back:] if len(data) >= days_back else data] *)
Definition recent_window (data : pyval) (days_back : Z) : Exc pyval :=
  let* n := py_len data in
  if days_back <=? n then py_slice_val data (Some (- days_back)) None else Ok data.

(** ** The transforms *)

Section Engine.

(** [json.loads] *)
Variable json_loads : string -> Exc pyval.
(** [str(v)], as an f-string prints [{v}] *)
Variable py_str : pyval -> string.
(** [format(x, ".<d>f")], as an f-string prints [{x:.<d>f}] *)
Variable py_fixed : nat -> num -> string.
(** The float loop of [sum] *)
Variable fsum_tail : double -> list num -> double.
(** The C library's [pow] and whether it set [errno] to [ERANGE] *)
Variable libm_pow : double -> double -> double * bool.

(** [d ** 2] for a float [d]. *)
Definition float_square (d : num) : Exc num :=
  let* r := float_pow_num libm_pow d (NInt 2) in
  match r with
  | Some y => Ok (NFloat y)
  | None => type_error "unsupported operand type(s) for +: 'int' and 'complex'"
  end.

(** *** [calculate_moving_average] *)

(** Lines 90-91: [round(sum(closes[i:i+window]) / window, 2)]. *)
Definition window_average (closes : list pyval) (window i : Z) : Exc num :=
  let* total := py_sum fsum_tail (py_slice closes (Some i) (Some (i + window))) in
  let* avg := num_truediv total (NInt window) in
  Ok (num_round2 avg).

Definition moving_average_body (data : pyval) (window : Z) : Exc pyval :=
  let data := unwrap_data data in
  let* closes := column data "close" in
  if Z.of_nat (length closes) <? window then
    Ok (PDict [("error", PStr "Not enough data points"); ("status", PStr "failed")])
  else
    let* moving_avgs :=
      mapM (window_average closes window) (zrange 0 (Z.of_nat (length closes) - window + 1)) in
    let* current_price := py_index closes (-1) in
    let* current_ma := py_index moving_avgs (-1) in
    let* above := py_gt current_price (PNum current_ma) in
    let trend := if above then "BULLISH" else "BEARISH" in
    let explanation :=
      if String.eqb trend "BULLISH"
      then "The stock is at $" ++ py_str current_price
           ++ ", which is ABOVE the average of $" ++ py_str (PNum current_ma)
           ++ ". This means it's going UP! 📈"
      else "The stock is at $" ++ py_str current_price
           ++ ", which is BELOW the average of $" ++ py_str (PNum current_ma)
           ++ ". This means it's going DOWN! 📉" in
    Ok (PDict [("current_price", current_price); ("average_price", PNum current_ma);
               ("trend", PStr trend); ("explanation", PStr explanation);
               ("status", PStr "success")]).

Definition calculate_moving_average (prices : string) (window : Z) : pyval :=
  tool_boundary (let* data := json_loads prices in moving_average_body data window).

(** *** [calculate_volatility] *)

(** [variance ** 0.5]: [None] is a complex result. *)
Definition volatility_of (variance : num) : Exc (option double) :=
  float_pow_num libm_pow variance (NFloat (D (1 # 2))).

(** ["LOW" if volatility < 5 else "MEDIUM" if volatility < 15 else "HIGH"] *)
Definition risk_level_of (volatility : option double) : Exc string :=
  match volatility with
  | Some v =>
      Ok (if num_ltb (NFloat v) (NInt 5) then "LOW"
          else if num_ltb (NFloat v) (NInt 15) then "MEDIUM"
          else "HIGH")
  | None => type_error "'<' not supported between instances of 'complex' and 'int'"
  end.

(** Lines 131-133: [mean = sum(closes) / len(closes)],
    [variance = sum((x - mean) ** 2 for x in closes) / len(closes)],
    [volatility = variance ** 0.5]. *)
Definition closes_volatility (closes : list pyval) : Exc (option double) :=
  let n := Z.of_nat (length closes) in
  let* total := py_sum fsum_tail closes in
  let* mean := num_truediv total (NInt n) in
  let* squares := mapM (fun x => let* d := py_sub x (PNum mean) in float_square d) closes in
  let* ssq := py_sum fsum_tail (map PNum squares) in
  let* variance := num_truediv ssq (NInt n) in
  volatility_of variance.

Definition volatility_body (data : pyval) : Exc pyval :=
  let data := unwrap_data data in
  let* closes := column data "close" in
  let n := Z.of_nat (length closes) in
  let* volatility := closes_volatility closes in
  let* returns :=
    mapM (fun i =>
            let* c := py_index closes i in
            let* p := py_index closes (i - 1) in
            let* d := py_sub c p in
            let* r := py_truediv (PNum d) p in
            num_mul r (NInt 100))
         (zrange 1 n) in
  let* avg_return :=
    match returns with
    | [] => Ok (NInt 0)
    | _ => let* s := py_sum fsum_tail (map PNum returns) in
           num_truediv s (NInt (Z.of_nat (length returns)))
    end in
  let* risk_level := risk_level_of volatility in
  let risk_explanation :=
    if String.eqb risk_level "LOW"
    then "This stock is STABLE - the price doesn't jump around much. It's like a calm river. 😌"
    else if String.eqb risk_level "MEDIUM"
    then "This stock is MODERATE - the price moves a bit. It's like a wavy river. 🌊"
    else "This stock is RISKY - the price jumps around a lot. It's like a wild river! ⚡" in
  let* lowest := (let* m := py_min closes in py_round2 m) in
  let* highest := (let* m := py_max closes in py_round2 m) in
  let* current := (let* c := py_index closes (-1) in py_round2 c) in
  Ok (PDict [("risk_level", PStr risk_level); ("risk_explanation", PStr risk_explanation);
             ("price_range", PDict [("lowest", lowest); ("highest", highest);
                                    ("current", current)]);
             ("status", PStr "success")]).

Definition calculate_volatility (prices : string) : pyval :=
  tool_boundary (let* data := json_loads prices in volatility_body data).

(** *** [predict_trend] *)

(** Lines 186-197: the means, then the slope and intercept of the
    least-squares line through [(i, closes[i])]. *)
Definition fit_line (closes : list pyval) : Exc (num * num) :=
  let n := Z.of_nat (length closes) in
  let x := zrange 0 n in
  let* x_total := py_sum fsum_tail (map (fun i => PNum (NInt i)) x) in
  let* x_mean := num_truediv x_total (NInt n) in
  let* y_total := py_sum fsum_tail closes in
  let* y_mean := num_truediv y_total (NInt n) in
  let* products :=
    mapM (fun iy => let* dx := num_sub (NInt (fst iy)) x_mean in
                    let* dy := py_sub (snd iy) (PNum y_mean) in
                    num_mul dx dy) (combine x closes) in
  let* numerator := py_sum fsum_tail (map PNum products) in
  let* squares := mapM (fun i => let* dx := num_sub (NInt i) x_mean in float_square dx) x in
  let* denominator := py_sum fsum_tail (map PNum squares) in
  let* slope :=
    (if num_eqb denominator (NInt 0) then Ok (NInt 0)
     else num_truediv numerator denominator) in
  let* sx := num_mul slope x_mean in
  let* intercept := num_sub y_mean sx in
  Ok (slope, intercept).

(** Lines 200-203: [round(slope * (n + i - 1) + intercept, 2)] for
    [i in range(1, forecast_days + 1)]. *)
Definition forecast_prices (slope intercept : num) (n forecast_days : Z) : Exc (list num) :=
  mapM (fun i => let* p := num_mul slope (NInt (n + i - 1)) in
                 let* y := num_add p intercept in
                 Ok (num_round2 y))
       (zrange 1 (forecast_days + 1)).

Definition predict_body (data : pyval) (forecast_days : Z) : Exc pyval :=
  let data := unwrap_data data in
  let* closes := column data "close" in
  let n := Z.of_nat (length closes) in
  let* line := fit_line closes in
  let (slope, intercept) := line in
  let* forecast := forecast_prices slope intercept n forecast_days in
  let* current_price := py_index closes (-1) in
  let* predicted_price := py_index forecast (-1) in
  let* diff := py_sub (PNum predicted_price) current_price in
  let* ratio := py_truediv (PNum diff) current_price in
  let* change_percent := num_mul ratio (NInt 100) in
  let direction := if num_ltb (NInt 0) slope then "UP" else "DOWN" in
  let prediction_text :=
    if String.eqb direction "UP"
    then "📈 The stock is predicted to go UP! It might reach $" ++ py_str (PNum predicted_price)
         ++ " (up " ++ py_fixed 1 (num_abs change_percent) ++ "%)"
    else "📉 The stock is predicted to go DOWN. It might reach $" ++ py_str (PNum predicted_price)
         ++ " (down " ++ py_fixed 1 (num_abs change_percent) ++ "%)" in
  Ok (PDict [("prediction", PStr prediction_text); ("current_price", current_price);
             ("predicted_price", PNum predicted_price); ("direction", PStr direction);
             ("change_percent", PNum (num_round2 change_percent));
             ("status", PStr "success")]).

Definition predict_trend (prices : string) (forecast_days : Z) : pyval :=
  tool_boundary (let* data := json_loads prices in predict_body data forecast_days).

(** *** [analyze_support_resistance] *)

(** [sorted(set(highs[-10:]))[-3:] if len(highs) >= 10 else sorted(set(highs))[-3:]] *)
Definition resistance_levels_of (highs : list pyval) : Exc (list pyval) :=
  let recent := if (10 <=? length highs)%nat then py_slice highs (Some (-10)) None else highs in
  let* distinct := py_set recent in
  let* ordered := py_sorted distinct in
  Ok (py_slice ordered (Some (-3)) None).

(** [sorted(set(lows[-10:]))[:3] if len(lows) >= 10 else sorted(set(lows))[:3]] *)
Definition support_levels_of (lows : list pyval) : Exc (list pyval) :=
  let recent := if (10 <=? length lows)%nat then py_slice lows (Some (-10)) None else lows in
  let* distinct := py_set recent in
  let* ordered := py_sorted distinct in
  Ok (py_slice ordered None (Some 3)).

Definition support_resistance_body (data : pyval) : Exc pyval :=
  let data := unwrap_data data in
  let* highs := column data "high" in
  let* lows := column data "low" in
  let* closes := column data "close" in
  let* resistance_levels := resistance_levels_of highs in
  let* support_levels := support_levels_of lows in
  let* current_price := py_index closes (-1) in
  let* signal :=
    (let* floor := py_min support_levels in
     let* below := py_lt current_price floor in
     if below then Ok "BUY"
     else let* ceiling := py_max resistance_levels in
          let* above := py_gt current_price ceiling in
          Ok (if above then "SELL" else "HOLD")) in
  let signal_text :=
    if String.eqb signal "BUY"
    then "🟢 BUY! The price is LOW (below the floor). Good time to buy!"
    else if String.eqb signal "SELL"
    then "🔴 SELL! The price is HIGH (above the ceiling). Good time to sell!"
    else "🟡 HOLD! The price is in the middle. Wait for a better time." in
  let* floor_price := (let* m := py_min support_levels in py_round2 m) in
  let* ceiling_price := (let* m := py_max resistance_levels in py_round2 m) in
  let* current := py_round2 current_price in
  Ok (PDict [("floor_price", floor_price); ("ceiling_price", ceiling_price);
             ("current_price", current); ("signal", PStr signal);
             ("signal_explanation", PStr signal_text); ("status", PStr "success")]).

Definition analyze_support_resistance (prices : string) : pyval :=
  tool_boundary (let* data := json_loads prices in support_resistance_body data).

(** *** [analyze_price_movement] *)

(** Lines 293-310. *)
Definition movement_metrics_of (data : pyval) (days_back : Z) : Exc movement_metrics :=
  let data := unwrap_data data in
  let* recent_data := recent_window data days_back in
  let* closes := column recent_data "close" in
  let* volumes := column recent_data "volume" in
  let* highs := column recent_data "high" in
  let* lows := column recent_data "low" in
  let* last := py_index closes (-1) in
  let* first := py_index closes 0 in
  let* price_change := py_sub last first in
  let* ratio := py_truediv (PNum price_change) first in
  let* price_change_pct := num_mul ratio (NInt 100) in
  let* total_volume := py_sum fsum_tail volumes in
  let* avg_volume := num_truediv total_volume (NInt (Z.of_nat (length volumes))) in
  let* volume_spike :=
    (if num_ltb (NInt 0) avg_volume
     then let* mv := py_max volumes in py_truediv mv (PNum avg_volume)
     else Ok (NInt 1)) in
  let* hmax := py_max highs in
  let* lmin := py_min lows in
  let* volatility := py_sub hmax lmin in
  Ok (Metrics closes highs lows first last price_change price_change_pct
              volume_spike volatility).

(** [abs(closes[-1] - closes[-2]) > volatility * 0.3 if len(closes) > 1 else False] *)
Definition gap_signal (m : movement_metrics) : Exc bool :=
  if (1 <? length (m_closes m))%nat then
    let* c1 := py_index (m_closes m) (-1) in
    let* c2 := py_index (m_closes m) (-2) in
    let* d := py_sub c1 c2 in
    let* t := num_mul (m_volatility m) (NFloat (D (3 # 10))) in
    Ok (num_ltb t (num_abs d))
  else Ok false.

(** [min(85, int(volume_spike * 30))] *)
Definition volume_confidence (spike : num) : Exc Z :=
  let* p := num_mul spike (NInt 30) in
  let* k := num_int p in
  Ok (Z.min 85 k).

(** Alibi 1, lines 316-343. *)
Definition volume_alibi (m : movement_metrics) : Exc (option alibi) :=
  let spike := m_volume_spike m in
  if num_ltb (NFloat (D (3 # 2))) spike then
    if num_ltb (NInt 0) (m_price_change m) then
      let* gap := gap_signal m in
      let* conf := volume_confidence spike in
      Ok (Some (Alibi 1 bullish_title
                  ("Heavy buying pressure! Volume spiked " ++ py_fixed 1 spike
                   ++ "x normal. Buyers came in strong.")
                  [("high_volume", true); ("price_up", true); ("gap_up", gap);
                   ("sustained_move", num_ltb (NInt 2) (m_price_change_pct m))]
                  conf))
    else
      let* gap := gap_signal m in
      let* conf := volume_confidence spike in
      Ok (Some (Alibi 1 panic_title
                  ("Heavy selling pressure! Volume spiked " ++ py_fixed 1 spike
                   ++ "x normal. Forced liquidation or profit-taking.")
                  [("high_volume", true); ("price_down", true); ("gap_down", gap);
                   ("sustained_move", num_ltb (m_price_change_pct m) (NInt (-2)))]
                  conf))
  else Ok None.

(** Alibi 2, lines 346-359. *)
Definition news_alibi (m : movement_metrics) : Exc (option alibi) :=
  let highs := m_highs m in
  let* ranges :=
    mapM (fun i => let* h := py_index highs i in
                   let* l := py_index (m_lows m) i in
                   py_sub h l)
         (zrange 0 (Z.of_nat (length highs))) in
  let* total := py_sum fsum_tail (map PNum ranges) in
  let* mean_range := num_truediv total (NInt (Z.of_nat (length highs))) in
  let* threshold := num_mul mean_range (NFloat (D (3 # 2))) in
  if num_ltb threshold (m_volatility m) then
    Ok (Some (Alibi 2 news_title
                ("Big price swing (" ++ py_fixed 2 (m_volatility m)
                 ++ ") suggests news, earnings, or major announcement.")
                [("high_volatility", true); ("wide_range", true);
                 ("unusual_movement", true); ("potential_catalyst", true)]
                70))
  else Ok None.

(** Alibi 3, lines 362-405. *)
Definition level_alibi (m : movement_metrics) : Exc (option alibi) :=
  let closes := m_closes m in
  if (1 <? length closes)%nat then
    let* recent_low :=
      (if (3 <=? length closes)%nat then py_min (py_slice closes (Some (-3)) None)
       else py_min closes) in
    let* recent_high :=
      (if (3 <=? length closes)%nat then py_max (py_slice closes (Some (-3)) None)
       else py_max closes) in
    let spike := m_volume_spike m in
    let pct := m_price_change_pct m in
    let* bounce :=
      (if num_ltb (NInt 0) (m_price_change m) then py_gt (m_last m) recent_low
       else Ok false) in
    if bounce then
      let* low_n := format_operand recent_low in
      Ok (Some (Alibi 3 bounce_title
                  ("Price bounced off support level ($" ++ py_fixed 2 low_n
                   ++ "). Buyers stepped in at the floor.")
                  [("touched_support", true); ("bounced_up", true);
                   ("volume_on_bounce", num_ltb (NFloat (D (6 # 5))) spike);
                   ("recovery_move", num_ltb (NInt 1) pct)]
                  65))
    else
      let* rejected :=
        (if num_ltb (m_price_change m) (NInt 0) then py_lt (m_last m) recent_high
         else Ok false) in
      if rejected then
        let* high_n := format_operand recent_high in
        Ok (Some (Alibi 3 rejection_title
                    ("Price hit resistance ($" ++ py_fixed 2 high_n
                     ++ ") and got rejected. Sellers took over.")
                    [("touched_resistance", true); ("rejected_down", true);
                     ("volume_on_rejection", num_ltb (NFloat (D (6 # 5))) spike);
                     ("breakdown_move", num_ltb pct (NInt (-1)))]
                    65))
      else
        Ok (Some (Alibi 3 range_title
                    "Price moved within its normal range. No major catalyst detected."
                    [("normal_volatility", true); ("within_range", true);
                     ("no_catalyst", true); ("consolidation", true)]
                    55))
  else Ok None.

Definition option_list {A : Type} (o : option A) : list A :=
  match o with Some a => [a] | None => [] end.

(** The alibis in the order the source appends them. *)
Definition alibi_candidates (m : movement_metrics) : Exc (list alibi) :=
  let* a1 := volume_alibi m in
  let* a2 := news_alibi m in
  let* a3 := level_alibi m in
  Ok (option_list a1 ++ option_list a2 ++ option_list a3)%list.

(** Lines 293-419: the sorted alibis and the context card. *)
Definition movement_analysis (data : pyval) (days_back : Z)
  : Exc (list alibi * list (string * pyval)) :=
  let* m := movement_metrics_of data days_back in
  let* candidates := alibi_candidates m in
  let alibis := sort_by_confidence candidates in
  let* current := py_round2 (m_last m) in
  let* starting := py_round2 (m_first m) in
  Ok (alibis,
      [("period_days", PNum (NInt days_back));
       ("price_change", PNum (num_round2 (m_price_change m)));
       ("price_change_pct", PNum (num_round2 (m_price_change_pct m)));
       ("volume_spike_ratio", PNum (num_round2 (m_volume_spike m)));
       ("volatility_range", PNum (num_round2 (m_volatility m)));
       ("current_price", current); ("starting_price", starting)]).

Definition movement_json (r : list alibi * list (string * pyval)) : pyval :=
  PDict [("alibis", PList (map alibi_json (fst r))); ("context", PDict (snd r));
         ("status", PStr "success")].

Definition analyze_price_movement (prices : string) (days_back : Z) : pyval :=
  tool_boundary (let* data := json_loads prices in
                 let* r := movement_analysis data days_back in
                 Ok (movement_json r)).

End Engine.

(** ** Stand-ins for the parameters, used to evaluate concrete calls *)

(** A [json.loads] that knows the parse of the texts in [table]. *)
Definition table_loads (table : list (string * pyval)) (txt : string) : Exc pyval :=
  match find (fun e => String.eqb (fst e) txt) table with
  | Some e => Ok (snd e)
  | None => Raise (Exn "JSONDecodeError" "Expecting value: line 1 column 1 (char 0)")
  end.

(** Number formatting does not influence any field the statements read. *)
Definition any_str (_ : pyval) : string := "0".
Definition any_fixed (_ : nat) (_ : num) : string := "0".

(** [str.upper] on ASCII letters, which is all the symbols of the examples
    contain. *)
Definition ascii_upper (c : ascii) : ascii :=
  let n := nat_of_ascii c in
  if ((97 <=? n) && (n <=? 122))%nat then ascii_of_nat (n - 32) else c.

Fixpoint ascii_upper_str (s : string) : string :=
  match s with
  | EmptyString => EmptyString
  | String c r => String (ascii_upper c) (ascii_upper_str r)
  end.

(** A C library [pow] correctly rounded for the two exponents of the
    source, 2 and 0.5 (a square root rounded to nearest), that sets
    [ERANGE] on overflow. The source uses no other exponent. *)
Definition sqrt_nearest (q : Q) : double :=
  let k := Z.max 0 (62 - qlog2 q / 2) in
  let a := (q * 2 ^ (2 * k))%Q in
  let n := Qfloor a in
  let s := Z.sqrt n in
  if (s * s =? n) && Qeq_bool a (inject_Z n) then D (inject_Z s / 2 ^ k)%Q
  else D (inject_Z (2 * s + 1) / 2 ^ (k + 1))%Q.

Definition pow_nearest (x y : double) : double * bool :=
  let r := if Qeq_bool (dval y) 2 then dround false (dval x * dval x)
           else if Qeq_bool (dval y) (1 # 2) then sqrt_nearest (dval x)
           else DNaN in
  (r, match r with DInf _ => true | _ => false end).

(** ** Concrete series *)

Definition dq : string := String (ascii_of_nat 34) EmptyString.

(** The float a JSON literal [m]e[e] denotes. *)
Definition dec (m e : Z) : num := NFloat (D (inject_Z m * 10 ^ e)%Q).

Definition ramp10 : list price_point :=
  [ PricePoint "2024-01-01" (NInt 100) (NInt 101) (NInt 99) (NInt 100) (NInt 1000000)
  ; PricePoint "2024-01-02" (NInt 101) (NInt 102) (NInt 100) (NInt 101) (NInt 1000000)
  ; PricePoint "2024-01-03" (NInt 102) (NInt 103) (NInt 101) (NInt 102) (NInt 1000000)
  ; PricePoint "2024-01-04" (NInt 103) (NInt 104) (NInt 102) (NInt 103) (NInt 1000000)
  ; PricePoint "2024-01-05" (NInt 104) (NInt 105) (NInt 103) (NInt 104) (NInt 1000000)
  ; PricePoint "2024-01-06" (NInt 105) (NInt 106) (NInt 104) (NInt 105) (NInt 1000000)
  ; PricePoint "2024-01-07" (NInt 106) (NInt 107) (NInt 105) (NInt 106) (NInt 1000000)
  ; PricePoint "2024-01-08" (NInt 107) (NInt 108) (NInt 106) (NInt 107) (NInt 1000000)
  ; PricePoint "2024-01-09" (NInt 108) (NInt 109) (NInt 107) (NInt 108) (NInt 1000000)
  ; PricePoint "2024-01-10" (NInt 109) (NInt 110) (NInt 108) (NInt 109) (NInt 1000000) ].

(** [json.dumps(ramp10)] *)
Definition ramp10_text : string :=
  "[{" ++ dq ++ "date" ++ dq ++ ": " ++ dq ++ "2024-01-01" ++ dq ++ ", " ++ dq ++ "open" ++ dq ++ ": 100, " ++ dq ++ "high" ++ dq ++ ": 101, " ++ dq ++ "low" ++ dq ++ ": 99, " ++ dq ++ "close" ++ dq ++ ": 100, " ++ dq ++ "volume" ++ dq ++ ": 1000000}, {" ++ dq ++ "date" ++ dq ++ ": " ++ dq ++ "2024-01-02" ++ dq ++ ", " ++ dq ++ "open" ++ dq ++ ": 101, " ++ dq ++ "high" ++ dq ++ ": 102, " ++ dq ++ "low" ++ dq ++ ": 100, " ++ dq ++ "close" ++ dq ++ ": 101, " ++ dq ++ "volume" ++ dq ++ ": 1000000}, {" ++ dq ++ "date" ++ dq ++ ": " ++ dq ++ "2024-01-03" ++ dq ++ ", " ++ dq ++ "open" ++ dq ++ ": 102, " ++ dq ++ "high" ++ dq ++ ": 103, " ++ dq ++ "low" ++ dq ++ ": 101, " ++ dq ++ "close" ++ dq ++ ": 102, " ++ dq ++ "volume" ++ dq ++ ": 1000000}, {" ++ dq ++ "date" ++ dq ++ ": " ++ dq ++ "2024-01-04" ++ dq ++ ", " ++ dq ++ "open" ++ dq ++ ": 103, " ++ dq ++ "high" ++ dq ++ ": 104, " ++ dq ++ "low" ++ dq ++ ": 102, " ++ dq ++ "close" ++ dq ++ ": 103, " ++ dq ++ "volume" ++ dq ++ ": 1000000}, {" ++ dq ++ "date" ++ dq ++ ": " ++ dq ++ "2024-01-05" ++ dq ++ ", " ++ dq ++ "open" ++ dq ++ ": 104, " ++ dq ++ "high" ++ dq ++ ": 105, " ++ dq ++ "low" ++ dq ++ ": 103, " ++ dq ++ "close" ++ dq ++ ": 104, " ++ dq ++ "volume" ++ dq ++ ": 1000000}, {" ++ dq ++ "date" ++ dq ++ ": " ++ dq ++ "2024-01-06" ++ dq ++ ", " ++ dq ++ "open" ++ dq ++ ": 105, " ++ dq ++ "high" ++ dq ++ ": 106, " ++ dq ++ "low" ++ dq ++ ": 104, " ++ dq ++ "close" ++ dq ++ ": 105, " ++ dq ++ "volume" ++ dq ++ ": 1000000}, {" ++ dq ++ "date" ++ dq ++ ": " ++ dq ++ "2024-01-07" ++ dq ++ ", " ++ dq ++ "open" ++ dq ++ ": 106, " ++ dq ++ "high" ++ dq ++ ": 107, " ++ dq ++ "low" ++ dq ++ ": 105, " ++ dq ++ "close" ++ dq ++ ": 106, " ++ dq ++ "volume" ++ dq ++ ": 1000000}, {" ++ dq ++ "date" ++ dq ++ ": " ++ dq ++ "2024-01-08" ++ dq ++ ", " ++ dq ++ "open" ++ dq ++ ": 107, " ++ dq ++ "high" ++ dq ++ ": 108, " ++ dq ++ "low" ++ dq ++ ": 106, " ++ dq ++ "close" ++ dq ++ ": 107, " ++ dq ++ "volume" ++ dq ++ ": 1000000}, {" ++ dq ++ "date" ++ dq ++ ": " ++ dq ++ "2024-01-09" ++ dq ++ ", " ++ dq ++ "open" ++ dq ++ ": 108, " ++ dq ++ "high" ++ dq ++ ": 109, " ++ dq ++ "low" ++ dq ++ ": 107, " ++ dq ++ "close" ++ dq ++ ": 108, " ++ dq ++ "volume" ++ dq ++ ": 1000000}, {" ++ dq ++ "date" ++ dq ++ ": " ++ dq ++ "2024-01-10" ++ dq ++ ", " ++ dq ++ "open" ++ dq ++ ": 109, " ++ dq ++ "high" ++ dq ++ ": 110, " ++ dq ++ "low" ++ dq ++ ": 108, " ++ dq ++ "close" ++ dq ++ ": 109, " ++ dq ++ "volume" ++ dq ++ ": 1000000}]".

Definition tick3 : list price_point :=
  [ PricePoint "2024-01-01" (dec 10001 (-2)) (dec 10051 (-2)) (dec 9951 (-2)) (dec 10001 (-2)) (NInt 1000000)
  ; PricePoint "2024-01-02" (dec 10002 (-2)) (dec 10052 (-2)) (dec 9952 (-2)) (dec 10002 (-2)) (NInt 1000000)
  ; PricePoint "2024-01-03" (dec 10002 (-2)) (dec 10052 (-2)) (dec 9952 (-2)) (dec 10002 (-2)) (NInt 1000000) ].

(** [json.dumps(tick3)] *)
Definition tick3_text : string :=
  "[{" ++ dq ++ "date" ++ dq ++ ": " ++ dq ++ "2024-01-01" ++ dq ++ ", " ++ dq ++ "open" ++ dq ++ ": 100.01, " ++ dq ++ "high" ++ dq ++ ": 100.51, " ++ dq ++ "low" ++ dq ++ ": 99.51, " ++ dq ++ "close" ++ dq ++ ": 100.01, " ++ dq ++ "volume" ++ dq ++ ": 1000000}, {" ++ dq ++ "date" ++ dq ++ ": " ++ dq ++ "2024-01-02" ++ dq ++ ", " ++ dq ++ "open" ++ dq ++ ": 100.02, " ++ dq ++ "high" ++ dq ++ ": 100.52, " ++ dq ++ "low" ++ dq ++ ": 99.52, " ++ dq ++ "close" ++ dq ++ ": 100.02, " ++ dq ++ "volume" ++ dq ++ ": 1000000}, {" ++ dq ++ "date" ++ dq ++ ": " ++ dq ++ "2024-01-03" ++ dq ++ ", " ++ dq ++ "open" ++ dq ++ ": 100.02, " ++ dq ++ "high" ++ dq ++ ": 100.52, " ++ dq ++ "low" ++ dq ++ ": 99.52, " ++ dq ++ "close" ++ dq ++ ": 100.02, " ++ dq ++ "volume" ++ dq ++ ": 1000000}]".

Definition convex5 : list price_point :=
  [ PricePoint "2024-01-01" (NInt 1) (NInt 2) (NInt 0) (NInt 1) (NInt 1000000)
  ; PricePoint "2024-01-02" (NInt 2) (NInt 3) (NInt 1) (NInt 2) (NInt 1000000)
  ; PricePoint "2024-01-03" (NInt 3) (NInt 4) (NInt 2) (NInt 3) (NInt 1000000)
  ; PricePoint "2024-01-04" (NInt 4) (NInt 5) (NInt 3) (NInt 4) (NInt 1000000)
  ; PricePoint "2024-01-05" (NInt 100) (NInt 101) (NInt 99) (NInt 100) (NInt 1000000) ].

(** [json.dumps(convex5)] *)
Definition convex5_text : string :=
  "[{" ++ dq ++ "date" ++ dq ++ ": " ++ dq ++ "2024-01-01" ++ dq ++ ", " ++ dq ++ "open" ++ dq ++ ": 1, " ++ dq ++ "high" ++ dq ++ ": 2, " ++ dq ++ "low" ++ dq ++ ": 0, " ++ dq ++ "close" ++ dq ++ ": 1, " ++ dq ++ "volume" ++ dq ++ ": 1000000}, {" ++ dq ++ "date" ++ dq ++ ": " ++ dq ++ "2024-01-02" ++ dq ++ ", " ++ dq ++ "open" ++ dq ++ ": 2, " ++ dq ++ "high" ++ dq ++ ": 3, " ++ dq ++ "low" ++ dq ++ ": 1, " ++ dq ++ "close" ++ dq ++ ": 2, " ++ dq ++ "volume" ++ dq ++ ": 1000000}, {" ++ dq ++ "date" ++ dq ++ ": " ++ dq ++ "2024-01-03" ++ dq ++ ", " ++ dq ++ "open" ++ dq ++ ": 3, " ++ dq ++ "high" ++ dq ++ ": 4, " ++ dq ++ "low" ++ dq ++ ": 2, " ++ dq ++ "close" ++ dq ++ ": 3, " ++ dq ++ "volume" ++ dq ++ ": 1000000}, {" ++ dq ++ "date" ++ dq ++ ": " ++ dq ++ "2024-01-04" ++ dq ++ ", " ++ dq ++ "open" ++ dq ++ ": 4, " ++ dq ++ "high" ++ dq ++ ": 5, " ++ dq ++ "low" ++ dq ++ ": 3, " ++ dq ++ "close" ++ dq ++ ": 4, " ++ dq ++ "volume" ++ dq ++ ": 1000000}, {" ++ dq ++ "date" ++ dq ++ ": " ++ dq ++ "2024-01-05" ++ dq ++ ", " ++ dq ++ "open" ++ dq ++ ": 100, " ++ dq ++ "high" ++ dq ++ ": 101, " ++ dq ++ "low" ++ dq ++ ": 99, " ++ dq ++ "close" ++ dq ++ ": 100, " ++ dq ++ "volume" ++ dq ++ ": 1000000}]".

Definition flat3 : list price_point :=
  [ PricePoint "2024-01-01" (NInt 100) (NInt 101) (NInt 99) (NInt 100) (NInt 1000000)
  ; PricePoint "2024-01-02" (NInt 100) (NInt 101) (NInt 99) (NInt 100) (NInt 1000000)
  ; PricePoint "2024-01-03" (NInt 100) (NInt 101) (NInt 99) (NInt 100) (NInt 1000000) ].

(** [json.dumps(flat3)] *)
Definition flat3_text : string :=
  "[{" ++ dq ++ "date" ++ dq ++ ": " ++ dq ++ "2024-01-01" ++ dq ++ ", " ++ dq ++ "open" ++ dq ++ ": 100, " ++ dq ++ "high" ++ dq ++ ": 101, " ++ dq ++ "low" ++ dq ++ ": 99, " ++ dq ++ "close" ++ dq ++ ": 100, " ++ dq ++ "volume" ++ dq ++ ": 1000000}, {" ++ dq ++ "date" ++ dq ++ ": " ++ dq ++ "2024-01-02" ++ dq ++ ", " ++ dq ++ "open" ++ dq ++ ": 100, " ++ dq ++ "high" ++ dq ++ ": 101, " ++ dq ++ "low" ++ dq ++ ": 99, " ++ dq ++ "close" ++ dq ++ ": 100, " ++ dq ++ "volume" ++ dq ++ ": 1000000}, {" ++ dq ++ "date" ++ dq ++ ": " ++ dq ++ "2024-01-03" ++ dq ++ ", " ++ dq ++ "open" ++ dq ++ ": 100, " ++ dq ++ "high" ++ dq ++ ": 101, " ++ dq ++ "low" ++ dq ++ ": 99, " ++ dq ++ "close" ++ dq ++ ": 100, " ++ dq ++ "volume" ++ dq ++ ": 1000000}]".

Definition spike5 : list price_point :=
  [ PricePoint "2024-01-01" (NInt 100) (NInt 101) (NInt 99) (NInt 100) (NInt 1500000)
  ; PricePoint "2024-01-02" (NInt 101) (NInt 102) (NInt 100) (NInt 101) (NInt 1500000)
  ; PricePoint "2024-01-03" (NInt 102) (NInt 103) (NInt 101) (NInt 102) (NInt 1500000)
  ; PricePoint "2024-01-04" (NInt 103) (NInt 104) (NInt 102) (NInt 103) (NInt 1500000)
  ; PricePoint "2024-01-05" (NInt 104) (NInt 105) (NInt 103) (NInt 104) (NInt 9000000) ].

(** [json.dumps(spike5)] *)
Definition spike5_text : string :=
  "[{" ++ dq ++ "date" ++ dq ++ ": " ++ dq ++ "2024-01-01" ++ dq ++ ", " ++ dq ++ "open" ++ dq ++ ": 100, " ++ dq ++ "high" ++ dq ++ ": 101, " ++ dq ++ "low" ++ dq ++ ": 99, " ++ dq ++ "close" ++ dq ++ ": 100, " ++ dq ++ "volume" ++ dq ++ ": 1500000}, {" ++ dq ++ "date" ++ dq ++ ": " ++ dq ++ "2024-01-02" ++ dq ++ ", " ++ dq ++ "open" ++ dq ++ ": 101, " ++ dq ++ "high" ++ dq ++ ": 102, " ++ dq ++ "low" ++ dq ++ ": 100, " ++ dq ++ "close" ++ dq ++ ": 101, " ++ dq ++ "volume" ++ dq ++ ": 1500000}, {" ++ dq ++ "date" ++ dq ++ ": " ++ dq ++ "2024-01-03" ++ dq ++ ", " ++ dq ++ "open" ++ dq ++ ": 102, " ++ dq ++ "high" ++ dq ++ ": 103, " ++ dq ++ "low" ++ dq ++ ": 101, " ++ dq ++ "close" ++ dq ++ ": 102, " ++ dq ++ "volume" ++ dq ++ ": 1500000}, {" ++ dq ++ "date" ++ dq ++ ": " ++ dq ++ "2024-01-04" ++ dq ++ ", " ++ dq ++ "open" ++ dq ++ ": 103, " ++ dq ++ "high" ++ dq ++ ": 104, " ++ dq ++ "low" ++ dq ++ ": 102, " ++ dq ++ "close" ++ dq ++ ": 103, " ++ dq ++ "volume" ++ dq ++ ": 1500000}, {" ++ dq ++ "date" ++ dq ++ ": " ++ dq ++ "2024-01-05" ++ dq ++ ", " ++ dq ++ "open" ++ dq ++ ": 104, " ++ dq ++ "high" ++ dq ++ ": 105, " ++ dq ++ "low" ++ dq ++ ": 103, " ++ dq ++ "close" ++ dq ++ ": 104, " ++ dq ++ "volume" ++ dq ++ ": 9000000}]".

Definition fine2 : list price_point :=
  [ PricePoint "2024-01-01" (dec 15 (-1)) (dec 25 (-1)) (dec 1234 (-3)) (dec 15 (-1)) (NInt 1000000)
  ; PricePoint "2024-01-02" (NInt 2) (dec 25 (-1)) (dec 1234 (-3)) (NInt 2) (NInt 1000000) ].

(** [json.dumps(fine2)] *)
Definition fine2_text : string :=
  "[{" ++ dq ++ "date" ++ dq ++ ": " ++ dq ++ "2024-01-01" ++ dq ++ ", " ++ dq ++ "open" ++ dq ++ ": 1.5, " ++ dq ++ "high" ++ dq ++ ": 2.5, " ++ dq ++ "low" ++ dq ++ ": 1.234, " ++ dq ++ "close" ++ dq ++ ": 1.5, " ++ dq ++ "volume" ++ dq ++ ": 1000000}, {" ++ dq ++ "date" ++ dq ++ ": " ++ dq ++ "2024-01-02" ++ dq ++ ", " ++ dq ++ "open" ++ dq ++ ": 2, " ++ dq ++ "high" ++ dq ++ ": 2.5, " ++ dq ++ "low" ++ dq ++ ": 1.234, " ++ dq ++ "close" ++ dq ++ ": 2, " ++ dq ++ "volume" ++ dq ++ ": 1000000}]".

Definition line3 : list price_point :=
  [ PricePoint "2024-01-01" (dec 1000 (-1)) (dec 1000 (-1)) (dec 1000 (-1)) (dec 1000 (-1)) (NInt 1000000)
  ; PricePoint "2024-01-02" (dec 1000 (-1)) (dec 1000 (-1)) (dec 1000 (-1)) (dec 1000 (-1)) (NInt 1000000)
  ; PricePoint "2024-01-03" (dec 10003 (-2)) (dec 10003 (-2)) (dec 10003 (-2)) (dec 10003 (-2)) (NInt 1000000) ].

(** [json.dumps(line3)] *)
Definition line3_text : string :=
  "[{" ++ dq ++ "date" ++ dq ++ ": " ++ dq ++ "2024-01-01" ++ dq ++ ", " ++ dq ++ "open" ++ dq ++ ": 100.0, " ++ dq ++ "high" ++ dq ++ ": 100.0, " ++ dq ++ "low" ++ dq ++ ": 100.0, " ++ dq ++ "close" ++ dq ++ ": 100.0, " ++ dq ++ "volume" ++ dq ++ ": 1000000}, {" ++ dq ++ "date" ++ dq ++ ": " ++ dq ++ "2024-01-02" ++ dq ++ ", " ++ dq ++ "open" ++ dq ++ ": 100.0, " ++ dq ++ "high" ++ dq ++ ": 100.0, " ++ dq ++ "low" ++ dq ++ ": 100.0, " ++ dq ++ "close" ++ dq ++ ": 100.0, " ++ dq ++ "volume" ++ dq ++ ": 1000000}, {" ++ dq ++ "date" ++ dq ++ ": " ++ dq ++ "2024-01-03" ++ dq ++ ", " ++ dq ++ "open" ++ dq ++ ": 100.03, " ++ dq ++ "high" ++ dq ++ ": 100.03, " ++ dq ++ "low" ++ dq ++ ": 100.03, " ++ dq ++ "close" ++ dq ++ ": 100.03, " ++ dq ++ "volume" ++ dq ++ ": 1000000}]".

Definition tiny2 : list price_point :=
  [ PricePoint "2024-01-01" (dec 5 (-324)) (dec 5 (-324)) (dec 5 (-324)) (dec 5 (-324)) (NInt 1000000)
  ; PricePoint "2024-01-02" (dec 1 (-323)) (dec 1 (-323)) (dec 1 (-323)) (dec 1 (-323)) (NInt 1000000) ].

(** [json.dumps(tiny2)] *)
Definition tiny2_text : string :=
  "[{" ++ dq ++ "date" ++ dq ++ ": " ++ dq ++ "2024-01-01" ++ dq ++ ", " ++ dq ++ "open" ++ dq ++ ": 5e-324, " ++ dq ++ "high" ++ dq ++ ": 5e-324, " ++ dq ++ "low" ++ dq ++ ": 5e-324, " ++ dq ++ "close" ++ dq ++ ": 5e-324, " ++ dq ++ "volume" ++ dq ++ ": 1000000}, {" ++ dq ++ "date" ++ dq ++ ": " ++ dq ++ "2024-01-02" ++ dq ++ ", " ++ dq ++ "open" ++ dq ++ ": 1e-323, " ++ dq ++ "high" ++ dq ++ ": 1e-323, " ++ dq ++ "low" ++ dq ++ ": 1e-323, " ++ dq ++ "close" ++ dq ++ ": 1e-323, " ++ dq ++ "volume" ++ dq ++ ": 1000000}]".

Definition vol3 : list price_point :=
  [ PricePoint "2024-01-01" (NInt 100) (NInt 101) (NInt 99) (NInt 100) (NInt 3000000)
  ; PricePoint "2024-01-02" (NInt 101) (NInt 102) (NInt 100) (NInt 101) (NInt 1000000)
  ; PricePoint "2024-01-03" (NInt 102) (NInt 103) (NInt 101) (NInt 102) (NInt 1000000) ].

(** [json.dumps(vol3)] *)
Definition vol3_text : string :=
  "[{" ++ dq ++ "date" ++ dq ++ ": " ++ dq ++ "2024-01-01" ++ dq ++ ", " ++ dq ++ "open" ++ dq ++ ": 100, " ++ dq ++ "high" ++ dq ++ ": 101, " ++ dq ++ "low" ++ dq ++ ": 99, " ++ dq ++ "close" ++ dq ++ ": 100, " ++ dq ++ "volume" ++ dq ++ ": 3000000}, {" ++ dq ++ "date" ++ dq ++ ": " ++ dq ++ "2024-01-02" ++ dq ++ ", " ++ dq ++ "open" ++ dq ++ ": 101, " ++ dq ++ "high" ++ dq ++ ": 102, " ++ dq ++ "low" ++ dq ++ ": 100, " ++ dq ++ "close" ++ dq ++ ": 101, " ++ dq ++ "volume" ++ dq ++ ": 1000000}, {" ++ dq ++ "date" ++ dq ++ ": " ++ dq ++ "2024-01-03" ++ dq ++ ", " ++ dq ++ "open" ++ dq ++ ": 102, " ++ dq ++ "high" ++ dq ++ ": 103, " ++ dq ++ "low" ++ dq ++ ": 101, " ++ dq ++ "close" ++ dq ++ ": 102, " ++ dq ++ "volume" ++ dq ++ ": 1000000}]".

Definition demo_loads : string -> Exc pyval :=
  table_loads [(ramp10_text, series_json ramp10); (tick3_text, series_json tick3);
               (convex5_text, series_json convex5); (flat3_text, series_json flat3);
               (spike5_text, series_json spike5); (fine2_text, series_json fine2);
               (line3_text, series_json line3); (tiny2_text, series_json tiny2);
               (vol3_text, series_json vol3)].

(** ** Definitions the statements use *)

(** [P] holds of the value of [m] when [m] returns normally. *)
Definition exc_all {A : Type} (P : A -> Prop) (m : Exc A) : Prop :=
  match m with
  | Ok a => P a
  | Raise _ => True
  end.

(** The shape of every dict a tool returns: a [status] of ["success"], or
    ["failed"] together with an ["error"] message. *)
Definition tool_result_ok (v : pyval) : Prop :=
  get "status" v = Some (PStr "success")
  \/ (get "status" v = Some (PStr "failed") /\ exists msg, get "error" v = Some (PStr msg)).

(** The exact value of a finite number. *)
Definition nval (n : num) : Q :=
  match n with
  | NInt z => inject_Z z
  | NFloat d => dval d
  end.

(** A number [json.loads] reads from a numeric literal other than [NaN] and
    [Infinity]: an int, or a finite double of the format. *)
Definition num_ok (n : num) : bool :=
  match n with
  | NInt _ => true
  | NFloat d => dfinite d && dvalid d
  end.

(** [a <= b] on numbers, false when NaN is involved. *)
Definition num_leb (a b : num) : bool :=
  match nx a, nx b with
  | Some x, Some y => negb (xltb y x)
  | _, _ => false
  end.

(** Every low, high and close of the series is such a number. *)
Definition series_ok (s : list price_point) : bool :=
  forallb (fun p => num_ok (pp_low p) && num_ok (pp_high p) && num_ok (pp_close p)) s.

Definition closes_of (s : list price_point) : list num := map pp_close s.

(** The close of the latest record. *)
Definition last_close (s : list price_point) : num := last (closes_of s) (NInt 0).

(** The integers of a list of numbers that are all ints. *)
Fixpoint all_ints (l : list num) : option (list Z) :=
  match l with
  | [] => Some []
  | NInt z :: r => match all_ints r with Some zs => Some (z :: zs) | None => None end
  | NFloat _ :: _ => None
  end.

(** The [k] most recent elements (all of them when there are fewer). *)
Definition lastn {A : Type} (k : nat) (l : list A) : list A := skipn (length l - k) l.

(** *** Exact arithmetic, to compare the float results with *)

Definition qsum (l : list Q) : Q := fold_left Qplus l 0%Q.

(** Rounding to 2 decimals, half to even. *)
Definition round2 (q : Q) : Q := (inject_Z (round_half_even (q * 100)) / 100)%Q.

(** The simple moving average of the [k] most recent values. *)
Definition sma (k : nat) (ys : list Q) : Q := (qsum (lastn k ys) / inject_Z (Z.of_nat k))%Q.

(** The least-squares line through the points [(i, ys[i])], slope 0 when
    the abscissas do not vary. *)
Definition exact_fit (ys : list Q) : Q * Q :=
  let n := inject_Z (Z.of_nat (length ys)) in
  let xs := map inject_Z (zrange 0 (Z.of_nat (length ys))) in
  let x_mean := (qsum xs / n)%Q in
  let y_mean := (qsum ys / n)%Q in
  let numerator := qsum (map (fun p => (fst p - x_mean) * (snd p - y_mean))%Q (combine xs ys)) in
  let denominator := qsum (map (fun x => (x - x_mean) * (x - x_mean))%Q xs) in
  let slope := if Qeq_bool denominator 0 then 0%Q else (numerator / denominator)%Q in
  (slope, (y_mean - slope * x_mean)%Q).

(** The value of that line on day [n - 1 + k], rounded to 2 decimals. *)
Definition exact_forecast (ys : list Q) (k : Z) : Q :=
  let (slope, intercept) := exact_fit ys in
  round2 (slope * inject_Z (Z.of_nat (length ys) - 1 + k) + intercept)%Q.

(** A sum over a list of points. *)
Definition sum_over (f : Q * Q -> Q) (l : list (Q * Q)) : Q := qsum (map f l).

(** The points [(i, ys[i])] the line is fitted to. *)
Definition day_points (ys : list Q) : list (Q * Q) :=
  combine (map inject_Z (zrange 0 (Z.of_nat (length ys)))) ys.

(** The largest volume of a window over its average volume, 1 when the
    average is not positive. *)
Definition exact_spike_ratio (vs : list Q) : Q :=
  match vs with
  | [] => 1%Q
  | v :: r =>
      let avg := (qsum vs / inject_Z (Z.of_nat (length vs)))%Q in
      if Qlt_bool 0 avg
      then (fold_left (fun m y => if Qlt_bool m y then y else m) r v / avg)%Q
      else 1%Q
  end.

Fixpoint strictly_increasing (l : list Q) : bool :=
  match l with
  | x :: (y :: _) as r => Qlt_bool x y && strictly_increasing r
  | _ => true
  end.

(** *** Levels *)

(** The numeric reading of [sorted(set(...))] on a list of rationals:
    insertion as in [py_insert], first occurrence kept as in [py_set]. *)
Fixpoint q_insert (x : Q) (s : list Q) : list Q :=
  match s with
  | [] => [x]
  | y :: r => if Qlt_bool x y then x :: y :: r else y :: q_insert x r
  end.

Definition q_sorted (l : list Q) : list Q := fold_left (fun acc x => q_insert x acc) l [].

Definition q_set_step (s : list Q) (v : Q) : list Q :=
  if existsb (Qeq_bool v) s then s else (s ++ [v])%list.

Definition q_set (l : list Q) : list Q := fold_left q_set_step l [].

(** No two values of [l] are equal. *)
Definition q_distinct (l : list Q) : Prop := ForallOrdPairs (fun a b => ~ (a == b)%Q) l.

(** The same on numbers, compared by their values. *)
Fixpoint n_insert (x : num) (s : list num) : list num :=
  match s with
  | [] => [x]
  | y :: r => if Qlt_bool (nval x) (nval y) then x :: y :: r else y :: n_insert x r
  end.

Definition n_sorted (l : list num) : list num := fold_left (fun acc x => n_insert x acc) l [].

Definition n_set_step (s : list num) (v : num) : list num :=
  if existsb (fun w => Qeq_bool (nval v) (nval w)) s then s else (s ++ [v])%list.

Definition n_set (l : list num) : list num := fold_left n_set_step l [].

(** [L] lists, strictly increasing, the [k] lowest distinct values of
    [window] (all of them when there are fewer than [k]). *)
Definition lowest_distinct (k : nat) (L window : list Q) : Prop :=
  StronglySorted Qlt L /\ (forall x, In x L -> In x window) /\ (length L <= k)%nat /\
  (forall y, In y window ->
     (exists x, In x L /\ (x == y)%Q) \/ (length L = k /\ forall x, In x L -> (x < y)%Q)).

(** [L] lists, strictly increasing, the [k] highest distinct values of
    [window] (all of them when there are fewer than [k]). *)
Definition highest_distinct (k : nat) (L window : list Q) : Prop :=
  StronglySorted Qlt L /\ (forall x, In x L -> In x window) /\ (length L <= k)%nat /\
  (forall y, In y window ->
     (exists x, In x L /\ (x == y)%Q) \/ (length L = k /\ forall x, In x L -> (y < x)%Q)).

(** *** Explanations *)

(** The last [days_back] points of the series (all of them if fewer). *)
Definition movement_window (s : list price_point) (days_back : Z) : list price_point :=
  lastn (Z.to_nat days_back) s.

(** The volume-spike ratio [analyze_price_movement] computes from integer
    volumes [vs]: the exact total over the count rounded to a double is the
    average; when it is positive, the ratio is the float quotient of the
    largest volume (as a float) by it, and 1 otherwise. *)
Definition int_spike_ratio (vs : list Z) : num :=
  let avg := D (inject_Z (fold_left Z.add vs 0%Z) / inject_Z (Z.of_nat (length vs)))%Q in
  if Qlt_bool 0 (dval avg)
  then NFloat (ddiv (D (inject_Z (fold_left Z.max vs (hd 0%Z vs)))) avg)
  else NInt 1.

(** The explanation is the volume-driven one (either polarity). *)
Definition volume_driven (a : alibi) : bool :=
  String.eqb (title a) bullish_title || String.eqb (title a) panic_title.

(** [b] may follow [a] in an explanation set: its confidence is not larger. *)
Definition conf_ge (a b : alibi) : Prop := (confidence b <= confidence a)%Z.

(** ** [app.py] *)

(** [run_prediction(ticker, horizon)] (lines 585-587): its body is [...]
    followed by [return output], and no [output] is bound locally, at module
    level or among the builtins, so the call raises [NameError]. *)
Definition run_prediction (ticker : string) (horizon : Z) : Exc pyval :=
  Raise (Exn "NameError" "name 'output' is not defined").

(** What the Streamlit page renders. *)
Inductive widget : Type :=
| PageConfig (page_title : string)
| Title (text : string)
| TextInput (label : string)
| Slider (label : string) (lo hi default : Z)
| Button (label : string)
| Warning (text : string)
| Spinner (text : string)
| Subheader (text : string)
| Write (v : pyval).

(** One run of [app.py], with the text entered, the slider value and whether
    the button was pressed in this run: the elements rendered, in order, and
    the exception that ends the script, if one escapes. The import of
    [stock_predictor_agent] on line 4, which builds the [Agent] at module
    level, is taken to succeed. *)
Definition app_page (ticker : string) (horizon : Z) (pressed : bool)
  : list widget * option exn :=
  let header :=
    [PageConfig "Stock Predictor Agent"; Title "📈 Stock Predictor Agent";
     TextInput "Enter stock ticker (ex: AAPL)";
     Slider "Prediction horizon (days)" 1 30 7; Button "Run Prediction"] in
  if pressed then
    if String.eqb ticker "" then ((header ++ [Warning "Please enter a ticker."])%list, None)
    else
      match run_prediction ticker horizon with
      | Raise e => ((header ++ [Spinner "Analyzing..."])%list, Some e)
      | Ok result =>
          ((header ++ [Spinner "Analyzing..."; Subheader "Prediction Result"; Write result])%list, None)
      end
  else (header, None).

(** A [json.loads] that reads a dict whose ["data"] is empty. *)
Definition empty_loads : string -> Exc pyval :=
  table_loads [("{}", PDict [("data", PList [])])].

(** ** Auxiliary definitions of the proofs *)

(** The exponent and the value of the double nearest to [a > 0] before
    overflow is taken into account (see [round_nz]). *)
Definition rnd_exp (a : Q) : Z := Z.max (qlog2 a - 52) (-1074).

Definition rnd_val (a : Q) : Q :=
  (inject_Z (round_half_even (a / 2 ^ rnd_exp a)) * 2 ^ rnd_exp a)%Q.

Definition xopp (x : xreal) : xreal :=
  match x with
  | XNInf => XPInf
  | XFin q => XFin (- q)
  | XPInf => XNInf
  end.

Definition xclamp (v : Q) : xreal := if Qle_bool (2 ^ 1024) v then XPInf else XFin v.

(** The value of the double nearest to [q]. *)
Definition rnd (q : Q) : xreal :=
  if Qeq_bool q 0 then XFin 0
  else if Qlt_bool q 0 then xopp (xclamp (rnd_val (Qabs q)))
  else xclamp (rnd_val (Qabs q)).

Definition xle (x y : xreal) : bool := negb (xltb y x).


Lemma Qlt_bool_iff (x y : Q) : Qlt_bool x y = true <-> (x < y)%Q.
Proof.
  unfold Qlt_bool. rewrite negb_true_iff. split; intro H.
  - apply Qnot_le_lt. intro H'. apply Qle_bool_iff in H'. congruence.
  - apply not_true_is_false. intro H'. apply Qle_bool_iff in H'.
    apply Qlt_not_le in H. contradiction.
Qed.

Lemma Qlt_bool_false (x y : Q) : Qlt_bool x y = false <-> (y <= x)%Q.
Proof.
  split; intro H.
  - apply Qnot_lt_le. intro H'. apply Qlt_bool_iff in H'. congruence.
  - apply not_true_is_false. intro H'. apply Qlt_bool_iff in H'. apply Qlt_not_le in H'. contradiction.
Qed.

Lemma Qlt_bool_comp (x x' y y' : Q) : (x == x')%Q -> (y == y')%Q -> Qlt_bool x y = Qlt_bool x' y'.
Proof.
  intros Hx Hy. destruct (Qlt_bool x y) eqn:E.
  - apply Qlt_bool_iff in E. symmetry. apply Qlt_bool_iff. rewrite <- Hx, <- Hy. exact E.
  - apply Qlt_bool_false in E. symmetry. apply Qlt_bool_false. rewrite <- Hx, <- Hy. exact E.
Qed.

Lemma Qle_bool_comp (x x' y y' : Q) : (x == x')%Q -> (y == y')%Q -> Qle_bool x y = Qle_bool x' y'.
Proof.
  intros Hx Hy. destruct (Qle_bool x y) eqn:E.
  - apply Qle_bool_iff in E. symmetry. apply Qle_bool_iff. rewrite <- Hx, <- Hy. exact E.
  - symmetry. apply not_true_is_false. intro H. apply Qle_bool_iff in H.
    rewrite <- Hx, <- Hy in H. apply Qle_bool_iff in H. congruence.
Qed.

Lemma Qeq_bool_comp (x x' y y' : Q) : (x == x')%Q -> (y == y')%Q -> Qeq_bool x y = Qeq_bool x' y'.
Proof.
  intros Hx Hy. destruct (Qeq_bool x y) eqn:E.
  - apply Qeq_bool_iff in E. symmetry. apply Qeq_bool_iff. rewrite <- Hx, <- Hy. exact E.
  - symmetry. apply not_true_is_false. intro H. apply Qeq_bool_iff in H.
    rewrite <- Hx, <- Hy in H. apply Qeq_bool_iff in H. congruence.
Qed.

Lemma inject_Z_nonzero (w : Z) : w <> 0 -> Qeq_bool (inject_Z w) 0 = false.
Proof.
  intro H. apply Bool.not_true_is_false. intro E. apply Qeq_bool_eq in E.
  unfold Qeq in E; simpl in E. lia.
Qed.

(** ** Rounding to an integer *)

Lemma round_half_even_bounds (x : Q) :
  Qfloor x <= round_half_even x <= Qfloor x + 1.
Proof.
  unfold round_half_even. cbv zeta.
  destruct (Qlt_bool _ _); [lia|]. destruct (Qlt_bool _ _); [lia|].
  destruct (Z.even _); lia.
Qed.

Lemma round_half_even_err (x : Q) :
  (Qabs (inject_Z (round_half_even x) - x) <= 1 # 2)%Q.
Proof.
  pose proof (Qfloor_le x) as H1. pose proof (Qlt_floor x) as H2.
  rewrite inject_Z_plus in H2. change (inject_Z 1) with 1%Q in H2.
  apply Qabs_Qle_condition.
  unfold round_half_even. cbv zeta.
  destruct (Qlt_bool (x - inject_Z (Qfloor x)) (1 # 2)) eqn:E1.
  { apply Qlt_bool_iff in E1. split; Lqa.lra. }
  destruct (Qlt_bool (1 # 2) (x - inject_Z (Qfloor x))) eqn:E2.
  { apply Qlt_bool_iff in E2. rewrite inject_Z_plus. change (inject_Z 1) with 1%Q. split; Lqa.lra. }
  apply Qlt_bool_false in E1. apply Qlt_bool_false in E2.
  destruct (Z.even _); [|rewrite inject_Z_plus; change (inject_Z 1) with 1%Q]; split; Lqa.lra.
Qed.

Lemma round_half_even_mono (x y : Q) : (x <= y)%Q -> round_half_even x <= round_half_even y.
Proof.
  intro Hxy. pose proof (Qfloor_resp_le x y Hxy) as Hf.
  pose proof (round_half_even_bounds x) as Bx. pose proof (round_half_even_bounds y) as By.
  destruct (Z.eq_dec (Qfloor x) (Qfloor y)) as [Ef|Ef]; [|lia].
  assert (Hr : (x - inject_Z (Qfloor x) <= y - inject_Z (Qfloor y))%Q)
    by (rewrite Ef; Lqa.lra).
  unfold round_half_even. cbv zeta. rewrite <- Ef.
  rewrite <- Ef in Hr.
  destruct (Qlt_bool (x - inject_Z (Qfloor x)) (1 # 2)) eqn:X1;
  [destruct (Qlt_bool (y - inject_Z (Qfloor x)) (1 # 2)); [lia|];
   destruct (Qlt_bool (1 # 2) _); [lia|]; destruct (Z.even _); lia|].
  destruct (Qlt_bool (1 # 2) (x - inject_Z (Qfloor x))) eqn:X2.
  - apply Qlt_bool_iff in X2.
    destruct (Qlt_bool (y - inject_Z (Qfloor x)) (1 # 2)) eqn:Y1.
    { apply Qlt_bool_iff in Y1. Lqa.lra. }
    destruct (Qlt_bool (1 # 2) (y - inject_Z (Qfloor x))) eqn:Y2; [lia|].
    exfalso. apply Qlt_bool_false in Y2. Lqa.lra.
  - destruct (Qlt_bool (y - inject_Z (Qfloor x)) (1 # 2)) eqn:Y1.
    { apply Qlt_bool_iff in Y1. exfalso. apply Qlt_bool_false in X1. Lqa.lra. }
    destruct (Qlt_bool (1 # 2) (y - inject_Z (Qfloor x))); [destruct (Z.even _); lia|].
    destruct (Z.even _); lia.
Qed.

Lemma round_half_even_comp (x y : Q) : (x == y)%Q -> round_half_even x = round_half_even y.
Proof.
  intro H. apply Z.le_antisymm; apply round_half_even_mono; rewrite H; apply Qle_refl.
Qed.

Lemma round_half_even_Z (z : Z) : round_half_even (inject_Z z) = z.
Proof.
  unfold round_half_even. cbv zeta. rewrite Qfloor_Z.
  replace (Qlt_bool (inject_Z z - inject_Z z) (1 # 2)) with true; [reflexivity|].
  symmetry. apply Qlt_bool_iff. Lqa.lra.
Qed.

Lemma round_half_even_nonneg (x : Q) : (0 <= x)%Q -> 0 <= round_half_even x.
Proof.
  intro H. pose proof (round_half_even_mono _ _ H) as M.
  assert (E : round_half_even 0 = 0) by exact (round_half_even_Z 0). lia.
Qed.

(** ** Powers of two *)

Lemma p2_nz : ~ (2 == 0)%Q.
Proof. intro H. discriminate H. Qed.

Lemma p2_pos (e : Z) : (0 < 2 ^ e)%Q.
Proof. apply Qpower_0_lt. reflexivity. Qed.

Lemma p2_plus (e f : Z) : (2 ^ (e + f) == 2 ^ e * 2 ^ f)%Q.
Proof. apply Qpower_plus, p2_nz. Qed.

Lemma p2_le (e f : Z) : e <= f -> (2 ^ e <= 2 ^ f)%Q.
Proof. intro H. apply Qpower_le_compat_l; [exact H | discriminate]. Qed.

Lemma p2_lt (e f : Z) : e < f -> (2 ^ e < 2 ^ f)%Q.
Proof. intro H. apply Qpower_lt_compat_l; [exact H | reflexivity]. Qed.

Lemma p2_le_inv (e f : Z) : (2 ^ e <= 2 ^ f)%Q -> e <= f.
Proof. intro H. apply (Qpower_le_compat_l_inv 2); [exact H | reflexivity]. Qed.

Lemma p2_Z (n : Z) : 0 <= n -> (2 ^ n == inject_Z (2 ^ n))%Q.
Proof. intro H. symmetry. apply (Zpower_Qpower 2 n H). Qed.

(** ** [qlog2] *)

Lemma qlog2_spec (q : Q) : (0 < q)%Q -> (2 ^ qlog2 q <= q < 2 ^ (qlog2 q + 1))%Q.
Proof.
  intro Hq. destruct q as [a b]. unfold qlog2. cbn [Qnum Qden].
  assert (Ha : 0 < a) by (unfold Qlt in Hq; simpl in Hq; lia).
  destruct (Z.log2_spec a Ha) as [A1 A2].
  destruct (Z.log2_spec (Zpos b) ltac:(lia)) as [B1 B2].
  pose proof (Z.log2_nonneg a) as La. pose proof (Z.log2_nonneg (Zpos b)) as Lb.
  set (la := Z.log2 a) in *. set (lb := Z.log2 (Zpos b)) in *.
  rewrite Z.pow_succ_r in A2, B2 by lia.
  assert (Eq : (a # b == inject_Z a / inject_Z (Zpos b))%Q) by (rewrite Qmake_Qdiv; reflexivity).
  assert (Hb : (0 < inject_Z (Zpos b))%Q) by (unfold Qlt; simpl; lia).
  assert (Qa1 : (2 ^ la <= inject_Z a)%Q) by (rewrite p2_Z by lia; rewrite <- Zle_Qle; exact A1).
  assert (Qa2 : (inject_Z a < 2 ^ (la + 1))%Q)
    by (rewrite p2_Z by lia; rewrite <- Zlt_Qlt; rewrite Z.pow_add_r by lia; lia).
  assert (Qb1 : (2 ^ lb <= inject_Z (Zpos b))%Q) by (rewrite p2_Z by lia; rewrite <- Zle_Qle; exact B1).
  assert (Qb2 : (inject_Z (Zpos b) < 2 ^ (lb + 1))%Q)
    by (rewrite p2_Z by lia; rewrite <- Zlt_Qlt; rewrite Z.pow_add_r by lia; lia).
  assert (Hlo : (2 ^ (la - lb - 1) < a # b)%Q).
  { rewrite Eq. apply Qlt_shift_div_l; [exact Hb|].
    apply Qlt_le_trans with (2 ^ (la - lb - 1) * 2 ^ (lb + 1))%Q.
    - apply Qmult_lt_l; [apply p2_pos | exact Qb2].
    - rewrite <- p2_plus. replace (la - lb - 1 + (lb + 1)) with la by lia. exact Qa1. }
  assert (Hhi : (a # b < 2 ^ (la - lb + 1))%Q).
  { rewrite Eq. apply Qlt_shift_div_r; [exact Hb|].
    apply Qlt_le_trans with (2 ^ (la + 1))%Q; [exact Qa2|].
    apply Qle_trans with (2 ^ (la - lb + 1) * 2 ^ lb)%Q.
    - rewrite <- p2_plus. replace (la - lb + 1 + lb) with (la + 1) by lia. apply Qle_refl.
    - apply Qmult_le_l; [apply p2_pos | exact Qb1]. }
  destruct (Qle_bool (2 ^ (la - lb)) (a # b)) eqn:E.
  - apply Qle_bool_iff in E. split; assumption.
  - split; [apply Qlt_le_weak, Hlo|].
    replace (la - lb - 1 + 1) with (la - lb) by lia.
    apply Qnot_le_lt. intro H. apply Qle_bool_iff in H. congruence.
Qed.

Lemma qlog2_unique (q : Q) (l : Z) :
  (2 ^ l <= q < 2 ^ (l + 1))%Q -> qlog2 q = l.
Proof.
  intros [H1 H2].
  assert (Hq : (0 < q)%Q) by (apply Qlt_le_trans with (2 ^ l)%Q; [apply p2_pos | exact H1]).
  destruct (qlog2_spec q Hq) as [S1 S2].
  destruct (Z.lt_trichotomy (qlog2 q) l) as [C|[C|C]]; [|exact C|].
  - exfalso. assert (T : (2 ^ (qlog2 q + 1) <= 2 ^ l)%Q) by (apply p2_le; lia).
    apply (Qlt_irrefl q). apply Qlt_le_trans with (2 ^ l)%Q; [|exact H1].
    apply Qlt_le_trans with (2 ^ (qlog2 q + 1))%Q; assumption.
  - exfalso. assert (T : (2 ^ (l + 1) <= 2 ^ qlog2 q)%Q) by (apply p2_le; lia).
    apply (Qlt_irrefl q). apply Qlt_le_trans with (2 ^ (l + 1))%Q; [exact H2|].
    apply Qle_trans with (2 ^ qlog2 q)%Q; assumption.
Qed.

Lemma qlog2_comp (q r : Q) : (0 < q)%Q -> (q == r)%Q -> qlog2 q = qlog2 r.
Proof.
  intros Hq E. symmetry. apply qlog2_unique. rewrite <- E. apply qlog2_spec, Hq.
Qed.

Lemma qlog2_mono (q r : Q) : (0 < q)%Q -> (q <= r)%Q -> qlog2 q <= qlog2 r.
Proof.
  intros Hq E.
  assert (Hr : (0 < r)%Q) by (apply Qlt_le_trans with q; assumption).
  destruct (qlog2_spec q Hq) as [S1 _]. destruct (qlog2_spec r Hr) as [_ T2].
  assert (H : (2 ^ qlog2 q < 2 ^ (qlog2 r + 1))%Q).
  { apply Qle_lt_trans with q; [exact S1|]. apply Qle_lt_trans with r; assumption. }
  destruct (Z.le_gt_cases (qlog2 q) (qlog2 r)) as [C|C]; [exact C|].
  exfalso. assert (T : (2 ^ (qlog2 r + 1) <= 2 ^ qlog2 q)%Q) by (apply p2_le; lia).
  apply (Qlt_irrefl (2 ^ qlog2 q)%Q). apply Qlt_le_trans with (2 ^ (qlog2 r + 1))%Q; assumption.
Qed.

Lemma qlog2_p2 (m : positive) (e : Z) :
  qlog2 (inject_Z (Zpos m) * 2 ^ e)%Q = Z.log2 (Zpos m) + e.
Proof.
  apply qlog2_unique.
  destruct (Z.log2_spec (Zpos m) ltac:(lia)) as [A1 A2].
  pose proof (Z.log2_nonneg (Zpos m)) as L.
  rewrite Z.pow_succ_r in A2 by lia.
  rewrite !p2_plus. split.
  - apply Qmult_le_r; [apply p2_pos|]. rewrite p2_Z by lia. rewrite <- Zle_Qle. exact A1.
  - rewrite <- (Qmult_comm (2 ^ 1)%Q), Qmult_assoc, <- p2_plus.
    apply Qmult_lt_r; [apply p2_pos|]. rewrite p2_Z by lia. rewrite <- Zlt_Qlt.
    rewrite Z.pow_add_r by lia. lia.
Qed.

(** ** The extended reals *)

Lemma xeqb_refl (x : xreal) : xeqb x x = true.
Proof. destruct x; simpl; try reflexivity. apply Qeq_bool_iff. reflexivity. Qed.

Lemma xle_fin (a b : Q) : xle (XFin a) (XFin b) = true <-> (a <= b)%Q.
Proof. unfold xle; simpl. rewrite negb_true_iff. apply Qlt_bool_false. Qed.

Lemma xle_comp (x x' y y' : xreal) :
  xeqb x x' = true -> xeqb y y' = true -> xle x y = xle x' y'.
Proof.
  intros Hx Hy. destruct x, x'; try discriminate; destruct y, y'; try discriminate;
    unfold xle; simpl; try reflexivity.
  all: try (apply Qeq_bool_iff in Hx); try (apply Qeq_bool_iff in Hy).
  f_equal. apply Qlt_bool_comp; assumption.
Qed.

Lemma xle_trans (x y z : xreal) : xle x y = true -> xle y z = true -> xle x z = true.
Proof.
  destruct x, y, z; unfold xle; simpl; try discriminate; try reflexivity.
  rewrite !negb_true_iff, !Qlt_bool_false. intros. apply Qle_trans with q0; assumption.
Qed.

Lemma xle_refl (x : xreal) : xle x x = true.
Proof. destruct x; unfold xle; simpl; try reflexivity. rewrite negb_true_iff, Qlt_bool_false. apply Qle_refl. Qed.

Lemma xle_opp (x y : xreal) : xle (xopp x) (xopp y) = xle y x.
Proof.
  destruct x, y; unfold xle; simpl; try reflexivity. f_equal.
  destruct (Qlt_bool q q0) eqn:E.
  - apply Qlt_bool_iff in E. apply Qlt_bool_iff. Lqa.lra.
  - apply Qlt_bool_false in E. apply Qlt_bool_false. Lqa.lra.
Qed.

Lemma xle_clamp (v w : Q) : (v <= w)%Q -> xle (xclamp v) (xclamp w) = true.
Proof.
  intro H. unfold xclamp.
  destruct (Qle_bool (2 ^ 1024) w) eqn:Ew; [destruct (Qle_bool _ v); reflexivity|].
  destruct (Qle_bool (2 ^ 1024) v) eqn:Ev.
  - apply Qle_bool_iff in Ev. exfalso.
    assert (T : Qle_bool (2 ^ 1024) w = true) by (apply Qle_bool_iff; apply Qle_trans with v; assumption).
    congruence.
  - apply xle_fin, H.
Qed.

(** ** The nearest double *)

Lemma Qdiv_p2_mul (a : Q) (e : Z) : (a / 2 ^ e * 2 ^ e == a)%Q.
Proof. field. apply Qpower_not_0, p2_nz. Qed.

Lemma rnd_exp_mono (a b : Q) : (0 < a)%Q -> (a <= b)%Q -> rnd_exp a <= rnd_exp b.
Proof. intros Ha H. unfold rnd_exp. pose proof (qlog2_mono a b Ha H). lia. Qed.

Lemma rnd_exp_comp (a b : Q) : (0 < a)%Q -> (a == b)%Q -> rnd_exp a = rnd_exp b.
Proof. intros Ha H. unfold rnd_exp. rewrite (qlog2_comp a b Ha H). reflexivity. Qed.

Lemma rnd_val_comp (a b : Q) : (0 < a)%Q -> (a == b)%Q -> (rnd_val a == rnd_val b)%Q.
Proof.
  intros Ha H. unfold rnd_val. rewrite (rnd_exp_comp a b Ha H).
  rewrite (round_half_even_comp (a / 2 ^ rnd_exp b) (b / 2 ^ rnd_exp b)); [reflexivity|].
  rewrite H. reflexivity.
Qed.

Lemma Qdiv_p2_le (a b : Q) (e : Z) : (a <= b)%Q -> (a / 2 ^ e <= b / 2 ^ e)%Q.
Proof.
  intro H. unfold Qdiv. apply Qmult_le_compat_r; [exact H|].
  apply Qlt_le_weak, Qinv_lt_0_compat, p2_pos.
Qed.

Lemma rnd_val_nonneg (a : Q) : (0 <= a)%Q -> (0 <= rnd_val a)%Q.
Proof.
  intro H. unfold rnd_val. apply Qmult_le_0_compat; [|apply Qlt_le_weak, p2_pos].
  change 0%Q with (inject_Z 0). rewrite <- Zle_Qle. apply round_half_even_nonneg.
  apply Qle_trans with (0 / 2 ^ rnd_exp a)%Q;
    [unfold Qdiv; rewrite Qmult_0_l; apply Qle_refl | apply Qdiv_p2_le, H].
Qed.

Lemma rnd_val_mono (a b : Q) : (0 < a)%Q -> (a <= b)%Q -> (rnd_val a <= rnd_val b)%Q.
Proof.
  intros Ha H.
  assert (Hb : (0 < b)%Q) by (apply Qlt_le_trans with a; assumption).
  pose proof (rnd_exp_mono a b Ha H) as Hm.
  unfold rnd_val. set (E1 := rnd_exp a) in *. set (E2 := rnd_exp b) in *.
  destruct (Z.eq_dec E1 E2) as [Ee|Ne].
  - rewrite Ee. apply Qmult_le_compat_r; [|apply Qlt_le_weak, p2_pos].
    rewrite <- Zle_Qle. apply round_half_even_mono, Qdiv_p2_le, H.
  - assert (Lt : E1 + 1 <= E2) by lia.
    assert (E2d : E2 = qlog2 b - 52) by (unfold E2, rnd_exp in *; lia).
    assert (E1d : qlog2 a - 52 <= E1) by (unfold E1, rnd_exp; lia).
    destruct (qlog2_spec a Ha) as [_ A2]. destruct (qlog2_spec b Hb) as [B1 _].
    apply Qle_trans with (2 ^ (E1 + 53))%Q.
    + rewrite p2_plus, (Qmult_comm (2 ^ E1)%Q). apply Qmult_le_compat_r; [|apply Qlt_le_weak, p2_pos].
      rewrite (p2_Z 53) by lia. rewrite <- Zle_Qle.
      rewrite <- (round_half_even_Z (2 ^ 53)). apply round_half_even_mono.
      rewrite <- (p2_Z 53) by lia.
      apply Qle_shift_div_r; [apply p2_pos|]. rewrite <- p2_plus.
      apply Qlt_le_weak. apply Qlt_le_trans with (2 ^ (qlog2 a + 1))%Q; [exact A2|].
      apply p2_le. lia.
    + apply Qle_trans with (2 ^ (E2 + 52))%Q; [apply p2_le; lia|].
      rewrite p2_plus, (Qmult_comm (2 ^ E2)%Q). apply Qmult_le_compat_r; [|apply Qlt_le_weak, p2_pos].
      rewrite (p2_Z 52) by lia. rewrite <- Zle_Qle.
      rewrite <- (round_half_even_Z (2 ^ 52)) at 1. apply round_half_even_mono.
      rewrite <- (p2_Z 52) by lia.
      apply Qle_shift_div_l; [apply p2_pos|]. rewrite <- p2_plus.
      replace (52 + E2) with (qlog2 b) by lia. exact B1.
Qed.

Lemma rnd_val_exact (m : positive) (e : Z) :
  Zpos m < 2 ^ 53 -> -1074 <= e ->
  (rnd_val (inject_Z (Zpos m) * 2 ^ e) == inject_Z (Zpos m) * 2 ^ e)%Q.
Proof.
  intros Hm He. unfold rnd_val, rnd_exp. rewrite qlog2_p2.
  assert (L : Z.log2 (Zpos m) <= 52).
  { apply Z.lt_succ_r. apply Z.log2_lt_pow2; [lia|]. exact Hm. }
  set (E := Z.max (Z.log2 (Zpos m) + e - 52) (-1074)).
  assert (HE : E <= e) by (unfold E; lia).
  assert (Q1 : (inject_Z (Zpos m) * 2 ^ e / 2 ^ E == inject_Z (Zpos m * 2 ^ (e - E)))%Q).
  { rewrite inject_Z_mult, <- p2_Z by lia.
    replace e with ((e - E) + E) at 1 by lia. rewrite p2_plus. field. apply Qpower_not_0, p2_nz. }
  rewrite (round_half_even_comp _ _ Q1), round_half_even_Z.
  rewrite inject_Z_mult, <- p2_Z by lia. rewrite <- Qmult_assoc, <- p2_plus.
  replace (e - E + E) with e by lia. reflexivity.
Qed.

Lemma Qabs_pos_nz (q : Q) : Qeq_bool q 0 = false -> (0 < Qabs q)%Q.
Proof.
  intro E. destruct q as [n d]. unfold Qlt. simpl.
  assert (n <> 0) by (intro; subst; discriminate E). lia.
Qed.

Lemma xeqb_fin (a b : Q) : (a == b)%Q -> xeqb (XFin a) (XFin b) = true.
Proof. intro H. simpl. apply Qeq_bool_iff, H. Qed.

Lemma round_nz_rnd (q : Q) :
  Qeq_bool q 0 = false -> exists x, dx (round_nz q) = Some x /\ xeqb x (rnd q) = true.
Proof.
  intro E0. pose proof (Qabs_pos_nz q E0) as Ha.
  unfold round_nz, rnd. rewrite E0.
  fold (rnd_exp (Qabs q)). set (e := rnd_exp (Qabs q)).
  assert (Hv : rnd_val (Qabs q) = (inject_Z (round_half_even (Qabs q / 2 ^ e)) * 2 ^ e)%Q) by reflexivity.
  set (m := round_half_even (Qabs q / 2 ^ e)) in *.
  assert (Hm : 0 <= m).
  { apply round_half_even_nonneg. apply Qle_trans with (0 / 2 ^ e)%Q;
      [unfold Qdiv; rewrite Qmult_0_l; apply Qle_refl | apply Qdiv_p2_le, Qlt_le_weak, Ha]. }
  unfold xclamp. rewrite Hv.
  assert (K : forall e', (inject_Z (Zpos (2 ^ 52)) * 2 ^ (e' + 1) == inject_Z (2 ^ 53) * 2 ^ e')%Q).
  { intro e'. rewrite p2_plus.
    change (inject_Z (2 ^ 53)) with (inject_Z (Zpos (2 ^ 52)) * 2)%Q.
    change (2 ^ 1)%Q with 2%Q. ring. }
  destruct (m =? 0) eqn:Em.
  - apply Z.eqb_eq in Em. rewrite Em.
    replace (Qle_bool (2 ^ 1024) (inject_Z 0 * 2 ^ e)) with false.
    2:{ symmetry. apply not_true_is_false. intro H. apply Qle_bool_iff in H.
        rewrite Qmult_0_l in H. pose proof (p2_pos 1024). Lqa.lra. }
    eexists. split; [reflexivity|].
    destruct (Qlt_bool q 0); apply xeqb_fin; simpl; ring.
  - destruct (Qle_bool (2 ^ 1024) (inject_Z m * 2 ^ e)) eqn:Eo.
    + destruct (Qlt_bool q 0); eexists; (split; [reflexivity | reflexivity]).
    + destruct (m =? 2 ^ 53) eqn:E53.
      * apply Z.eqb_eq in E53. rewrite E53. eexists. split; [reflexivity|].
        destruct (Qlt_bool q 0); simpl xopp; apply xeqb_fin; unfold dval, signed; rewrite K;
          reflexivity.
      * apply Z.eqb_neq in Em. eexists. split; [reflexivity|].
        unfold dval, signed. rewrite Z2Pos.id by lia.
        destruct (Qlt_bool q 0); simpl xopp; apply xeqb_fin; reflexivity.
Qed.

Lemma dround_rnd (s : bool) (q : Q) :
  exists x, dx (dround s q) = Some x /\ xeqb x (rnd q) = true.
Proof.
  unfold dround. destruct (Qeq_bool q 0) eqn:E0.
  - exists (XFin 0). split; [reflexivity|]. unfold rnd. rewrite E0. apply xeqb_refl.
  - apply round_nz_rnd, E0.
Qed.

Lemma xle_zero_clamp (v : Q) : (0 <= v)%Q -> xle (XFin 0) (xclamp v) = true.
Proof.
  intro H. unfold xclamp. destruct (Qle_bool _ _); [reflexivity|]. apply xle_fin, H.
Qed.

Lemma xle_opp_clamp_zero (v : Q) : (0 <= v)%Q -> xle (xopp (xclamp v)) (XFin 0) = true.
Proof.
  intro H. unfold xclamp. destruct (Qle_bool _ _); [reflexivity|]. simpl xopp.
  apply xle_fin. Lqa.lra.
Qed.

Lemma Qeq_bool_false_lt (q : Q) :
  Qeq_bool q 0 = false -> Qlt_bool q 0 = false -> (0 < q)%Q.
Proof.
  intros E L. apply Qlt_bool_false in L. apply Qle_lt_or_eq in L as [L|L]; [exact L|].
  exfalso. symmetry in L. apply Qeq_bool_iff in L. congruence.
Qed.

Lemma rnd_mono (q1 q2 : Q) : (q1 <= q2)%Q -> xle (rnd q1) (rnd q2) = true.
Proof.
  intro H. unfold rnd.
  destruct (Qeq_bool q1 0) eqn:Z1; destruct (Qlt_bool q1 0) eqn:N1;
  destruct (Qeq_bool q2 0) eqn:Z2; destruct (Qlt_bool q2 0) eqn:N2;
  try apply xle_refl.
  all: try (apply Qeq_bool_iff in Z1); try (apply Qeq_bool_iff in Z2);
       try (apply Qlt_bool_iff in N1); try (apply Qlt_bool_iff in N2);
       try (apply Qlt_bool_false in N1); try (apply Qlt_bool_false in N2).
  all: try (exfalso; Lqa.lra).
  all: try (apply xle_zero_clamp, rnd_val_nonneg, Qabs_nonneg).
  all: try (apply xle_opp_clamp_zero, rnd_val_nonneg, Qabs_nonneg).
  all: first
    [ apply xle_trans with (XFin 0);
        [apply xle_opp_clamp_zero | apply xle_zero_clamp]; apply rnd_val_nonneg, Qabs_nonneg
    | rewrite xle_opp; apply xle_clamp; apply rnd_val_mono;
        [apply Qabs_pos_nz; exact Z2 | rewrite !Qabs_neg by Lqa.lra; Lqa.lra]
    | apply xle_clamp; apply rnd_val_mono;
        [apply Qabs_pos_nz; exact Z1 | rewrite !Qabs_pos by Lqa.lra; exact H]
    | exfalso; apply Qeq_bool_false_lt in Z1; [Lqa.lra | apply Qlt_bool_false; assumption] ].
Qed.

Lemma xeqb_sym (x y : xreal) : xeqb x y = xeqb y x.
Proof.
  destruct x, y; simpl; try reflexivity.
  destruct (Qeq_bool q q0) eqn:E.
  - apply Qeq_bool_iff in E. symmetry. apply Qeq_bool_iff. symmetry. exact E.
  - symmetry. apply not_true_is_false. intro F. apply Qeq_bool_iff in F. symmetry in F.
    apply Qeq_bool_iff in F. congruence.
Qed.

Lemma xeqb_trans (x y z : xreal) : xeqb x y = true -> xeqb y z = true -> xeqb x z = true.
Proof.
  destruct x, y, z; simpl; try discriminate; try reflexivity.
  rewrite !Qeq_bool_iff. intros A B. rewrite A. exact B.
Qed.

Lemma xle_comp_l (x x' y : xreal) : xeqb x x' = true -> xle x y = xle x' y.
Proof. intro H. apply xle_comp; [exact H | apply xeqb_refl]. Qed.

Lemma xle_comp_r (x y y' : xreal) : xeqb y y' = true -> xle x y = xle x y'.
Proof. intro H. apply xle_comp; [apply xeqb_refl | exact H]. Qed.

Lemma xclamp_comp (v w : Q) : (v == w)%Q -> xeqb (xclamp v) (xclamp w) = true.
Proof.
  intro H. unfold xclamp. rewrite (Qle_bool_comp (2 ^ 1024) (2 ^ 1024) v w (Qeq_refl _) H).
  destruct (Qle_bool _ w); [reflexivity | apply xeqb_fin, H].
Qed.

Lemma xopp_comp (x y : xreal) : xeqb x y = true -> xeqb (xopp x) (xopp y) = true.
Proof.
  destruct x, y; simpl; try discriminate; try reflexivity.
  rewrite !Qeq_bool_iff. intro H. rewrite H. reflexivity.
Qed.

Lemma xclamp_fin (v : Q) : (v < 2 ^ 1024)%Q -> xclamp v = XFin v.
Proof.
  intro H. unfold xclamp. replace (Qle_bool (2 ^ 1024) v) with false; [reflexivity|].
  symmetry. apply not_true_is_false. intro E. apply Qle_bool_iff in E. Lqa.lra.
Qed.

Lemma rnd_comp (q r : Q) : (q == r)%Q -> xeqb (rnd q) (rnd r) = true.
Proof.
  intro H. unfold rnd.
  rewrite (Qeq_bool_comp q r 0 0 H (Qeq_refl _)), (Qlt_bool_comp q r 0 0 H (Qeq_refl _)).
  destruct (Qeq_bool r 0) eqn:E0; [reflexivity|].
  assert (Hq : Qeq_bool q 0 = false) by (rewrite (Qeq_bool_comp q r 0 0 H (Qeq_refl _)); exact E0).
  assert (Hv : (rnd_val (Qabs q) == rnd_val (Qabs r))%Q)
    by (apply rnd_val_comp; [apply Qabs_pos_nz, Hq | apply Qabs_wd, H]).
  destruct (Qlt_bool r 0); [apply xopp_comp|]; apply xclamp_comp, Hv.
Qed.

Lemma round_nz_comp (q r : Q) : Qeq_bool q 0 = false -> (q == r)%Q -> round_nz q = round_nz r.
Proof.
  intros E H. unfold round_nz. cbv zeta.
  rewrite (Qlt_bool_comp q r 0 0 H (Qeq_refl 0)).
  assert (Ha : (Qabs q == Qabs r)%Q) by (apply Qabs_wd, H).
  fold (rnd_exp (Qabs q)). fold (rnd_exp (Qabs r)).
  rewrite (rnd_exp_comp _ _ (Qabs_pos_nz q E) Ha).
  rewrite (round_half_even_comp (Qabs q / 2 ^ rnd_exp (Qabs r)) (Qabs r / 2 ^ rnd_exp (Qabs r)))
    by (rewrite Ha; reflexivity).
  reflexivity.
Qed.

Lemma dround_comp (s : bool) (q r : Q) : (q == r)%Q -> dround s q = dround s r.
Proof.
  intro H. unfold dround. rewrite (Qeq_bool_comp q r 0 0 H (Qeq_refl _)).
  destruct (Qeq_bool r 0) eqn:E; [reflexivity|].
  apply round_nz_comp; [|exact H]. rewrite (Qeq_bool_comp q r 0 0 H (Qeq_refl _)). exact E.
Qed.

Lemma rnd_exact (s : bool) (m : positive) (e : Z) :
  Zpos m < 2 ^ 53 -> -1074 <= e <= 971 ->
  xeqb (rnd (signed s (inject_Z (Zpos m) * 2 ^ e))) (XFin (signed s (inject_Z (Zpos m) * 2 ^ e))) = true.
Proof.
  intros Hm He. set (v := (inject_Z (Zpos m) * 2 ^ e)%Q).
  assert (Hv : (0 < v)%Q) by (apply Qmult_lt_0_compat; [reflexivity | apply p2_pos]).
  assert (Hb : (v < 2 ^ 1024)%Q).
  { unfold v. apply Qlt_le_trans with (inject_Z (2 ^ 53) * 2 ^ e)%Q.
    - apply Qmult_lt_r; [apply p2_pos|]. rewrite <- Zlt_Qlt. exact Hm.
    - rewrite <- (p2_Z 53) by lia. rewrite <- p2_plus. apply p2_le. lia. }
  assert (Hx : (rnd_val v == v)%Q) by (apply rnd_val_exact; lia).
  unfold rnd, signed. destruct s.
  - replace (Qeq_bool (- v) 0) with false
      by (symmetry; apply not_true_is_false; intro E; apply Qeq_bool_iff in E; Lqa.lra).
    replace (Qlt_bool (- v) 0) with true by (symmetry; apply Qlt_bool_iff; Lqa.lra).
    assert (Ha : (Qabs (- v) == v)%Q) by (rewrite Qabs_opp; apply Qabs_pos; Lqa.lra).
    apply xeqb_trans with (xopp (xclamp v)).
    + apply xopp_comp, xclamp_comp. rewrite (rnd_val_comp _ _ (Qabs_pos_nz (- v) ltac:(apply not_true_is_false; intro E; apply Qeq_bool_iff in E; Lqa.lra)) Ha). exact Hx.
    + rewrite xclamp_fin by exact Hb. apply xeqb_refl.
  - replace (Qeq_bool v 0) with false
      by (symmetry; apply not_true_is_false; intro E; apply Qeq_bool_iff in E; Lqa.lra).
    replace (Qlt_bool v 0) with false by (symmetry; apply Qlt_bool_false; Lqa.lra).
    assert (Ha : (Qabs v == v)%Q) by (apply Qabs_pos; Lqa.lra).
    apply xeqb_trans with (xclamp v).
    + apply xclamp_comp. rewrite (rnd_val_comp _ _ (Qabs_pos_nz v ltac:(apply not_true_is_false; intro E; apply Qeq_bool_iff in E; Lqa.lra)) Ha). exact Hx.
    + rewrite xclamp_fin by exact Hb. apply xeqb_refl.
Qed.

Lemma rnd_zero : rnd 0 = XFin 0.
Proof. reflexivity. Qed.

Lemma rnd_valid (d : double) :
  dfinite d = true -> dvalid d = true -> xeqb (rnd (dval d)) (XFin (dval d)) = true.
Proof.
  destruct d as [s|s m e|s|]; simpl; try discriminate; intros _ V.
  - reflexivity.
  - apply andb_prop in V as [V V4]. apply andb_prop in V as [V V3]. apply andb_prop in V as [V1 V2].
    apply Z.ltb_lt in V1. apply Z.leb_le in V2. apply Z.leb_le in V3.
    apply rnd_exact; lia.
Qed.

Lemma rnd_int (z : Z) : Z.abs z <= 2 ^ 53 -> xeqb (rnd (inject_Z z)) (XFin (inject_Z z)) = true.
Proof.
  intro Hz.
  destruct (Z.eq_dec z 0) as [->|Hn0]; [reflexivity|].
  assert (Hrep : exists s m e, Zpos m < 2 ^ 53 /\ -1074 <= e <= 971 /\
                   (inject_Z z == signed s (inject_Z (Zpos m) * 2 ^ e))%Q).
  { destruct (Z.eq_dec (Z.abs z) (2 ^ 53)) as [E|E].
    - exists (z <? 0), (2 ^ 52)%positive, 1. split; [reflexivity|]. split; [lia|].
      unfold signed. change (inject_Z (Zpos (2 ^ 52)) * 2 ^ 1)%Q with (inject_Z (2 ^ 53)).
      destruct (Z.ltb_spec z 0).
      + replace z with (- 2 ^ 53) by lia. rewrite inject_Z_opp. reflexivity.
      + replace z with (2 ^ 53) by lia. reflexivity.
    - exists (z <? 0), (Z.to_pos (Z.abs z)), 0. split; [lia|]. split; [lia|].
      unfold signed. rewrite Z2Pos.id by lia. change (2 ^ 0)%Q with 1%Q.
      destruct (Z.ltb_spec z 0); cbv iota; rewrite Qmult_1_r.
      + rewrite <- inject_Z_opp. replace (- Z.abs z) with z by lia. reflexivity.
      + replace (Z.abs z) with z by lia. reflexivity. }
  destruct Hrep as (s & m & e & Hm & He & Eq).
  apply xeqb_trans with (rnd (signed s (inject_Z (Zpos m) * 2 ^ e))); [apply rnd_comp, Eq|].
  apply xeqb_trans with (XFin (signed s (inject_Z (Zpos m) * 2 ^ e))); [apply rnd_exact; assumption|].
  apply xeqb_fin. symmetry. exact Eq.
Qed.

(** ** Rounding to two decimals *)

Lemma round2_mono (q r : Q) : (q <= r)%Q -> (round2 q <= round2 r)%Q.
Proof.
  intro H. unfold round2.
  assert (Hz : (inject_Z (round_half_even (q * 100)) <= inject_Z (round_half_even (r * 100)))%Q).
  { rewrite <- Zle_Qle. apply round_half_even_mono. apply Qmult_le_compat_r; [exact H | discriminate]. }
  apply Qmult_le_compat_r; [exact Hz | discriminate].
Qed.

Lemma round2_comp (q r : Q) : (q == r)%Q -> (round2 q == round2 r)%Q.
Proof. intro H. apply Qle_antisym; apply round2_mono; rewrite H; apply Qle_refl. Qed.

Lemma round2_int (k : Z) : (round2 (inject_Z k) == inject_Z k)%Q.
Proof.
  unfold round2. rewrite (round_half_even_comp _ (inject_Z (k * 100))) by (rewrite inject_Z_mult; reflexivity).
  rewrite round_half_even_Z, inject_Z_mult. field.
Qed.

Lemma round2_double_rnd (d : double) :
  dfinite d = true -> exists x, dx (round2_double d) = Some x /\ xeqb x (rnd (round2 (dval d))) = true.
Proof.
  destruct d as [s|s m e|s|]; simpl; try discriminate; intros _.
  - exists (XFin 0). split; [reflexivity|]. vm_compute. reflexivity.
  - apply dround_rnd.
Qed.

Lemma valid_big_int (d : double) :
  dfinite d = true -> dvalid d = true -> (2 ^ 52 <= Qabs (dval d))%Q ->
  exists k, (dval d == inject_Z k)%Q.
Proof.
  destruct d as [s|s m e|s|]; simpl; try discriminate; intros _ V H.
  - exists 0. reflexivity.
  - apply andb_prop in V as [V V4]. apply andb_prop in V as [V V3]. apply andb_prop in V as [V1 V2].
    apply Z.ltb_lt in V1.
    destruct (Z.le_gt_cases 0 e) as [He|He].
    + exists (if s then - (Zpos m * 2 ^ e) else Zpos m * 2 ^ e).
      destruct s; unfold signed; [rewrite inject_Z_opp|]; rewrite inject_Z_mult, <- (p2_Z e He); reflexivity.
    + exfalso. assert (A : (Qabs (signed s (inject_Z (Zpos m) * 2 ^ e)) < 2 ^ 52)%Q).
      { assert (E : (Qabs (signed s (inject_Z (Zpos m) * 2 ^ e)) == inject_Z (Zpos m) * 2 ^ e)%Q).
        { unfold signed. destruct s; [rewrite Qabs_opp|]; apply Qabs_pos;
            apply Qmult_le_0_compat; [discriminate | apply Qlt_le_weak, p2_pos | discriminate | apply Qlt_le_weak, p2_pos]. }
        rewrite E. apply Qle_lt_trans with (inject_Z (Zpos m) * 2 ^ (-1))%Q.
        - apply Qmult_le_l; [reflexivity|]. apply p2_le. lia.
        - apply Qlt_le_trans with (inject_Z (2 ^ 53) * 2 ^ (-1))%Q.
          + apply Qmult_lt_r; [apply p2_pos|]. rewrite <- Zlt_Qlt. exact V1.
          + rewrite <- (p2_Z 53) by lia. rewrite <- p2_plus. apply Qle_refl. }
      Lqa.lra.
Qed.

Lemma rnd_round2_big (d : double) :
  dfinite d = true -> dvalid d = true -> (2 ^ 52 <= Qabs (dval d))%Q ->
  xeqb (rnd (round2 (dval d))) (XFin (dval d)) = true.
Proof.
  intros F V H. destruct (valid_big_int d F V H) as [k Hk].
  apply xeqb_trans with (rnd (dval d)); [|apply rnd_valid; assumption].
  apply rnd_comp. rewrite (round2_comp _ _ Hk), round2_int, Hk. reflexivity.
Qed.

Lemma rnd_round2_int (z : Z) : Z.abs z <= 2 ^ 53 -> xeqb (rnd (round2 (inject_Z z))) (XFin (inject_Z z)) = true.
Proof.
  intro H. apply xeqb_trans with (rnd (inject_Z z)); [apply rnd_comp, round2_int | apply rnd_int, H].
Qed.

Lemma num_round2_float (d : double) :
  num_ok (NFloat d) = true ->
  exists x, nx (num_round2 (NFloat d)) = Some x /\ xeqb x (rnd (round2 (dval d))) = true.
Proof.
  simpl. intro H. apply andb_prop in H as [F _]. apply round2_double_rnd, F.
Qed.

Lemma Qabs_lt_split (q c : Q) : (Qabs q < c)%Q -> (- c < q /\ q < c)%Q.
Proof. intro H. apply Qabs_Qlt_condition in H. exact H. Qed.

Lemma num_leb_some (a b : num) (x y : xreal) :
  nx a = Some x -> nx b = Some y -> num_leb a b = xle x y.
Proof. intros A B. unfold num_leb. rewrite A, B. reflexivity. Qed.

(** [round(., 2)] is monotone on finite numbers. *)
Lemma num_round2_mono (a b : num) :
  num_ok a = true -> num_ok b = true -> (nval a <= nval b)%Q ->
  num_leb (num_round2 a) (num_round2 b) = true.
Proof.
  intros Ha Hb H.
  assert (P52 : (2 ^ 52 == inject_Z (2 ^ 52))%Q) by (apply p2_Z; lia).
  assert (X52 : xeqb (rnd (round2 (inject_Z (2 ^ 52)))) (XFin (inject_Z (2 ^ 52))) = true)
    by (apply rnd_round2_int; lia).
  assert (X52' : xeqb (rnd (round2 (inject_Z (- 2 ^ 52)))) (XFin (inject_Z (- 2 ^ 52))) = true)
    by (apply rnd_round2_int; lia).
  destruct a as [z1|d1], b as [z2|d2]; simpl in H.
  - rewrite (num_leb_some (num_round2 (NInt z1)) (num_round2 (NInt z2)) (XFin (inject_Z z1)) (XFin (inject_Z z2)) eq_refl eq_refl). apply (xle_fin (inject_Z z1) (inject_Z z2)), H.
  - destruct (num_round2_float d2 Hb) as (x2 & E2 & X2). rewrite (num_leb_some (num_round2 (NInt z1)) _ (XFin (inject_Z z1)) _ eq_refl E2).
    rewrite (xle_comp_r _ _ _ X2).
    destruct (Z_le_gt_dec (Z.abs z1) (2 ^ 53)) as [B|B].
    + rewrite <- (xle_comp_l _ _ _ (rnd_round2_int z1 B)). apply rnd_mono, round2_mono, H.
    + simpl in Hb. apply andb_prop in Hb as [F2 V2].
      destruct (Qlt_le_dec (Qabs (dval d2)) (2 ^ 52)) as [S|S].
      * apply Qabs_lt_split in S.
        assert (Z1 : z1 < 2 ^ 52) by (rewrite Zlt_Qlt, <- P52; Lqa.lra).
        apply xle_trans with (XFin (inject_Z (- 2 ^ 52))).
        -- apply xle_fin. rewrite <- Zle_Qle. lia.
        -- rewrite <- (xle_comp_l _ _ _ X52'). apply rnd_mono, round2_mono.
           rewrite inject_Z_opp, <- P52. Lqa.lra.
      * rewrite (xle_comp_r _ _ _ (rnd_round2_big d2 F2 V2 S)). apply xle_fin, H.
  - destruct (num_round2_float d1 Ha) as (x1 & E1 & X1). rewrite (num_leb_some _ (num_round2 (NInt z2)) _ (XFin (inject_Z z2)) E1 eq_refl).
    rewrite (xle_comp_l _ _ _ X1).
    destruct (Z_le_gt_dec (Z.abs z2) (2 ^ 53)) as [B|B].
    + rewrite <- (xle_comp_r _ _ _ (rnd_round2_int z2 B)). apply rnd_mono, round2_mono, H.
    + simpl in Ha. apply andb_prop in Ha as [F1 V1].
      destruct (Qlt_le_dec (Qabs (dval d1)) (2 ^ 52)) as [S|S].
      * apply Qabs_lt_split in S.
        assert (Z2 : - 2 ^ 52 < z2) by (rewrite Zlt_Qlt, inject_Z_opp, <- P52; Lqa.lra).
        apply xle_trans with (XFin (inject_Z (2 ^ 52))).
        -- rewrite <- (xle_comp_r _ _ _ X52). apply rnd_mono, round2_mono.
           rewrite <- P52. Lqa.lra.
        -- apply xle_fin. rewrite <- Zle_Qle. lia.
      * rewrite (xle_comp_l _ _ _ (rnd_round2_big d1 F1 V1 S)). apply xle_fin, H.
  - destruct (num_round2_float d1 Ha) as (x1 & E1 & X1).
    destruct (num_round2_float d2 Hb) as (x2 & E2 & X2). rewrite (num_leb_some _ _ _ _ E1 E2).
    rewrite (xle_comp_l _ _ _ X1), (xle_comp_r _ _ _ X2).
    apply rnd_mono, round2_mono, H.
Qed.

(** ** Range of a rounded result *)

Lemma rnd_p1000 : xeqb (rnd (2 ^ 1000)) (XFin (2 ^ 1000)) = true.
Proof. vm_compute. reflexivity. Qed.

Lemma rnd_m1000 : xeqb (rnd (- 2 ^ 1000)) (XFin (- 2 ^ 1000)) = true.
Proof. vm_compute. reflexivity. Qed.

(** A result of magnitude at most [2^1000] is finite. *)
Lemma dround_finite (s : bool) (q : Q) : (Qabs q <= 2 ^ 1000)%Q -> dfinite (dround s q) = true.
Proof.
  intro H. apply Qabs_Qle_condition in H as [H1 H2].
  destruct (dround_rnd s q) as (x & E & X).
  assert (L : xle (XFin (- 2 ^ 1000)) x = true).
  { rewrite (xle_comp_r _ _ _ X), <- (xle_comp_l _ _ _ rnd_m1000). apply rnd_mono, H1. }
  assert (U : xle x (XFin (2 ^ 1000)) = true).
  { rewrite (xle_comp_l _ _ _ X), <- (xle_comp_r _ _ _ rnd_p1000). apply rnd_mono, H2. }
  destruct (dround s q) as [s'|s' m e|s'|]; simpl in E |- *; try reflexivity.
  - destruct s'; inversion E; subst; discriminate.
  - discriminate.
Qed.

(** A rounded non-negative value is non-negative. *)
Lemma dround_nonneg (s : bool) (q : Q) : (0 <= q)%Q -> (0 <= dval (dround s q))%Q.
Proof.
  intro H. destruct (dround_rnd s q) as (x & E & X).
  assert (L : xle (XFin 0) x = true).
  { rewrite (xle_comp_r _ _ _ X), <- rnd_zero. apply rnd_mono, H. }
  destruct (dround s q) as [s'|s' m e|s'|]; simpl in E |- *; try apply Qle_refl.
  inversion E; subst. apply xle_fin in L. exact L.
Qed.


(** ** The error monad *)

Lemma exc_all_bind {A B : Type} (P : B -> Prop) (m : Exc A) (k : A -> Exc B) :
  (forall a, m = Ok a -> exc_all P (k a)) -> exc_all P (bind m k).
Proof. destruct m as [e|a]; simpl; auto. Qed.

Lemma bind_ok_inv {A B : Type} (m : Exc A) (k : A -> Exc B) (b : B) :
  bind m k = Ok b -> exists a, m = Ok a /\ k a = Ok b.
Proof. destruct m as [e|a]; simpl; [discriminate | eauto]. Qed.

(** ** Strings *)

Lemma string_app_cancel_l (p a b : string) : p ++ a = p ++ b -> a = b.
Proof. induction p as [|c p IH]; simpl; [auto | intro H; injection H; auto]. Qed.

Lemma string_app_cancel_len (a b r1 r2 : string) :
  String.length a = String.length b -> a ++ r1 = b ++ r2 -> a = b.
Proof.
  revert b. induction a as [|c a IH]; intros [|d b]; simpl; try discriminate; auto.
  intros Hl H. injection H as -> H. f_equal. apply (IH b); auto.
Qed.

Lemma string_length_app (a b : string) :
  String.length (a ++ b) = (String.length a + String.length b)%nat.
Proof. induction a; simpl; auto. Qed.

Lemma string_app_cancel_r (a b r : string) : a ++ r = b ++ r -> a = b.
Proof.
  intro H. apply (string_app_cancel_len a b r r); auto.
  apply (f_equal String.length) in H. rewrite !string_length_app in H. lia.
Qed.

(** ** Lists, indexing and slicing *)

Lemma mapM_ok_map {A B : Type} (f : A -> Exc B) (g : A -> B) (l : list A) :
  (forall x, In x l -> f x = Ok (g x)) -> mapM f l = Ok (map g l).
Proof.
  induction l as [|x l IH]; intro H; simpl; auto.
  rewrite (H x (or_introl eq_refl)). simpl.
  rewrite IH by (intros y Hy; apply H; right; exact Hy). reflexivity.
Qed.

Ltac column_tac :=
  let s := fresh "s" in let IH := fresh "IH" in
  intro s; unfold column, series_json; simpl;
  induction s as [|? s IH]; simpl; [reflexivity | rewrite IH; reflexivity].

Lemma column_close : forall s, column (series_json s) "close" = Ok (map PNum (map pp_close s)).
Proof. column_tac. Qed.
Lemma column_high : forall s, column (series_json s) "high" = Ok (map PNum (map pp_high s)).
Proof. column_tac. Qed.
Lemma column_low : forall s, column (series_json s) "low" = Ok (map PNum (map pp_low s)).
Proof. column_tac. Qed.
Lemma column_volume : forall s, column (series_json s) "volume" = Ok (map PNum (map pp_volume s)).
Proof. column_tac. Qed.

Lemma py_index_last {A : Type} (l : list A) (x : A) : py_index (l ++ [x])%list (-1) = Ok x.
Proof.
  unfold py_index. cbv zeta. replace (-1 <? 0) with true by reflexivity.
  rewrite length_app. cbn [length].
  replace (-1 + Z.of_nat (length l + 1)) with (Z.of_nat (length l)) by lia.
  rewrite (proj2 (Z.ltb_ge _ _)) by lia. rewrite Nat2Z.id.
  rewrite nth_error_app2 by lia. rewrite Nat.sub_diag. reflexivity.
Qed.

Lemma py_index_last' {A : Type} (l : list A) (d : A) : l <> [] -> py_index l (-1) = Ok (last l d).
Proof.
  intro H. destruct (exists_last H) as [l' [x ->]].
  rewrite py_index_last, last_last. reflexivity.
Qed.

Lemma zrange_snoc (m : Z) : 0 <= m -> zrange 0 (m + 1) = (zrange 0 m ++ [m])%list.
Proof.
  intro Hm. unfold zrange. rewrite !Z.sub_0_r.
  replace (Z.to_nat (m + 1)) with (S (Z.to_nat m)) by lia.
  rewrite seq_S, map_app. simpl. f_equal. f_equal. lia.
Qed.

Lemma py_slice_map {A B : Type} (f : A -> B) (l : list A) st sp :
  py_slice (map f l) st sp = map f (py_slice l st sp).
Proof. unfold py_slice. rewrite length_map, skipn_map, firstn_map. reflexivity. Qed.

Lemma py_slice_lastn {A : Type} (l : list A) (w : Z) :
  0 <= w <= Z.of_nat (length l) ->
  py_slice l (Some (Z.of_nat (length l) - w)) (Some (Z.of_nat (length l))) = lastn (Z.to_nat w) l.
Proof.
  intro Hw. unfold py_slice, slice_bound, lastn.
  rewrite (proj2 (Z.ltb_ge (Z.of_nat (length l) - w) 0)) by lia.
  rewrite (proj2 (Z.ltb_ge (Z.of_nat (length l)) 0)) by lia.
  rewrite Z.min_id, Z.min_l by lia.
  replace (Z.to_nat (Z.of_nat (length l) - w)) with (length l - Z.to_nat w)%nat by lia.
  apply firstn_all2. rewrite length_skipn. lia.
Qed.

Lemma py_slice_last {A : Type} (l : list A) (k : nat) :
  (0 < k)%nat -> py_slice l (Some (- Z.of_nat k)) None = lastn k l.
Proof.
  intro Hk. unfold py_slice, slice_bound, lastn.
  rewrite (proj2 (Z.ltb_lt (- Z.of_nat k) 0)) by lia.
  replace (Z.to_nat (Z.max 0 (- Z.of_nat k + Z.of_nat (length l)))) with (length l - k)%nat by lia.
  apply firstn_all2. rewrite length_skipn. lia.
Qed.

Lemma py_slice_first {A : Type} (l : list A) (k : nat) :
  py_slice l None (Some (Z.of_nat k)) = firstn k l.
Proof.
  unfold py_slice, slice_bound.
  rewrite (proj2 (Z.ltb_ge (Z.of_nat k) 0)) by lia. cbn [skipn].
  rewrite Z.sub_0_r.
  destruct (Nat.le_gt_cases k (length l)) as [H|H].
  - rewrite Z.min_l by lia. rewrite Nat2Z.id. reflexivity.
  - rewrite Z.min_r by lia. rewrite Nat2Z.id. change (skipn (Z.to_nat 0) l) with l.
    rewrite (firstn_all2 (n := length l)), (firstn_all2 (n := k)) by lia. reflexivity.
Qed.

Lemma py_slice_nil {A : Type} (l : list A) (a b : Z) :
  b <= a -> 0 <= a -> 0 <= b -> py_slice l (Some a) (Some b) = [].
Proof.
  intros Hab Ha Hb. unfold py_slice, slice_bound.
  rewrite (proj2 (Z.ltb_ge a 0)), (proj2 (Z.ltb_ge b 0)) by lia.
  replace (Z.to_nat (Z.min b (Z.of_nat (length l)) - Z.min a (Z.of_nat (length l)))) with 0%nat by lia.
  reflexivity.
Qed.

Lemma hd_In {A : Type} (l : list A) (d : A) : l <> [] -> In (hd d l) l.
Proof. destruct l; [congruence | left; reflexivity]. Qed.

Lemma last_In {A : Type} (l : list A) (d : A) : l <> [] -> In (last l d) l.
Proof.
  intro Hl. destruct (exists_last Hl) as [l' [a ->]].
  rewrite last_last. apply in_or_app. right. left. reflexivity.
Qed.

Lemma In_lastn {A : Type} (k : nat) (l : list A) (x : A) : In x (lastn k l) -> In x l.
Proof.
  unfold lastn. intro H. rewrite <- (firstn_skipn (length l - k) l).
  apply in_or_app. right. exact H.
Qed.

Lemma lastn_nonempty {A : Type} (k : nat) (l : list A) :
  (0 < k)%nat -> l <> [] -> lastn k l <> [].
Proof.
  intros Hk Hl E. unfold lastn in E. apply (f_equal (@length A)) in E.
  rewrite length_skipn in E. destruct l as [|a l]; [congruence|]. cbn [length] in E. lia.
Qed.

Lemma lastn_map {A B : Type} (f : A -> B) (k : nat) (l : list A) :
  lastn k (map f l) = map f (lastn k l).
Proof. unfold lastn. rewrite length_map, skipn_map. reflexivity. Qed.

Lemma last_default_irrel {A : Type} (a : A) (l : list A) (d d' : A) :
  last (a :: l) d = last (a :: l) d'.
Proof.
  revert a. induction l as [|b l IH]; intro a; [reflexivity|].
  change (last (b :: l) d = last (b :: l) d'). apply IH.
Qed.

Lemma last_map' {A B : Type} (f : A -> B) (l : list A) (d : A) (e : B) :
  l <> [] -> last (map f l) e = f (last l d).
Proof.
  intro H. destruct (exists_last H) as [l' [a ->]]. rewrite map_app. cbn [map].
  rewrite !last_last. reflexivity.
Qed.

Lemma last_In_lastn {A : Type} (k : nat) (l : list A) (d : A) :
  (0 < k)%nat -> l <> [] -> In (last l d) (lastn k l).
Proof.
  intros Hk H. destruct (exists_last H) as [l' [a ->]]. rewrite last_last. unfold lastn.
  rewrite length_app. cbn [length].
  rewrite skipn_app. replace (length l' + 1 - k - length l')%nat with 0%nat by lia.
  apply in_or_app. right. left. reflexivity.
Qed.

(** ** Numbers read from the series *)

Lemma nx_ok (n : num) : num_ok n = true -> nx n = Some (XFin (nval n)).
Proof. destruct n as [z|[s|s m e|s|]]; simpl; try discriminate; reflexivity. Qed.

Lemma num_ltb_ok (a b : num) :
  num_ok a = true -> num_ok b = true -> num_ltb a b = Qlt_bool (nval a) (nval b).
Proof. intros Ha Hb. unfold num_ltb. rewrite (nx_ok a Ha), (nx_ok b Hb). reflexivity. Qed.

Lemma num_eqb_ok (a b : num) :
  num_ok a = true -> num_ok b = true -> num_eqb a b = Qeq_bool (nval a) (nval b).
Proof. intros Ha Hb. unfold num_eqb. rewrite (nx_ok a Ha), (nx_ok b Hb). reflexivity. Qed.

Lemma num_leb_ok (a b : num) :
  num_ok a = true -> num_ok b = true -> (num_leb a b = true <-> (nval a <= nval b)%Q).
Proof.
  intros Ha Hb. unfold num_leb. rewrite (nx_ok a Ha), (nx_ok b Hb). apply xle_fin.
Qed.

Lemma py_eqb_ok (a b : num) :
  num_ok a = true -> num_ok b = true -> py_eqb (PNum a) (PNum b) = Qeq_bool (nval a) (nval b).
Proof.
  intros Ha Hb. rewrite <- (num_eqb_ok a b Ha Hb). unfold py_eqb. cbn [as_num].
  destruct a as [z|[s|s m e|s|]], b as [z'|[s'|s' m' e'|s'|]]; try reflexivity;
    simpl in Ha, Hb; discriminate.
Qed.

Lemma num_round2_ok (n : num) : num_ok n = true -> exists x, nx (num_round2 n) = Some x.
Proof.
  destruct n as [z|d]; [eexists; reflexivity|]. intro H.
  destruct (num_round2_float d H) as (x & E & _). eauto.
Qed.

(** ** [sorted(set(...))] on numbers *)

Section Levels.

Lemma py_insert_num (x : num) (s : list num) :
  num_ok x = true -> forallb num_ok s = true ->
  py_insert (PNum x) (map PNum s) = Ok (map PNum (n_insert x s)).
Proof.
  intro Hx. induction s as [|y r IH]; intro Hs; [reflexivity|].
  cbn [forallb] in Hs. apply andb_prop in Hs as [Hy Hr].
  cbn [map py_insert n_insert]. cbn [py_lt as_num bind]. rewrite (num_ltb_ok x y Hx Hy).
  destruct (Qlt_bool (nval x) (nval y)); [reflexivity|]. rewrite (IH Hr). reflexivity.
Qed.

Lemma n_insert_In (x : num) (s : list num) (z : num) : In z (n_insert x s) <-> z = x \/ In z s.
Proof.
  induction s as [|y r IH]; cbn [n_insert]; [cbn; intuition congruence|].
  destruct (Qlt_bool (nval x) (nval y)); cbn [In]; [intuition congruence|]. rewrite IH. tauto.
Qed.

Lemma n_sorted_fold_In (l s : list num) (z : num) :
  In z (fold_left (fun acc x => n_insert x acc) l s) <-> In z s \/ In z l.
Proof.
  revert s. induction l as [|x l IH]; intro s; cbn [fold_left]; [cbn; tauto|].
  rewrite IH, n_insert_In. cbn [In]. intuition congruence.
Qed.

Lemma n_sorted_In (l : list num) (z : num) : In z (n_sorted l) <-> In z l.
Proof. unfold n_sorted. rewrite n_sorted_fold_In. cbn. tauto. Qed.

Lemma forallb_In_iff {A : Type} (f : A -> bool) (l : list A) :
  forallb f l = true <-> (forall x, In x l -> f x = true).
Proof. apply forallb_forall. Qed.

Lemma py_sorted_num (l : list num) :
  forallb num_ok l = true -> py_sorted (map PNum l) = Ok (map PNum (n_sorted l)).
Proof.
  intro Hl. unfold py_sorted, n_sorted. change (Ok []) with (Ok (A := list pyval) (map PNum [])).
  assert (Hs : forallb num_ok [] = true) by reflexivity. revert Hs.
  generalize (@nil num) as s. induction l as [|x l IH]; intros s Hs; [reflexivity|].
  cbn [forallb] in Hl. apply andb_prop in Hl as [Hx Hl].
  cbn [map fold_left]. cbn [bind]. rewrite (py_insert_num x s Hx Hs). apply (IH Hl).
  apply forallb_In_iff. intros z Hz. apply n_insert_In in Hz as [->|Hz]; [exact Hx|].
  apply (proj1 (forallb_In_iff _ _) Hs z Hz).
Qed.

Lemma existsb_py_eqb_num (v : num) (s : list num) :
  num_ok v = true -> forallb num_ok s = true ->
  existsb (py_eqb (PNum v)) (map PNum s) = existsb (fun w => Qeq_bool (nval v) (nval w)) s.
Proof.
  intro Hv. induction s as [|y s IH]; intro Hs; [reflexivity|].
  cbn [forallb] in Hs. apply andb_prop in Hs as [Hy Hs].
  cbn [map existsb]. rewrite (py_eqb_ok v y Hv Hy), (IH Hs). reflexivity.
Qed.

Lemma py_set_num (l : list num) :
  forallb num_ok l = true -> py_set (map PNum l) = Ok (map PNum (n_set l)).
Proof.
  intro Hl. unfold py_set, n_set. change (Ok []) with (Ok (A := list pyval) (map PNum [])).
  assert (Hs : forallb num_ok [] = true) by reflexivity. revert Hs.
  generalize (@nil num) as s. induction l as [|x l IH]; intros s Hs; [reflexivity|].
  cbn [forallb] in Hl. apply andb_prop in Hl as [Hx Hl].
  cbn [map fold_left]. cbn [bind hashable]. rewrite (existsb_py_eqb_num x s Hx Hs).
  unfold n_set_step at 2. destruct (existsb (fun w => Qeq_bool (nval x) (nval w)) s).
  - apply (IH Hl s Hs).
  - replace (map PNum s ++ [PNum x])%list with (map PNum (s ++ [x])) by (rewrite map_app; reflexivity).
    apply (IH Hl). rewrite forallb_app, Hs. cbn. rewrite Hx. reflexivity.
Qed.

Lemma n_set_fold_In (l s : list num) (z : num) :
  In z (fold_left n_set_step l s) -> In z s \/ In z l.
Proof.
  revert s. induction l as [|x l IH]; intros s Hz; cbn [fold_left] in Hz; [left; exact Hz|].
  apply IH in Hz as [Hz|Hz]; [|right; right; exact Hz].
  unfold n_set_step in Hz. destruct (existsb _ s); [left; exact Hz|].
  apply in_app_or in Hz as [Hz|[<-|[]]]; [left; exact Hz | right; left; reflexivity].
Qed.

Lemma n_set_In (l : list num) (z : num) : In z (n_set l) -> In z l.
Proof. intro H. apply n_set_fold_In in H as [[]|H]. exact H. Qed.

Lemma map_nval_n_insert (x : num) (s : list num) :
  map nval (n_insert x s) = q_insert (nval x) (map nval s).
Proof.
  induction s as [|y r IH]; [reflexivity|]. cbn [n_insert map q_insert].
  destruct (Qlt_bool (nval x) (nval y)); [reflexivity|]. cbn [map]. rewrite IH. reflexivity.
Qed.

Lemma map_nval_n_sorted (l : list num) : map nval (n_sorted l) = q_sorted (map nval l).
Proof.
  unfold n_sorted, q_sorted. change (@nil Q) with (map nval []).
  generalize (@nil num) as s. induction l as [|x l IH]; intro s; [reflexivity|].
  cbn [fold_left map]. rewrite <- map_nval_n_insert. apply IH.
Qed.

Lemma existsb_map_nval (f : Q -> bool) (s : list num) :
  existsb f (map nval s) = existsb (fun w => f (nval w)) s.
Proof. induction s as [|y s IH]; cbn; [reflexivity | rewrite IH; reflexivity]. Qed.

Lemma map_nval_n_set (l : list num) : map nval (n_set l) = q_set (map nval l).
Proof.
  unfold n_set, q_set. change (@nil Q) with (map nval []).
  generalize (@nil num) as s. induction l as [|x l IH]; intro s; [reflexivity|].
  cbn [fold_left map]. rewrite IH. f_equal.
  unfold n_set_step, q_set_step. rewrite existsb_map_nval.
  destruct (existsb _ s); [reflexivity|]. rewrite map_app. reflexivity.
Qed.

End Levels.

(** ** Levels on rationals *)

Lemma FOP_snoc {A : Type} (R : A -> A -> Prop) (s : list A) (v : A) :
  ForallOrdPairs R s -> (forall z, In z s -> R z v) -> ForallOrdPairs R (s ++ [v])%list.
Proof.
  induction s as [|a s IH]; intros H Hv; cbn.
  - constructor; [constructor | constructor].
  - inversion H as [|a' s' Ha Hs]; subst. constructor.
    + apply Forall_app. split; [exact Ha|]. constructor; [apply Hv; left; reflexivity | constructor].
    + apply IH; [exact Hs|]. intros z Hz. apply Hv. right. exact Hz.
Qed.

Lemma existsb_Qeq_bool (v : Q) (s : list Q) :
  existsb (Qeq_bool v) s = true <-> exists d, In d s /\ (d == v)%Q.
Proof.
  rewrite existsb_exists. split; intros [d [Hd E]]; exists d; split; auto.
  - apply Qeq_bool_eq in E. symmetry. exact E.
  - apply Qeq_bool_iff. symmetry. exact E.
Qed.

Lemma q_set_fold_spec (l s : list Q) :
  q_distinct s ->
  let D := fold_left q_set_step l s in
  q_distinct D /\ (forall d, In d D -> In d s \/ In d l) /\
  (forall y, In y s \/ In y l -> exists d, In d D /\ (d == y)%Q).
Proof.
  revert s. induction l as [|x l IH]; intros s Hs; cbv zeta.
  - split; [exact Hs|]. split; [intros d Hd; left; exact Hd|].
    intros y [Hy|[]]. exists y. split; [exact Hy | reflexivity].
  - cbn [fold_left].
    assert (Hstep : q_set_step s x = if existsb (Qeq_bool x) s then s else (s ++ [x])%list)
      by reflexivity.
    rewrite Hstep. destruct (existsb (Qeq_bool x) s) eqn:E.
    + destruct (IH s Hs) as (H1 & H2 & H3). split; [exact H1|]. split.
      * intros d Hd. destruct (H2 d Hd) as [?|?]; [left | right; right]; assumption.
      * intros y [Hy | [<- | Hy]]; [apply H3; left; exact Hy | | apply H3; right; exact Hy].
        apply existsb_Qeq_bool in E as [d [Hd Hdx]].
        destruct (H3 d (or_introl Hd)) as [d' [Hd' E']]. exists d'. split; [exact Hd'|].
        rewrite E'. exact Hdx.
    + assert (Hs' : q_distinct (s ++ [x])%list).
      { apply FOP_snoc; [exact Hs|]. intros z Hz Hzx.
        assert (existsb (Qeq_bool x) s = true) by (apply existsb_Qeq_bool; eauto).
        congruence. }
      destruct (IH _ Hs') as (H1 & H2 & H3). split; [exact H1|]. split.
      * intros d Hd. destruct (H2 d Hd) as [Hd'|Hd'].
        -- apply in_app_or in Hd' as [?|[<-|[]]]; [left; assumption | right; left; reflexivity].
        -- right. right. exact Hd'.
      * intros y Hy. apply H3. destruct Hy as [Hy | [<- | Hy]].
        -- left. apply in_or_app. left. exact Hy.
        -- left. apply in_or_app. right. left. reflexivity.
        -- right. exact Hy.
Qed.

Lemma q_insert_In (x : Q) (s : list Q) (z : Q) : In z (q_insert x s) <-> z = x \/ In z s.
Proof.
  induction s as [|y r IH]; cbn [q_insert]; [cbn; intuition congruence|].
  destruct (Qlt_bool x y); cbn [In]; [intuition congruence|]. rewrite IH. tauto.
Qed.

Lemma q_insert_sorted (x : Q) (s : list Q) :
  StronglySorted Qlt s -> (forall z, In z s -> ~ (x == z)%Q) -> StronglySorted Qlt (q_insert x s).
Proof.
  induction s as [|y r IH]; intros Hs Hx; cbn [q_insert].
  - repeat constructor.
  - apply StronglySorted_inv in Hs as [Hr Hy].
    destruct (Qlt_bool x y) eqn:E.
    + apply Qlt_bool_iff in E. constructor; [constructor; assumption|].
      constructor; [exact E|]. eapply Forall_impl; [|exact Hy].
      intros z Hz. apply (Qlt_trans _ y); assumption.
    + apply Qlt_bool_false in E.
      assert (Hyx : (y < x)%Q).
      { apply Qle_lteq in E as [E|E]; [exact E|]. exfalso. apply (Hx y); [left; reflexivity|].
        symmetry. exact E. }
      constructor.
      * apply IH; [exact Hr|]. intros z Hz. apply Hx. right. exact Hz.
      * apply Forall_forall. intros z Hz. apply q_insert_In in Hz as [->|Hz]; [exact Hyx|].
        rewrite Forall_forall in Hy. apply Hy. exact Hz.
Qed.

Lemma q_sort_fold_spec (l s : list Q) :
  StronglySorted Qlt s -> q_distinct l -> (forall x z, In x l -> In z s -> ~ (x == z)%Q) ->
  let S := fold_left (fun acc x => q_insert x acc) l s in
  StronglySorted Qlt S /\ (forall z, In z S <-> In z s \/ In z l).
Proof.
  revert s. induction l as [|x l IH]; intros s Hs Hl Hx; cbv zeta.
  - split; [exact Hs|]. intro z. cbn. tauto.
  - inversion Hl as [|x' l' Hxl Hl']; subst.
    cbn [fold_left].
    destruct (IH (q_insert x s)) as [H1 H2].
    + apply q_insert_sorted; [exact Hs|]. intros z Hz. apply (Hx x z); [left; reflexivity | exact Hz].
    + exact Hl'.
    + intros y z Hy Hz. apply q_insert_In in Hz as [->|Hz].
      * rewrite Forall_forall in Hxl. intro E. apply (Hxl y Hy). symmetry. exact E.
      * apply (Hx y z); [right; exact Hy | exact Hz].
    + split; [exact H1|]. intro z. rewrite H2, q_insert_In. cbn [In]. intuition congruence.
Qed.


Lemma StronglySorted_app_inv {A : Type} (R : A -> A -> Prop) (l1 l2 : list A) :
  StronglySorted R (l1 ++ l2) ->
  StronglySorted R l1 /\ StronglySorted R l2 /\ (forall x y, In x l1 -> In y l2 -> R x y).
Proof.
  induction l1 as [|a l1 IH]; intro H; cbn in H.
  - split; [constructor|]. split; [exact H|]. intros x y [].
  - apply StronglySorted_inv in H as [H Ha]. destruct (IH H) as (H1 & H2 & H3).
    rewrite Forall_forall in Ha.
    split; [constructor; [exact H1 | apply Forall_forall; intros x Hx; apply Ha; apply in_or_app; left; exact Hx]|].
    split; [exact H2|]. intros x y [<-|Hx] Hy.
    + apply Ha. apply in_or_app. right. exact Hy.
    + apply H3; assumption.
Qed.

Lemma levels_sorted_spec (W : list Q) :
  let S := q_sorted (q_set W) in
  StronglySorted Qlt S /\ (forall z, In z S -> In z W) /\
  (forall y, In y W -> exists d, In d S /\ (d == y)%Q).
Proof.
  intro S.
  destruct (q_set_fold_spec W [] (FOP_nil _)) as (H1 & H2 & H3).
  destruct (q_sort_fold_spec (q_set W) [] (SSorted_nil _) H1 (fun x z _ Hz => match Hz with end))
    as [S1 S2].
  split; [exact S1|]. split.
  - intros z Hz. apply S2 in Hz as [[]|Hz]. destruct (H2 z Hz) as [[]|Hz']. exact Hz'.
  - intros y Hy. destruct (H3 y (or_intror Hy)) as [d [Hd E]]. exists d. split; [|exact E].
    apply S2. right. exact Hd.
Qed.

Lemma support_levels_spec (W : list Q) :
  lowest_distinct 3 (firstn 3 (q_sorted (q_set W))) W.
Proof.
  destruct (levels_sorted_spec W) as (S1 & S2 & S3).
  set (S := q_sorted (q_set W)) in *.
  pose proof (firstn_skipn 3 S) as HS.
  rewrite <- HS in S1. apply StronglySorted_app_inv in S1 as (L1 & L2 & L12).
  split; [exact L1|]. split; [|split].
  - intros x Hx. apply S2. rewrite <- HS. apply in_or_app. left. exact Hx.
  - rewrite length_firstn. lia.
  - intros y Hy. destruct (S3 y Hy) as [d [Hd E]].
    rewrite <- HS in Hd. apply in_app_or in Hd as [Hd|Hd].
    + left. exists d. split; assumption.
    + right. split.
      * rewrite length_firstn.
        assert (length (skipn 3 S) > 0)%nat by (destruct (skipn 3 S); [destruct Hd | cbn; lia]).
        rewrite length_skipn in H. lia.
      * intros x Hx. rewrite <- E. apply L12; assumption.
Qed.

Lemma resistance_levels_spec (W : list Q) :
  highest_distinct 3 (lastn 3 (q_sorted (q_set W))) W.
Proof.
  destruct (levels_sorted_spec W) as (S1 & S2 & S3).
  set (S := q_sorted (q_set W)) in *. unfold lastn.
  pose proof (firstn_skipn (length S - 3) S) as HS.
  rewrite <- HS in S1. apply StronglySorted_app_inv in S1 as (L1 & L2 & L12).
  split; [exact L2|]. split; [|split].
  - intros x Hx. apply S2. rewrite <- HS. apply in_or_app. right. exact Hx.
  - rewrite length_skipn. lia.
  - intros y Hy. destruct (S3 y Hy) as [d [Hd E]].
    rewrite <- HS in Hd. apply in_app_or in Hd as [Hd|Hd].
    + right. split.
      * rewrite length_skipn.
        assert (length (firstn (length S - 3) S) > 0)%nat
          by (destruct (firstn (length S - 3) S); [destruct Hd | cbn; lia]).
        rewrite length_firstn in H. lia.
      * intros x Hx. rewrite <- E. apply L12; assumption.
    + left. exists d. split; assumption.
Qed.

(** ** Levels on numbers *)

Lemma forallb_sub (l l' : list num) :
  (forall z, In z l' -> In z l) -> forallb num_ok l = true -> forallb num_ok l' = true.
Proof.
  intros Hsub Hl. apply forallb_forall. intros z Hz.
  apply (proj1 (forallb_forall _ _) Hl z (Hsub z Hz)).
Qed.

Lemma series_ok_cols (s : list price_point) :
  series_ok s = true ->
  forallb num_ok (map pp_low s) = true /\ forallb num_ok (map pp_high s) = true /\
  forallb num_ok (map pp_close s) = true.
Proof.
  unfold series_ok. induction s as [|p s IH]; intro H; [repeat split|].
  cbn [forallb map] in *. apply andb_prop in H as [Hp H].
  apply andb_prop in Hp as [Hp Hc]. apply andb_prop in Hp as [Hl Hh].
  destruct (IH H) as (A & B & C). rewrite Hl, Hh, Hc, A, B, C. repeat split.
Qed.

Lemma level_window (l : list num) :
  (if (10 <=? length (map PNum l))%nat then py_slice (map PNum l) (Some (-10)) None
   else map PNum l) = map PNum (lastn 10 l).
Proof.
  rewrite length_map. destruct (Nat.leb_spec 10 (length l)) as [H|H].
  - change (Some (-10)) with (Some (- Z.of_nat 10)).
    rewrite py_slice_last by lia. apply lastn_map.
  - unfold lastn. replace (length l - 10)%nat with 0%nat by lia. reflexivity.
Qed.

Lemma levels_ok (l : list num) :
  forallb num_ok l = true ->
  forallb num_ok (lastn 10 l) = true /\ forallb num_ok (n_set (lastn 10 l)) = true /\
  forallb num_ok (n_sorted (n_set (lastn 10 l))) = true.
Proof.
  intro H.
  assert (A : forallb num_ok (lastn 10 l) = true) by (apply (forallb_sub l); [apply In_lastn | exact H]).
  assert (B : forallb num_ok (n_set (lastn 10 l)) = true) by (apply (forallb_sub _ _ (n_set_In _)), A).
  split; [exact A|]. split; [exact B|].
  apply (forallb_sub _ _ (fun z Hz => proj1 (n_sorted_In _ z) Hz)), B.
Qed.

Lemma support_levels_num (lows : list num) :
  forallb num_ok lows = true ->
  support_levels_of (map PNum lows) = Ok (map PNum (firstn 3 (n_sorted (n_set (lastn 10 lows))))).
Proof.
  intro H. destruct (levels_ok lows H) as (A & B & _).
  unfold support_levels_of. rewrite level_window, (py_set_num _ A). cbn [bind].
  rewrite (py_sorted_num _ B). cbn [bind]. rewrite py_slice_map.
  change (Some 3) with (Some (Z.of_nat 3)). rewrite py_slice_first. reflexivity.
Qed.

Lemma resistance_levels_num (highs : list num) :
  forallb num_ok highs = true ->
  resistance_levels_of (map PNum highs) = Ok (map PNum (lastn 3 (n_sorted (n_set (lastn 10 highs))))).
Proof.
  intro H. destruct (levels_ok highs H) as (A & B & _).
  unfold resistance_levels_of. rewrite level_window, (py_set_num _ A). cbn [bind].
  rewrite (py_sorted_num _ B). cbn [bind]. rewrite py_slice_map.
  change (Some (-3)) with (Some (- Z.of_nat 3)). rewrite py_slice_last by lia. reflexivity.
Qed.

Lemma support_levels_nval (lows : list num) :
  map nval (firstn 3 (n_sorted (n_set (lastn 10 lows))))
  = firstn 3 (q_sorted (q_set (lastn 10 (map nval lows)))).
Proof. rewrite <- firstn_map, map_nval_n_sorted, map_nval_n_set, lastn_map. reflexivity. Qed.

Lemma resistance_levels_nval (highs : list num) :
  map nval (lastn 3 (n_sorted (n_set (lastn 10 highs))))
  = lastn 3 (q_sorted (q_set (lastn 10 (map nval highs)))).
Proof. rewrite <- lastn_map, map_nval_n_sorted, map_nval_n_set, lastn_map. reflexivity. Qed.

Lemma In_firstn {A : Type} (k : nat) (l : list A) (x : A) : In x (firstn k l) -> In x l.
Proof. intro H. rewrite <- (firstn_skipn k l). apply in_or_app. left. exact H. Qed.

Lemma support_levels_ok (lows : list num) :
  forallb num_ok lows = true -> forallb num_ok (firstn 3 (n_sorted (n_set (lastn 10 lows)))) = true.
Proof.
  intro H. destruct (levels_ok lows H) as (_ & _ & C).
  apply (forallb_sub _ _ (fun z Hz => In_firstn _ _ _ Hz)), C.
Qed.

Lemma resistance_levels_ok (highs : list num) :
  forallb num_ok highs = true -> forallb num_ok (lastn 3 (n_sorted (n_set (lastn 10 highs)))) = true.
Proof.
  intro H. destruct (levels_ok highs H) as (_ & _ & C).
  apply (forallb_sub _ _ (fun z Hz => In_lastn _ _ _ Hz)), C.
Qed.

Lemma py_min_sorted (x : num) (r : list num) :
  forallb num_ok (x :: r) = true -> StronglySorted Qlt (map nval (x :: r)) ->
  py_min (map PNum (x :: r)) = Ok (PNum x).
Proof.
  intros Hok H. cbn [map] in H. apply StronglySorted_inv in H as [_ H]. rewrite Forall_forall in H.
  cbn [forallb] in Hok. apply andb_prop in Hok as [Hx Hr].
  cbn [map py_min]. induction r as [|y r IH]; [reflexivity|].
  cbn [forallb] in Hr. apply andb_prop in Hr as [Hy Hr].
  cbn [map fold_left bind py_lt as_num]. rewrite (num_ltb_ok y x Hy Hx).
  assert (Hxy : (nval x < nval y)%Q) by (apply H; left; reflexivity).
  destruct (Qlt_bool (nval y) (nval x)) eqn:E.
  { apply Qlt_bool_iff in E. exfalso. apply (Qlt_irrefl (nval x)). apply (Qlt_trans _ (nval y)); assumption. }
  apply IH; [exact Hr|]. intros z Hz. apply H. right. exact Hz.
Qed.

Lemma py_max_sorted (x : num) (r : list num) :
  forallb num_ok (x :: r) = true -> StronglySorted Qlt (map nval (x :: r)) ->
  py_max (map PNum (x :: r)) = Ok (PNum (last (x :: r) x)).
Proof.
  cbn [map py_max]. revert x. induction r as [|y r IH]; intros x Hok H; [reflexivity|].
  cbn [map] in H. apply StronglySorted_inv in H as [Hr Hx]. rewrite Forall_forall in Hx.
  cbn [forallb] in Hok. apply andb_prop in Hok as [Hxo Hok].
  pose proof Hok as Hok'. cbn [forallb] in Hok'. apply andb_prop in Hok' as [Hyo _].
  cbn [map fold_left bind py_gt as_num]. rewrite (num_ltb_ok x y Hxo Hyo).
  assert (Hxy : (nval x < nval y)%Q) by (apply Hx; left; reflexivity).
  apply Qlt_bool_iff in Hxy. rewrite Hxy. rewrite (IH y Hok Hr).
  change (last (x :: y :: r) x) with (last (y :: r) x).
  rewrite (last_default_irrel y r x y). reflexivity.
Qed.

Lemma lowest_distinct_nonempty (k : nat) (L W : list Q) :
  (0 < k)%nat -> W <> [] -> lowest_distinct k L W -> L <> [].
Proof.
  intros Hk HW (_ & _ & _ & H) EL. subst L. destruct W as [|y W]; [congruence|].
  destruct (H y (or_introl eq_refl)) as [[x [[] _]] | [E _]]. cbn in E. lia.
Qed.

Lemma highest_distinct_nonempty (k : nat) (L W : list Q) :
  (0 < k)%nat -> W <> [] -> highest_distinct k L W -> L <> [].
Proof.
  intros Hk HW (_ & _ & _ & H) EL. subst L. destruct W as [|y W]; [congruence|].
  destruct (H y (or_introl eq_refl)) as [[x [[] _]] | [E _]]. cbn in E. lia.
Qed.

Lemma map_nonempty {A B : Type} (f : A -> B) (l : list A) : map f l <> [] -> l <> [].
Proof. destruct l; [auto | discriminate]. Qed.

Lemma last_close_ok (s : list price_point) :
  series_ok s = true -> s <> [] -> num_ok (last_close s) = true.
Proof.
  intros H Hne. destruct (series_ok_cols s H) as (_ & _ & C).
  apply (proj1 (forallb_forall _ _) C). apply last_In.
  destruct s; [congruence | discriminate].
Qed.

Lemma hd_ok (l : list num) : forallb num_ok l = true -> l <> [] -> num_ok (hd (NInt 0) l) = true.
Proof. intros H Hne. apply (proj1 (forallb_forall _ _) H), hd_In, Hne. Qed.

Lemma last_ok (l : list num) : forallb num_ok l = true -> l <> [] -> num_ok (last l (NInt 0)) = true.
Proof. intros H Hne. apply (proj1 (forallb_forall _ _) H), last_In, Hne. Qed.

(** The result of [analyze_support_resistance] on a valid series. *)
Lemma support_resistance_body_series (s : list price_point) :
  s <> [] -> series_ok s = true ->
  let sup := firstn 3 (n_sorted (n_set (lastn 10 (map pp_low s)))) in
  let res := lastn 3 (n_sorted (n_set (lastn 10 (map pp_high s)))) in
  let lo := hd (NInt 0) sup in
  let hi := last res (NInt 0) in
  let c := last_close s in
  let signal := if Qlt_bool (nval c) (nval lo) then "BUY"
                else if Qlt_bool (nval hi) (nval c) then "SELL" else "HOLD" in
  lowest_distinct 3 (map nval sup) (lastn 10 (map nval (map pp_low s))) /\
  highest_distinct 3 (map nval res) (lastn 10 (map nval (map pp_high s))) /\
  forallb num_ok sup = true /\ forallb num_ok res = true /\
  sup <> [] /\ res <> [] /\
  exists text,
    support_resistance_body (series_json s) =
    Ok (PDict [("floor_price", PNum (num_round2 lo)); ("ceiling_price", PNum (num_round2 hi));
               ("current_price", PNum (num_round2 c)); ("signal", PStr signal);
               ("signal_explanation", PStr text); ("status", PStr "success")]).
Proof.
  intros Hne Hok sup res lo hi c signal.
  destruct (series_ok_cols s Hok) as (Hlo & Hhi & Hcl).
  assert (Dsup : lowest_distinct 3 (map nval sup) (lastn 10 (map nval (map pp_low s)))).
  { unfold sup. rewrite support_levels_nval. apply support_levels_spec. }
  assert (Dres : highest_distinct 3 (map nval res) (lastn 10 (map nval (map pp_high s)))).
  { unfold res. rewrite resistance_levels_nval. apply resistance_levels_spec. }
  assert (Hsup : sup <> []).
  { apply (map_nonempty nval).
    apply (lowest_distinct_nonempty 3 _ (lastn 10 (map nval (map pp_low s))) ltac:(lia)); [|exact Dsup].
    apply lastn_nonempty; [lia|]. destruct s; [congruence|discriminate]. }
  assert (Hres : res <> []).
  { apply (map_nonempty nval).
    apply (highest_distinct_nonempty 3 _ (lastn 10 (map nval (map pp_high s))) ltac:(lia)); [|exact Dres].
    apply lastn_nonempty; [lia|]. destruct s; [congruence|discriminate]. }
  pose proof (support_levels_ok _ Hlo) as Osup. fold sup in Osup.
  pose proof (resistance_levels_ok _ Hhi) as Ores. fold res in Ores.
  do 6 (split; [assumption|]).
  pose proof (last_close_ok s Hok Hne) as Oc. fold c in Oc.
  pose proof (hd_ok sup Osup Hsup) as Olo. fold lo in Olo.
  pose proof (last_ok res Ores Hres) as Ohi. fold hi in Ohi.
  assert (Ssup : StronglySorted Qlt (map nval sup)) by apply Dsup.
  assert (Sres : StronglySorted Qlt (map nval res)) by apply Dres.
  unfold support_resistance_body. change (unwrap_data (series_json s)) with (series_json s).
  rewrite column_high, column_low, column_close. cbn [bind].
  rewrite (resistance_levels_num _ Hhi), (support_levels_num _ Hlo). fold sup res. cbn [bind].
  rewrite (py_index_last' _ (PNum (NInt 0))) by (destruct s; [congruence|cbn; discriminate]).
  rewrite (last_map' PNum (map pp_close s) (NInt 0)) by (destruct s; [congruence|discriminate]).
  change (last (map pp_close s) (NInt 0)) with c.
  destruct sup as [|x0 sup'] eqn:Esup; [congruence|].
  destruct res as [|y0 res'] eqn:Eres; [congruence|].
  rewrite (py_min_sorted x0 sup' Osup Ssup), (py_max_sorted y0 res' Ores Sres).
  cbn [bind py_lt py_gt as_num py_round2].
  change (hd (NInt 0) (x0 :: sup')) with x0 in lo, Olo.
  assert (Hhi' : last (y0 :: res') y0 = hi) by (unfold hi; apply last_default_irrel).
  rewrite Hhi'. rewrite (num_ltb_ok c x0 Oc Olo). unfold signal, lo. cbn [hd].
  destruct (Qlt_bool (nval c) (nval x0)); [eexists; reflexivity|].
  cbn [bind]. rewrite (num_ltb_ok hi c Ohi Oc).
  destruct (Qlt_bool (nval hi) (nval c)); eexists; reflexivity.
Qed.

Lemma sorted_hd_min (x : Q) (r : list Q) :
  StronglySorted Qlt (x :: r) -> forall y, In y (x :: r) -> (x <= y)%Q.
Proof.
  intros H y [<- | Hy]; [apply Qle_refl|].
  apply StronglySorted_inv in H as [_ H]. rewrite Forall_forall in H.
  apply Qlt_le_weak. apply H. exact Hy.
Qed.

Lemma sorted_last_max (l : list Q) (d : Q) :
  StronglySorted Qlt l -> forall y, In y l -> (y <= last l d)%Q.
Proof.
  induction l as [|x l IH]; intros H y Hy; [destruct Hy|].
  apply StronglySorted_inv in H as [Hl Hx]. rewrite Forall_forall in Hx.
  destruct l as [|z l].
  - destruct Hy as [<- | []]. apply Qle_refl.
  - change (last (x :: z :: l) d) with (last (z :: l) d).
    destruct Hy as [<- | Hy]; [|apply IH; assumption].
    apply Qle_trans with z; [apply Qlt_le_weak, Hx; left; reflexivity|].
    apply IH; [exact Hl | left; reflexivity].
Qed.

Lemma nval_hd (l : list num) : l <> [] -> nval (hd (NInt 0) l) = hd 0%Q (map nval l).
Proof. destruct l; [congruence | reflexivity]. Qed.

Lemma nval_last (l : list num) : nval (last l (NInt 0)) = last (map nval l) 0%Q.
Proof.
  induction l as [|x l IH]; [reflexivity|]. destruct l as [|y l]; [reflexivity|].
  change (nval (last (y :: l) (NInt 0)) = last (map nval (y :: l)) 0%Q). exact IH.
Qed.

Lemma hd_min_num (l : list num) :
  l <> [] -> StronglySorted Qlt (map nval l) -> forall x, In x l -> (nval (hd (NInt 0) l) <= nval x)%Q.
Proof.
  intros Hne S x Hx. destruct l as [|a l]; [congruence|]. cbn [hd].
  apply (sorted_hd_min (nval a) (map nval l) S). apply (in_map nval (a :: l)), Hx.
Qed.

Lemma last_max_num (l : list num) :
  StronglySorted Qlt (map nval l) -> forall x, In x l -> (nval x <= nval (last l (NInt 0)))%Q.
Proof.
  intros S x Hx. rewrite nval_last. apply (sorted_last_max _ 0%Q S). apply in_map, Hx.
Qed.

Lemma support_resistance_result (json_loads : string -> Exc pyval) (prices : string)
  (s : list price_point) :
  json_loads prices = Ok (series_json s) -> s <> [] -> series_ok s = true ->
  let sup := firstn 3 (n_sorted (n_set (lastn 10 (map pp_low s)))) in
  let res := lastn 3 (n_sorted (n_set (lastn 10 (map pp_high s)))) in
  let lo := hd (NInt 0) sup in
  let hi := last res (NInt 0) in
  let c := last_close s in
  let r := analyze_support_resistance json_loads prices in
  lowest_distinct 3 (map nval sup) (lastn 10 (map nval (map pp_low s))) /\
  highest_distinct 3 (map nval res) (lastn 10 (map nval (map pp_high s))) /\
  forallb num_ok sup = true /\ forallb num_ok res = true /\
  sup <> [] /\ res <> [] /\
  get "status" r = Some (PStr "success") /\
  get "floor_price" r = Some (PNum (num_round2 lo)) /\
  get "ceiling_price" r = Some (PNum (num_round2 hi)) /\
  get "current_price" r = Some (PNum (num_round2 c)) /\
  get "signal" r =
    Some (PStr (if Qlt_bool (nval c) (nval lo) then "BUY"
                else if Qlt_bool (nval hi) (nval c) then "SELL" else "HOLD")).
Proof.
  intros Hload Hne Hok sup res lo hi c r.
  destruct (support_resistance_body_series s Hne Hok)
    as (Dsup & Dres & Osup & Ores & Hsup & Hres & text & Hbody).
  do 6 (split; [assumption|]).
  unfold r, analyze_support_resistance. rewrite Hload. cbn [bind]. rewrite Hbody.
  cbn [tool_boundary get dict_get String.eqb Ascii.eqb Bool.eqb andb].
  repeat split; reflexivity.
Qed.


(** ** Claim C7 *)
(** C7: on a non-empty series of finite numbers, the support levels are the
    (up to) 3 lowest distinct lows and the resistance levels the (up to) 3
    highest distinct highs of the last 10 points (all points if fewer); the
    signal is BUY exactly when the last close is below the lowest support
    level, SELL exactly when it is not and is above the highest resistance
    level, HOLD otherwise; floor_price and ceiling_price are those two
    levels rounded to 2 decimals. *)
Theorem support_resistance_levels (json_loads : string -> Exc pyval) (prices : string)
  (s : list price_point)
  (Hload : json_loads prices = Ok (series_json s)) (Hne : s <> [])
  (Hok : series_ok s = true) :
  let r := analyze_support_resistance json_loads prices in
  let c := last_close s in
  exists support resistance lo hi,
    support_levels_of (map PNum (map pp_low s)) = Ok (map PNum support) /\
    lowest_distinct 3 (map nval support) (lastn 10 (map nval (map pp_low s))) /\
    resistance_levels_of (map PNum (map pp_high s)) = Ok (map PNum resistance) /\
    highest_distinct 3 (map nval resistance) (lastn 10 (map nval (map pp_high s))) /\
    In lo support /\ (forall x, In x support -> nval lo <= nval x)%Q /\
    In hi resistance /\ (forall x, In x resistance -> nval x <= nval hi)%Q /\
    get "status" r = Some (PStr "success") /\
    get "floor_price" r = Some (PNum (num_round2 lo)) /\
    get "ceiling_price" r = Some (PNum (num_round2 hi)) /\
    (get "signal" r = Some (PStr "BUY") <-> (nval c < nval lo)%Q) /\
    (get "signal" r = Some (PStr "SELL") <-> (nval lo <= nval c /\ nval hi < nval c)%Q) /\
    (get "signal" r = Some (PStr "HOLD") <-> (nval lo <= nval c <= nval hi)%Q).
Proof.
  intros r c.
  destruct (support_resistance_result json_loads prices s Hload Hne Hok)
    as (Dsup & Dres & Osup & Ores & Hsup & Hres & Hst & Hfl & Hce & _ & Hsig).
  destruct (series_ok_cols s Hok) as (Hlo & Hhi & _).
  set (sup := firstn 3 (n_sorted (n_set (lastn 10 (map pp_low s))))) in *.
  set (res := lastn 3 (n_sorted (n_set (lastn 10 (map pp_high s))))) in *.
  exists sup, res, (hd (NInt 0) sup), (last res (NInt 0)).
  split; [apply (support_levels_num _ Hlo)|]. split; [exact Dsup|].
  split; [apply (resistance_levels_num _ Hhi)|]. split; [exact Dres|].
  split; [apply hd_In, Hsup|].
  split; [apply (hd_min_num sup Hsup (proj1 Dsup))|].
  split; [apply last_In, Hres|].
  split; [apply (last_max_num res (proj1 Dres))|].
  split; [exact Hst|]. split; [exact Hfl|]. split; [exact Hce|].
  unfold r. rewrite Hsig. fold c.
  set (lo := nval (hd (NInt 0) sup)). set (hi := nval (last res (NInt 0))). set (cv := nval c).
  destruct (Qlt_bool cv lo) eqn:E1; [|destruct (Qlt_bool hi cv) eqn:E2].
  - apply Qlt_bool_iff in E1.
    split; [split; [intros _; exact E1 | intros _; reflexivity]|].
    split; split; intro H; try discriminate; exfalso; destruct H as [H _];
      apply (Qlt_not_le _ _ E1 H).
  - apply Qlt_bool_iff in E2. apply Qlt_bool_false in E1.
    split; [split; intro H; [discriminate | exfalso; apply (Qlt_not_le _ _ H E1)]|].
    split; [split; [intros _; split; assumption | intros _; reflexivity]|].
    split; intro H; [discriminate|]. exfalso. destruct H as [_ H]. apply (Qlt_not_le _ _ E2 H).
  - apply Qlt_bool_false in E1. apply Qlt_bool_false in E2.
    split; [split; intro H; [discriminate | exfalso; apply (Qlt_not_le _ _ H E1)]|].
    split; [split; intro H; [discriminate | exfalso; destruct H as [_ H]; apply (Qlt_not_le _ _ H E2)]|].
    split; intros _; [split; assumption | reflexivity].
Qed.

(** ** Claim C10 *)
(** C10: on every non-empty series of finite numbers the support and
    resistance lists are non-empty and the tool succeeds; when every low
    equals [L], every high equals [H] and [L <= last close <= H], the signal
    is HOLD and floor_price and ceiling_price are [L] and [H] rounded to 2
    decimals. *)
Theorem support_resistance_nonempty_levels (json_loads : string -> Exc pyval) (prices : string)
  (s : list price_point)
  (Hload : json_loads prices = Ok (series_json s)) (Hne : s <> [])
  (Hok : series_ok s = true) :
  let r := analyze_support_resistance json_loads prices in
  (exists support resistance,
     support_levels_of (map PNum (map pp_low s)) = Ok (map PNum support) /\ support <> [] /\
     resistance_levels_of (map PNum (map pp_high s)) = Ok (map PNum resistance) /\
     resistance <> []) /\
  get "status" r = Some (PStr "success") /\
  (forall L H, (forall p, In p s -> pp_low p = L /\ pp_high p = H) ->
     (nval L <= nval (last_close s) <= nval H)%Q ->
     get "floor_price" r = Some (PNum (num_round2 L)) /\
     get "ceiling_price" r = Some (PNum (num_round2 H)) /\
     get "signal" r = Some (PStr "HOLD")).
Proof.
  intros r.
  destruct (support_resistance_result json_loads prices s Hload Hne Hok)
    as (Dsup & Dres & Osup & Ores & Hsup & Hres & Hst & Hfl & Hce & _ & Hsig).
  destruct (series_ok_cols s Hok) as (Hlo & Hhi & _).
  set (sup := firstn 3 (n_sorted (n_set (lastn 10 (map pp_low s))))) in *.
  set (res := lastn 3 (n_sorted (n_set (lastn 10 (map pp_high s))))) in *.
  split; [exists sup, res; split; [apply (support_levels_num _ Hlo)|]; split; [exact Hsup|];
          split; [apply (resistance_levels_num _ Hhi) | exact Hres]|].
  split; [exact Hst|].
  intros L H Hconst [HL HH].
  assert (Elo : hd (NInt 0) sup = L).
  { apply hd_In with (d := NInt 0) in Hsup. unfold sup in *.
    apply In_firstn, n_sorted_In, n_set_In, In_lastn, in_map_iff in Hsup.
    destruct Hsup as [p [<- Hp]]. apply Hconst, Hp. }
  assert (Ehi : last res (NInt 0) = H).
  { apply last_In with (d := NInt 0) in Hres. unfold res in *.
    apply In_lastn, n_sorted_In, n_set_In, In_lastn, in_map_iff in Hres.
    destruct Hres as [p [<- Hp]]. apply Hconst, Hp. }
  unfold r. rewrite Hfl, Hce, Hsig. unfold sup, res in *. rewrite Elo, Ehi.
  split; [reflexivity|]. split; [reflexivity|].
  destruct (Qlt_bool (nval (last_close s)) (nval L)) eqn:E1.
  { apply Qlt_bool_iff in E1. exfalso. apply (Qlt_not_le _ _ E1 HL). }
  destruct (Qlt_bool (nval H) (nval (last_close s))) eqn:E2.
  { apply Qlt_bool_iff in E2. exfalso. apply (Qlt_not_le _ _ E2 HH). }
  reflexivity.
Qed.

(** ** Extra X6 *)

(** On a non-empty series of finite numbers whose records have
    [low <= high]: floor and ceiling are ordered, BUY is only given at or
    below the floor and SELL only at or above the ceiling (all three prices
    as reported, rounded). *)
Theorem support_resistance_ordered (json_loads : string -> Exc pyval) (prices : string)
    (s : list price_point)
    (Hload : json_loads prices = Ok (series_json s)) (Hne : s <> [])
    (Hok : series_ok s = true)
    (Hlh : forall p, In p s -> (nval (pp_low p) <= nval (pp_high p))%Q) :
  let r := analyze_support_resistance json_loads prices in
  get "status" r = Some (PStr "success") /\
  exists f c cur,
    get "floor_price" r = Some (PNum f) /\ get "ceiling_price" r = Some (PNum c) /\
    get "current_price" r = Some (PNum cur) /\ num_leb f c = true /\
    (get "signal" r = Some (PStr "BUY") -> num_leb cur f = true) /\
    (get "signal" r = Some (PStr "SELL") -> num_leb c cur = true).
Proof.
  intros r.
  destruct (support_resistance_result json_loads prices s Hload Hne Hok)
    as (Dsup & Dres & Osup & Ores & Hsup & Hres & Hst & Hfl & Hce & Hcur & Hsig).
  destruct (series_ok_cols s Hok) as (Hlo & Hhi & _).
  set (sup := firstn 3 (n_sorted (n_set (lastn 10 (map pp_low s))))) in *.
  set (res := lastn 3 (n_sorted (n_set (lastn 10 (map pp_high s))))) in *.
  set (lo := hd (NInt 0) sup) in *. set (hi := last res (NInt 0)) in *.
  set (c := last_close s) in *.
  pose proof (hd_ok sup Osup Hsup) as Olo. fold lo in Olo.
  pose proof (last_ok res Ores Hres) as Ohi. fold hi in Ohi.
  pose proof (last_close_ok s Hok Hne) as Oc. fold c in Oc.
  set (pl := last s (PricePoint "" (NInt 0) (NInt 0) (NInt 0) (NInt 0) (NInt 0))).
  assert (Hlo' : (nval lo <= nval (pp_low pl))%Q).
  { unfold lo. rewrite (nval_hd sup Hsup).
    destruct (map nval sup) as [|x rr] eqn:Em; [destruct sup; [congruence|discriminate]|].
    destruct Dsup as (S & _ & _ & H). cbn [hd].
    assert (Hy : In (nval (pp_low pl)) (lastn 10 (map nval (map pp_low s)))).
    { unfold pl. rewrite <- (last_map' pp_low s _ (NInt 0) Hne).
      rewrite <- (last_map' nval (map pp_low s) _ 0%Q) by (destruct s; [congruence|discriminate]).
      apply last_In_lastn; [lia|]. destruct s; [congruence|discriminate]. }
    destruct (H _ Hy) as [[z [Hz E]] | [_ Hall]].
    - rewrite <- E. apply (sorted_hd_min x rr S z Hz).
    - apply Qlt_le_weak, Hall. left. reflexivity. }
  assert (Hhi' : (nval (pp_high pl) <= nval hi)%Q).
  { unfold hi. rewrite nval_last.
    destruct Dres as (S & _ & _ & H).
    assert (Hy : In (nval (pp_high pl)) (lastn 10 (map nval (map pp_high s)))).
    { unfold pl. rewrite <- (last_map' pp_high s _ (NInt 0) Hne).
      rewrite <- (last_map' nval (map pp_high s) _ 0%Q) by (destruct s; [congruence|discriminate]).
      apply last_In_lastn; [lia|]. destruct s; [congruence|discriminate]. }
    destruct (H _ Hy) as [[z [Hz E]] | [_ Hall]].
    - rewrite <- E. apply (sorted_last_max _ 0%Q S z Hz).
    - apply Qlt_le_weak, Hall. apply last_In. intro E. apply (f_equal (@length Q)) in E.
      rewrite length_map in E. destruct res; [congruence | discriminate]. }
  assert (Hpl : (nval (pp_low pl) <= nval (pp_high pl))%Q) by (apply Hlh; unfold pl; apply last_In, Hne).
  split; [exact Hst|]. exists (num_round2 lo), (num_round2 hi), (num_round2 c).
  split; [exact Hfl|]. split; [exact Hce|]. split; [exact Hcur|].
  split; [apply num_round2_mono; [exact Olo | exact Ohi | Lqa.lra]|].
  unfold r. rewrite Hsig. split; intro Hs.
  - destruct (Qlt_bool (nval c) (nval lo)) eqn:E.
    + apply Qlt_bool_iff in E. apply num_round2_mono; [exact Oc | exact Olo | Lqa.lra].
    + destruct (Qlt_bool (nval hi) (nval c)); discriminate.
  - destruct (Qlt_bool (nval c) (nval lo)) eqn:E; [discriminate|].
    destruct (Qlt_bool (nval hi) (nval c)) eqn:E2; [|discriminate].
    apply Qlt_bool_iff in E2. apply num_round2_mono; [exact Ohi | exact Oc | Lqa.lra].
Qed.

(** The ten-point ramp: lowest support 99, highest resistance 110, last close
    109, so the signal is HOLD. *)
Lemma support_resistance_levels_witness :
  demo_loads ramp10_text = Ok (series_json ramp10) /\ ramp10 <> [] /\ series_ok ramp10 = true /\
  get "signal" (analyze_support_resistance demo_loads ramp10_text) = Some (PStr "HOLD") /\
  exists support resistance lo hi,
    support_levels_of (map PNum (map pp_low ramp10)) = Ok (map PNum support) /\
    lowest_distinct 3 (map nval support) (lastn 10 (map nval (map pp_low ramp10))) /\
    resistance_levels_of (map PNum (map pp_high ramp10)) = Ok (map PNum resistance) /\
    highest_distinct 3 (map nval resistance) (lastn 10 (map nval (map pp_high ramp10))) /\
    In lo support /\ (forall x, In x support -> nval lo <= nval x)%Q /\
    In hi resistance /\ (forall x, In x resistance -> nval x <= nval hi)%Q /\
    get "status" (analyze_support_resistance demo_loads ramp10_text) = Some (PStr "success") /\
    get "floor_price" (analyze_support_resistance demo_loads ramp10_text) = Some (PNum (num_round2 lo)) /\
    get "ceiling_price" (analyze_support_resistance demo_loads ramp10_text) = Some (PNum (num_round2 hi)) /\
    (get "signal" (analyze_support_resistance demo_loads ramp10_text) = Some (PStr "BUY")
       <-> (nval (last_close ramp10) < nval lo)%Q) /\
    (get "signal" (analyze_support_resistance demo_loads ramp10_text) = Some (PStr "SELL")
       <-> (nval lo <= nval (last_close ramp10) /\ nval hi < nval (last_close ramp10))%Q) /\
    (get "signal" (analyze_support_resistance demo_loads ramp10_text) = Some (PStr "HOLD")
       <-> (nval lo <= nval (last_close ramp10) <= nval hi)%Q).
Proof.
  split; [reflexivity|]. split; [discriminate|]. split; [reflexivity|].
  split; [vm_compute; reflexivity|].
  apply (support_resistance_levels demo_loads ramp10_text ramp10); [reflexivity | discriminate | reflexivity].
Defined.

(** [fine2]: its only low is 1.234, yet floor_price is 1.23. *)
Lemma support_resistance_floor_rounded :
  support_levels_of (map PNum (map pp_low fine2)) = Ok [PNum (dec 1234 (-3))] /\
  get "floor_price" (analyze_support_resistance demo_loads fine2_text) = Some (PNum (dec 123 (-2))) /\
  ~ (nval (dec 123 (-2)) == nval (dec 1234 (-3)))%Q.
Proof.
  split; [vm_compute; reflexivity|]. split; [vm_compute; reflexivity|].
  intro E. vm_compute in E. discriminate.
Qed.

(** [fine2] is degenerate (all lows 1.234, all highs 2.5): HOLD, with the
    levels rounded. *)
Lemma support_resistance_nonempty_levels_witness :
  demo_loads fine2_text = Ok (series_json fine2) /\ fine2 <> [] /\ series_ok fine2 = true /\
  get "floor_price" (analyze_support_resistance demo_loads fine2_text) = Some (PNum (num_round2 (dec 1234 (-3)))) /\
  get "ceiling_price" (analyze_support_resistance demo_loads fine2_text) = Some (PNum (num_round2 (dec 25 (-1)))) /\
  get "signal" (analyze_support_resistance demo_loads fine2_text) = Some (PStr "HOLD").
Proof.
  assert (H1 : demo_loads fine2_text = Ok (series_json fine2)) by reflexivity.
  assert (H2 : fine2 <> []) by discriminate.
  assert (H3 : series_ok fine2 = true) by (vm_compute; reflexivity).
  split; [exact H1|]. split; [exact H2|]. split; [exact H3|].
  apply (proj2 (proj2 (support_resistance_nonempty_levels demo_loads fine2_text fine2 H1 H2 H3))).
  - intros p Hp. simpl in Hp. destruct Hp as [<- | [<- | []]]; split; reflexivity.
  - split; vm_compute; discriminate.
Defined.

(** [fine2] satisfies the degenerate case with [L = 1.234] and [H = 2.5], yet
    floor_price is 1.23, not [L]. *)
Lemma support_resistance_degenerate_rounded :
  (forall p, In p fine2 -> pp_low p = dec 1234 (-3) /\ pp_high p = dec 25 (-1)) /\
  (nval (dec 1234 (-3)) <= nval (last_close fine2) <= nval (dec 25 (-1)))%Q /\
  get "floor_price" (analyze_support_resistance demo_loads fine2_text) = Some (PNum (dec 123 (-2))) /\
  ~ (nval (dec 123 (-2)) == nval (dec 1234 (-3)))%Q.
Proof.
  split; [intros p Hp; simpl in Hp; destruct Hp as [<- | [<- | []]]; split; reflexivity|].
  split; [split; vm_compute; discriminate|].
  split; [vm_compute; reflexivity|].
  intro E. vm_compute in E. discriminate.
Qed.

Lemma support_resistance_ordered_witness :
  let r := analyze_support_resistance demo_loads spike5_text in
  get "status" r = Some (PStr "success") /\
  exists f c cur,
    get "floor_price" r = Some (PNum f) /\ get "ceiling_price" r = Some (PNum c) /\
    get "current_price" r = Some (PNum cur) /\ num_leb f c = true /\
    (get "signal" r = Some (PStr "BUY") -> num_leb cur f = true) /\
    (get "signal" r = Some (PStr "SELL") -> num_leb c cur = true).
Proof.
  apply (support_resistance_ordered demo_loads spike5_text spike5).
  - reflexivity.
  - discriminate.
  - reflexivity.
  - intros p Hp. repeat (destruct Hp as [<-|Hp]; [vm_compute; discriminate|]). destruct Hp.
Defined.


(** ** C1: the report embeds the clock *)

(** C1 (amended). Whatever [str.upper] does, the report is [report_head],
    the upper-cased symbol, [report_symbol_tail], the timestamp read from
    the clock, [report_banner_tail], the analysis text verbatim and the
    fixed footer [report_footer]; two calls with the same symbol and
    analysis text give the same text exactly when the clock gives the same
    timestamp. *)
Theorem generate_report_layout (py_upper : string -> string) (now symbol analysis_data : string) :
  generate_report py_upper now symbol analysis_data =
    report_head ++ py_upper symbol ++ report_symbol_tail ++ now
    ++ report_banner_tail ++ analysis_data ++ report_footer
  /\ (forall now', generate_report py_upper now' symbol analysis_data
                   = generate_report py_upper now symbol analysis_data <-> now' = now).
Proof.
  split; [reflexivity|]. intro now'. split; [|intros ->; reflexivity].
  unfold generate_report. intro H.
  apply string_app_cancel_l in H. apply string_app_cancel_l in H.
  apply string_app_cancel_l in H.
  apply (string_app_cancel_r now' now (report_banner_tail ++ analysis_data ++ report_footer)).
  exact H.
Qed.

(** C1 (counterexample). Two calls with the same symbol and analysis text,
    one second apart, produce different reports. *)
Lemma generate_report_not_reproducible :
  generate_report ascii_upper_str "2026-10-19 10:00:00" "aapl" "Trend: BULLISH"
  <> generate_report ascii_upper_str "2026-10-19 10:00:01" "aapl" "Trend: BULLISH".
Proof. vm_compute. discriminate. Qed.

(** ** C4: no fault escapes a tool *)

Lemma tool_boundary_ok (body : Exc pyval) :
  exc_all tool_result_ok body -> tool_result_ok (tool_boundary body).
Proof.
  destruct body as [e|v]; simpl; auto.
  intros _. right. split; [reflexivity | eexists; reflexivity].
Qed.

Ltac exc_walk :=
  repeat first
    [ apply exc_all_bind; intros ?a ?Ha
    | progress cbv zeta
    | match goal with |- exc_all _ (if ?c then _ else _) => destruct c end
    | match goal with |- exc_all _ (match ?p with pair _ _ => _ end) => destruct p end
    | match goal with |- exc_all _ (Ok _) => cbn; left; reflexivity end ].

Section Boundary.
Variable json_loads : string -> Exc pyval.
Variable py_str : pyval -> string.
Variable py_fixed : nat -> num -> string.
Variable fsum_tail : double -> list num -> double.
Variable libm_pow : double -> double -> double * bool.

Lemma moving_average_body_ok (data : pyval) (window : Z) :
  exc_all tool_result_ok (moving_average_body py_str fsum_tail data window).
Proof.
  unfold moving_average_body. exc_walk.
  cbn. right. split; [reflexivity | eexists; reflexivity].
Qed.

Lemma volatility_body_ok (data : pyval) :
  exc_all tool_result_ok (volatility_body fsum_tail libm_pow data).
Proof. unfold volatility_body. exc_walk. Qed.

Lemma predict_body_ok (data : pyval) (fd : Z) :
  exc_all tool_result_ok (predict_body py_str py_fixed fsum_tail libm_pow data fd).
Proof. unfold predict_body. exc_walk. Qed.

Lemma support_resistance_body_ok (data : pyval) :
  exc_all tool_result_ok (support_resistance_body data).
Proof. unfold support_resistance_body. exc_walk. Qed.

End Boundary.

(** C4. For every input text (whatever [json.loads] makes of it), every
    parameter, every float loop of [sum] and every C [pow], each of the five
    transforms returns a dict whose [status] is ["success"], or ["failed"]
    with an [error] message: no exception escapes the tool. *)
Theorem transforms_trap_faults
    (json_loads : string -> Exc pyval) (py_str : pyval -> string)
    (py_fixed : nat -> num -> string) (fsum_tail : double -> list num -> double)
    (libm_pow : double -> double -> double * bool)
    (prices : string) (window forecast_days days_back : Z) :
  tool_result_ok (calculate_moving_average json_loads py_str fsum_tail prices window)
  /\ tool_result_ok (calculate_volatility json_loads fsum_tail libm_pow prices)
  /\ tool_result_ok (predict_trend json_loads py_str py_fixed fsum_tail libm_pow prices forecast_days)
  /\ tool_result_ok (analyze_support_resistance json_loads prices)
  /\ tool_result_ok (analyze_price_movement json_loads py_fixed fsum_tail prices days_back).
Proof.
  repeat split; apply tool_boundary_ok; apply exc_all_bind; intros data _.
  - apply moving_average_body_ok.
  - apply volatility_body_ok.
  - apply predict_body_ok.
  - apply support_resistance_body_ok.
  - apply exc_all_bind; intros r _. cbn. left. reflexivity.
Qed.


(** No run of [app.py] shows a prediction: the page never reaches the
    "Prediction Result" subheader nor writes a result. Pressing the button
    with an empty ticker shows the warning; with a non-empty ticker the
    script stops with the [NameError] raised by [run_prediction]; without a
    press only the inputs are shown. *)
Theorem app_page_outcomes (ticker : string) (horizon : Z) (pressed : bool) :
  let (ws, err) := app_page ticker horizon pressed in
  ~ In (Subheader "Prediction Result") ws /\ (forall v, ~ In (Write v) ws) /\
  (In (Warning "Please enter a ticker.") ws <-> pressed = true /\ ticker = "") /\
  (err = None <-> pressed = false \/ ticker = "") /\
  (pressed = true -> ticker <> "" ->
   err = Some (Exn "NameError" "name 'output' is not defined")).
Proof.
  unfold app_page, run_prediction.
  destruct pressed; [destruct (String.eqb ticker "") eqn:E|].
  - apply String.eqb_eq in E. subst ticker.
    split; [cbn; intuition discriminate|]. split; [cbn; intros v; intuition discriminate|].
    split; [split; [intros _; split; reflexivity | intros _; cbn; tauto]|].
    split; [split; [intros _; right; reflexivity | reflexivity]|].
    intros _ H; congruence.
  - apply String.eqb_neq in E.
    split; [cbn; intuition discriminate|]. split; [cbn; intros v; intuition discriminate|].
    split; [split; [cbn; intuition discriminate | intros [_ H]; congruence]|].
    split; [split; [discriminate | intros [H|H]; congruence]|].
    intros _ _. reflexivity.
  - split; [cbn; intuition discriminate|]. split; [cbn; intros v; intuition discriminate|].
    split; [split; [cbn; intuition discriminate | intros [H _]; discriminate]|].
    split; [split; [intros _; left; reflexivity | reflexivity]|].
    intros H; discriminate.
Qed.

(** [calculate_moving_average] with [window = 0] fails with a division by
    zero, whatever the series (the first average divides the int 0 by the
    int 0). *)
Theorem moving_average_zero_window (json_loads : string -> Exc pyval)
    (py_str : pyval -> string) (fsum_tail : double -> list num -> double)
    (prices : string) (s : list price_point)
    (Hload : json_loads prices = Ok (series_json s)) :
  let r := calculate_moving_average json_loads py_str fsum_tail prices 0 in
  get "status" r = Some (PStr "failed") /\ get "error" r = Some (PStr "division by zero").
Proof.
  cbv zeta. unfold calculate_moving_average. rewrite Hload. cbn [bind].
  unfold moving_average_body. change (unwrap_data (series_json s)) with (series_json s).
  rewrite column_close. cbn [bind]. rewrite !length_map.
  rewrite (proj2 (Z.ltb_ge _ _)) by lia.
  replace (Z.of_nat (length s) - 0 + 1) with (Z.of_nat (S (length s))) by lia.
  unfold zrange. rewrite Z.sub_0_r, Nat2Z.id. cbn [seq map mapM].
  unfold window_average. rewrite py_slice_nil by lia. split; reflexivity.
Qed.

Lemma moving_average_zero_window_witness :
  let r := calculate_moving_average demo_loads any_str fsum_naive ramp10_text 0 in
  get "status" r = Some (PStr "failed") /\ get "error" r = Some (PStr "division by zero").
Proof. apply (moving_average_zero_window demo_loads any_str fsum_naive ramp10_text ramp10). reflexivity. Defined.

(** On input whose data list is empty every tool fails: the moving average
    with "Not enough data points" for a positive window, a division by zero
    for the window 0 and an index error for a negative one; volatility and
    trend with a division by zero; support/resistance and price movement
    with an index error. *)
Theorem tools_fail_on_empty_series (json_loads : string -> Exc pyval)
    (py_str : pyval -> string) (py_fixed : nat -> num -> string)
    (fsum_tail : double -> list num -> double) (libm_pow : double -> double -> double * bool)
    (prices : string) (d : pyval) (window forecast_days days_back : Z)
    (Hload : json_loads prices = Ok d) (Hempty : unwrap_data d = PList []) :
  let ma := calculate_moving_average json_loads py_str fsum_tail prices window in
  get "status" ma = Some (PStr "failed") /\
  get "error" ma = Some (PStr (if 0 <? window then "Not enough data points"
                               else if window =? 0 then "division by zero"
                               else "list index out of range")) /\
  calculate_volatility json_loads fsum_tail libm_pow prices
    = PDict [("error", PStr "division by zero"); ("status", PStr "failed")] /\
  predict_trend json_loads py_str py_fixed fsum_tail libm_pow prices forecast_days
    = PDict [("error", PStr "division by zero"); ("status", PStr "failed")] /\
  analyze_support_resistance json_loads prices
    = PDict [("error", PStr "list index out of range"); ("status", PStr "failed")] /\
  analyze_price_movement json_loads py_fixed fsum_tail prices days_back
    = PDict [("error", PStr "list index out of range"); ("status", PStr "failed")].
Proof.
  cbv zeta.
  assert (Hnil : forall (st sp : option Z), py_slice (@nil pyval) st sp = []).
  { intros st sp. unfold py_slice. rewrite skipn_nil, firstn_nil. reflexivity. }
  unfold calculate_moving_average, calculate_volatility, predict_trend,
    analyze_support_resistance, analyze_price_movement.
  rewrite Hload. cbn [bind].
  unfold moving_average_body, volatility_body, predict_body, support_resistance_body,
    movement_analysis, movement_metrics_of, closes_volatility.
  rewrite Hempty.
  split; [|split]; [| |split; [reflexivity|split; [reflexivity|split; [reflexivity|]]]].
  3:{ unfold recent_window. cbn [py_len length Z.of_nat bind].
      destruct (days_back <=? 0); [cbn [py_slice_val]; rewrite Hnil|]; reflexivity. }
  all: cbn [column py_iter mapM bind length Z.of_nat].
  all: destruct (Z.ltb_spec 0 window) as [Hw|Hw]; [reflexivity|].
  all: destruct (Z.eqb_spec window 0) as [->|Hw0]; [reflexivity|].
  all: rewrite (mapM_ok_map _ (fun _ => NFloat (DZero true)));
    [reflexivity|intros i _; unfold window_average; rewrite Hnil; cbn [py_sum sum_loop bind num_truediv];
                 unfold int_truediv; rewrite (proj2 (Z.eqb_neq window 0) Hw0);
                 rewrite (proj2 (Z.ltb_lt window 0)) by lia; reflexivity].
Qed.

Lemma tools_fail_on_empty_series_witness :
  let ma := calculate_moving_average empty_loads any_str fsum_naive "{}" 7 in
  get "status" ma = Some (PStr "failed") /\
  get "error" ma = Some (PStr (if 0 <? 7 then "Not enough data points"
                               else if 7 =? 0 then "division by zero"
                               else "list index out of range")) /\
  calculate_volatility empty_loads fsum_naive pow_nearest "{}"
    = PDict [("error", PStr "division by zero"); ("status", PStr "failed")] /\
  predict_trend empty_loads any_str any_fixed fsum_naive pow_nearest "{}" 5
    = PDict [("error", PStr "division by zero"); ("status", PStr "failed")] /\
  analyze_support_resistance empty_loads "{}"
    = PDict [("error", PStr "list index out of range"); ("status", PStr "failed")] /\
  analyze_price_movement empty_loads any_fixed fsum_naive "{}" 5
    = PDict [("error", PStr "list index out of range"); ("status", PStr "failed")].
Proof.
  apply (tools_fail_on_empty_series _ any_str any_fixed fsum_naive pow_nearest "{}"
           (PDict [("data", PList [])]) 7 5 5).
  - reflexivity.
  - reflexivity.
Defined.


(** ** Sums and quotients of integers *)

Lemma mapM_app {A B : Type} (f : A -> Exc B) (l1 l2 : list A) :
  mapM f (l1 ++ l2) = (let* a := mapM f l1 in let* b := mapM f l2 in Ok (a ++ b)%list).
Proof.
  induction l1 as [|x l1 IH]; cbn [app mapM].
  - destruct (mapM f l2); reflexivity.
  - destruct (f x); cbn [bind]; [reflexivity|]. rewrite IH.
    destruct (mapM f l1); cbn [bind]; [reflexivity|]. destruct (mapM f l2); reflexivity.
Qed.

Lemma mapM_snoc_inv {A B : Type} (f : A -> Exc B) (l : list A) (x : A) (ys : list B) :
  mapM f (l ++ [x])%list = Ok ys -> exists y, f x = Ok y /\ py_index ys (-1) = Ok y.
Proof.
  rewrite mapM_app. destruct (mapM f l) as [e|a]; cbn [bind]; [discriminate|].
  cbn [mapM]. destruct (f x) as [e|y]; cbn [bind]; [discriminate|].
  intro H. injection H as <-. exists y. split; [reflexivity | apply py_index_last].
Qed.

Lemma mapM_ok_all {A B : Type} (f : A -> Exc B) (l : list A) :
  (forall x, In x l -> exists y, f x = Ok y) -> exists ys, mapM f l = Ok ys.
Proof.
  induction l as [|x l IH]; intro H; [exists []; reflexivity|].
  destruct (H x (or_introl eq_refl)) as [y Hy].
  destruct IH as [ys Hys]; [intros z Hz; apply H; right; exact Hz|].
  exists (y :: ys). cbn [mapM]. rewrite Hy, Hys. reflexivity.
Qed.

Lemma all_ints_map (l : list num) (zs : list Z) : all_ints l = Some zs -> l = map NInt zs.
Proof.
  revert zs. induction l as [|[z|d] l IH]; cbn [all_ints]; intros zs H.
  - injection H as <-. reflexivity.
  - destruct (all_ints l) as [zs'|] eqn:E; [|discriminate].
    injection H as <-. rewrite (IH zs' eq_refl). reflexivity.
  - discriminate.
Qed.

Lemma sum_loop_ints (f : double -> list num -> double) (fast : bool) (acc : Z) (zs : list Z) :
  sum_loop f fast acc (map PNum (map NInt zs)) = Ok (NInt (fold_left Z.add zs acc)).
Proof. revert fast acc. induction zs as [|z zs IH]; intros fast acc; [reflexivity|]. apply IH. Qed.

Lemma fold_add_bound (B : Z) (zs : list Z) (acc : Z) :
  (forall z, In z zs -> Z.abs z <= B) ->
  Z.abs (fold_left Z.add zs acc) <= Z.abs acc + Z.of_nat (length zs) * B.
Proof.
  revert acc. induction zs as [|z zs IH]; intros acc H; cbn [fold_left length]; [lia|].
  specialize (IH (acc + z) (fun y Hy => H y (or_intror Hy))).
  specialize (H z (or_introl eq_refl)). lia.
Qed.

Lemma In_skipn {A : Type} (k : nat) (l : list A) (x : A) : In x (skipn k l) -> In x l.
Proof. intro H. rewrite <- (firstn_skipn k l). apply in_or_app. right. exact H. Qed.

Lemma In_py_slice {A : Type} (l : list A) (a b : option Z) (x : A) :
  In x (py_slice l a b) -> In x l.
Proof. unfold py_slice. intro H. apply In_firstn, In_skipn in H. exact H. Qed.

Lemma length_py_slice {A : Type} (l : list A) (a b : option Z) :
  (length (py_slice l a b) <= length l)%nat.
Proof. unfold py_slice. rewrite length_firstn, length_skipn. lia. Qed.

Lemma qsum_fold (l : list Z) (acc : Z) :
  (fold_left Qplus (map inject_Z l) (inject_Z acc) == inject_Z (fold_left Z.add l acc))%Q.
Proof.
  revert acc. induction l as [|z l IH]; intro acc; cbn [map fold_left]; [reflexivity|].
  rewrite <- IH. rewrite inject_Z_plus. reflexivity.
Qed.

Lemma qsum_ints (l : list Z) : (qsum (map inject_Z l) == inject_Z (fold_left Z.add l 0%Z))%Q.
Proof. apply (qsum_fold l 0). Qed.

Lemma Qabs_div_int_le (a b : Z) : b <> 0 -> (Qabs (inject_Z a / inject_Z b) <= inject_Z (Z.abs a))%Q.
Proof.
  intro Hb. unfold Qdiv. rewrite Qabs_Qmult, Qabs_Qinv.
  change (inject_Z a) with (a # 1). change (inject_Z b) with (b # 1).
  rewrite <- !Zabs_Qabs. change (Z.abs a # 1) with (inject_Z (Z.abs a)).
  change (Z.abs b # 1) with (inject_Z (Z.abs b)).
  assert (Hb1 : (1 <= inject_Z (Z.abs b))%Q) by (change 1%Q with (inject_Z 1); rewrite <- Zle_Qle; lia).
  assert (Ha0 : (0 <= inject_Z (Z.abs a))%Q) by (change 0%Q with (inject_Z 0); rewrite <- Zle_Qle; lia).
  apply Qle_shift_div_r; [Lqa.lra|].
  rewrite <- (Qmult_1_r (inject_Z (Z.abs a))) at 1. rewrite !(Qmult_comm (inject_Z (Z.abs a))). apply Qmult_le_compat_r; assumption.
Qed.

Lemma int_div_sign (a b : Z) :
  0 < b -> dround (xorb (a <? 0) (b <? 0)) (inject_Z a / inject_Z b)%Q = D (inject_Z a / inject_Z b)%Q.
Proof.
  intro Hb. unfold D, dround. destruct (Qeq_bool _ 0) eqn:E; [|reflexivity].
  rewrite (proj2 (Z.ltb_ge b 0)) by lia. destruct (Z.ltb_spec a 0) as [Ha|Ha]; [|reflexivity].
  exfalso. apply Qeq_bool_eq in E.
  assert (Hbq : ~ (inject_Z b == 0)%Q).
  { intro H. apply Qeq_bool_iff in H. rewrite inject_Z_nonzero in H by lia. discriminate. }
  assert (H : (inject_Z a == inject_Z a / inject_Z b * inject_Z b)%Q) by (field; exact Hbq).
  rewrite E, Qmult_0_l in H. assert (H0 : (inject_Z a == inject_Z 0)%Q) by (rewrite H; reflexivity).
  apply (proj1 (inject_Z_injective a 0)) in H0. lia.
Qed.

(** [a / b] of two ints of moderate size returns the nearest double. *)
Lemma int_truediv_ok (a b : Z) :
  b <> 0 -> Z.abs a <= 2 ^ 1000 ->
  exists d, int_truediv a b = Ok d /\ (0 < b -> d = D (inject_Z a / inject_Z b)%Q).
Proof.
  intros Hb Ha. unfold int_truediv. rewrite (proj2 (Z.eqb_neq b 0) Hb).
  assert (Hq : (Qabs (inject_Z a / inject_Z b) <= 2 ^ 1000)%Q).
  { apply Qle_trans with (inject_Z (Z.abs a)); [apply Qabs_div_int_le; exact Hb|].
    rewrite (p2_Z 1000) by lia. rewrite <- Zle_Qle. exact Ha. }
  pose proof (dround_finite (xorb (a <? 0) (b <? 0)) _ Hq) as Hf.
  pose proof (int_div_sign a b) as Hs.
  destruct (dround _ _) as [s|s m e|s|] eqn:E; try discriminate Hf;
    (eexists; split; [reflexivity | intro Hb0; rewrite <- (Hs Hb0); reflexivity]).
Qed.

(** ** [calculate_moving_average] on a series *)

(** The window averages of integer closes of moderate size are returned
    normally; with a positive window, before rounding to 2 decimals, each
    is the double nearest to the exact mean of its window. *)
Lemma window_average_ints (fsum_tail : double -> list num -> double) (zs : list Z) (w i : Z) :
  w <> 0 -> (forall z, In z zs -> Z.abs z <= 2 ^ 900) -> Z.of_nat (length zs) <= 2 ^ 64 ->
  exists d, window_average fsum_tail (map PNum (map NInt zs)) w i = Ok (NFloat (round2_double d)) /\
    (0 < w -> d = D (inject_Z (fold_left Z.add (py_slice zs (Some i) (Some (i + w)%Z)) 0%Z)
                     / inject_Z w)%Q).
Proof.
  intros Hw Hz Hn. unfold window_average, py_sum. rewrite !py_slice_map, sum_loop_ints.
  cbn [bind num_truediv].
  assert (Hb : Z.abs (fold_left Z.add (py_slice zs (Some i) (Some (i + w))) 0) <= 2 ^ 1000).
  { pose proof (fold_add_bound (2 ^ 900) (py_slice zs (Some i) (Some (i + w))) 0
                  (fun z H => Hz z (In_py_slice _ _ _ _ H))) as H.
    pose proof (length_py_slice zs (Some i) (Some (i + w))) as L.
    assert (P : 2 ^ 1000 = 2 ^ 100 * 2 ^ 900) by reflexivity.
    assert (P2 : 2 ^ 64 <= 2 ^ 100) by (apply Z.pow_le_mono_r; lia).
    assert (P3 : 0 < 2 ^ 900) by (apply Z.pow_pos_nonneg; lia).
    nia. }
  destruct (int_truediv_ok _ w Hw Hb) as (d & Hd & Hd'). rewrite Hd. cbn [bind].
  exists d. split; [reflexivity | exact Hd'].
Qed.

Lemma fold_add_comm (l : list Z) (acc : Z) : fold_left Z.add l acc = acc + fold_left Z.add l 0.
Proof.
  revert acc. induction l as [|z l IH]; intro acc; cbn [fold_left]; [lia|].
  rewrite IH, (IH (0 + z)). lia.
Qed.

Lemma closes_column (s : list price_point) :
  column (series_json s) "close" = Ok (map PNum (closes_of s)).
Proof. apply column_close. Qed.

Lemma length_closes (s : list price_point) : length (map PNum (closes_of s)) = length s.
Proof. unfold closes_of. rewrite !length_map. reflexivity. Qed.

Lemma last_closes (s : list price_point) :
  s <> [] -> py_index (map PNum (closes_of s)) (-1) = Ok (PNum (last_close s)).
Proof.
  intro H. assert (Hc : map PNum (closes_of s) <> []).
  { unfold closes_of. destruct s; [congruence | discriminate]. }
  rewrite (py_index_last' _ PNone Hc). f_equal. unfold last_close.
  apply last_map'. unfold closes_of. destruct s; [congruence | discriminate].
Qed.

Lemma py_index_nil {A : Type} (i : Z) : py_index (@nil A) i = Raise index_error.
Proof. unfold py_index. cbn [length Z.of_nat]. destruct (i <? 0), (_ <? 0); try reflexivity; rewrite nth_error_nil; reflexivity. Qed.

(** A successful [calculate_moving_average] compares the latest close with
    the last window average. *)
Lemma moving_average_success (py_str : pyval -> string) (fsum_tail : double -> list num -> double)
    (s : list price_point) (w : Z) :
  get "status" (tool_boundary (moving_average_body py_str fsum_tail (series_json s) w))
    = Some (PStr "success") ->
  w <= Z.of_nat (length s) /\ s <> [] /\
  exists y,
    window_average fsum_tail (map PNum (closes_of s)) w (Z.of_nat (length s) - w) = Ok y /\
    let r := tool_boundary (moving_average_body py_str fsum_tail (series_json s) w) in
    get "current_price" r = Some (PNum (last_close s)) /\ get "average_price" r = Some (PNum y) /\
    get "trend" r = Some (PStr (if num_ltb y (last_close s) then "BULLISH" else "BEARISH")).
Proof.
  unfold moving_average_body. change (unwrap_data (series_json s)) with (series_json s).
  rewrite closes_column. cbn [bind]. rewrite length_closes.
  destruct (Z.ltb_spec (Z.of_nat (length s)) w) as [Hlt|Hge]; [intro H; discriminate H|].
  rewrite zrange_snoc by lia. rewrite mapM_app.
  destruct (mapM _ (zrange 0 (Z.of_nat (length s) - w))) as [e|a]; cbn [bind];
    [intro H; discriminate H|].
  cbn [mapM]. destruct (window_average _ _ w (Z.of_nat (length s) - w)) as [e|y] eqn:Hy;
    cbn [bind]; [intro H; discriminate H|].
  destruct s as [|p s'] eqn:Es.
  { cbn [closes_of map]. rewrite py_index_nil. cbn [bind]. intro H; discriminate H. }
  rewrite <- Es in Hge |- *. assert (Hne : s <> []) by (rewrite Es; discriminate).
  rewrite (last_closes s Hne), py_index_last. cbn [bind py_gt as_num].
  intros _. split; [lia|]. split; [exact Hne|]. exists y. split; [reflexivity|].
  split; [reflexivity|]. split; reflexivity.
Qed.

(** With integer closes of moderate size and [w <= n], the call succeeds. *)
Lemma moving_average_ints_ok (py_str : pyval -> string) (fsum_tail : double -> list num -> double)
    (s : list price_point) (w : Z) (zs : list Z) :
  closes_of s = map NInt zs -> w <> 0 -> w <= Z.of_nat (length s) -> s <> [] ->
  (forall z, In z zs -> Z.abs z <= 2 ^ 900) -> Z.of_nat (length s) <= 2 ^ 64 ->
  exists d,
    (0 < w -> d = D (inject_Z (fold_left Z.add (lastn (Z.to_nat w) zs) 0%Z) / inject_Z w)%Q) /\
    let r := tool_boundary (moving_average_body py_str fsum_tail (series_json s) w) in
    get "status" r = Some (PStr "success") /\
    get "average_price" r = Some (PNum (NFloat (round2_double d))).
Proof.
  intros Hz Hw0 Hw Hne Hb Hn.
  assert (Hlen : length zs = length s).
  { rewrite <- (length_map NInt zs), <- Hz. unfold closes_of. apply length_map. }
  destruct (window_average_ints fsum_tail zs w (Z.of_nat (length s) - w) Hw0 Hb ltac:(lia))
    as (d & Hd & Hd').
  exists d. split.
  - intro Hp. rewrite (Hd' Hp). rewrite <- Hlen.
    replace (Z.of_nat (length zs) - w + w) with (Z.of_nat (length zs)) by lia.
    rewrite py_slice_lastn by lia. reflexivity.
  - unfold moving_average_body. change (unwrap_data (series_json s)) with (series_json s).
    rewrite closes_column. cbn [bind]. rewrite length_closes, (proj2 (Z.ltb_ge _ _) Hw).
    rewrite (last_closes s Hne), Hz.
    rewrite zrange_snoc by lia. rewrite mapM_app.
    destruct (mapM_ok_all (window_average fsum_tail (map PNum (map NInt zs)) w)
                (zrange 0 (Z.of_nat (length s) - w))) as [a Ha].
    { intros i _. destruct (window_average_ints fsum_tail zs w i Hw0 Hb ltac:(lia))
        as (d' & Hd'' & _). eauto. }
    rewrite Ha. cbn [bind mapM]. rewrite Hd. cbn [bind]. rewrite py_index_last.
    cbn [bind py_gt as_num]. split; reflexivity.
Qed.


(** ** Claim C5 *)
(** C5: for a window [w >= 1], [calculate_moving_average] fails with
    ["Not enough data points"] when the series has fewer than [w] closes.
    When it succeeds, [average_price] is [round(sum(last w closes) / w, 2)]
    computed with Python's [sum] and [/] on the closes (floating point as
    soon as a float is involved), [current_price] is the latest close, and
    [trend] is ["BULLISH"] exactly when the latest close is greater than that
    rounded average, ["BEARISH"] otherwise. For integer closes of moderate
    size and [w <= n] the call succeeds and [average_price] is the double
    nearest to the exact simple moving average, rounded to 2 decimals. *)
Theorem moving_average_trend (json_loads : string -> Exc pyval) (py_str : pyval -> string)
    (fsum_tail : double -> list num -> double) (prices : string) (s : list price_point) (w : Z)
    (Hload : json_loads prices = Ok (series_json s)) (Hw : 1 <= w) :
  let r := calculate_moving_average json_loads py_str fsum_tail prices w in
  (Z.of_nat (length s) < w ->
     r = PDict [("error", PStr "Not enough data points"); ("status", PStr "failed")]) /\
  (get "status" r = Some (PStr "success") ->
     w <= Z.of_nat (length s) /\
     exists total avg,
       py_sum fsum_tail (map PNum (lastn (Z.to_nat w) (closes_of s))) = Ok total /\
       num_truediv total (NInt w) = Ok avg /\
       get "current_price" r = Some (PNum (last_close s)) /\
       get "average_price" r = Some (PNum (num_round2 avg)) /\
       get "trend" r = Some (PStr (if num_ltb (num_round2 avg) (last_close s)
                                   then "BULLISH" else "BEARISH"))) /\
  (forall zs, all_ints (closes_of s) = Some zs -> w <= Z.of_nat (length s) ->
     (forall z, In z zs -> Z.abs z <= 2 ^ 900) -> Z.of_nat (length s) <= 2 ^ 64 ->
     get "status" r = Some (PStr "success") /\
     get "average_price" r
       = Some (PNum (NFloat (round2_double (D (sma (Z.to_nat w) (map inject_Z zs))))))).
Proof.
  cbv zeta. unfold calculate_moving_average. rewrite Hload. cbn [bind].
  split; [|split].
  - intro Hlt. unfold moving_average_body. change (unwrap_data (series_json s)) with (series_json s).
    rewrite closes_column. cbn [bind]. rewrite length_closes, (proj2 (Z.ltb_lt _ _) Hlt).
    reflexivity.
  - intro H. destruct (moving_average_success py_str fsum_tail s w H)
      as (Hge & Hne & y & Hy & Hc & Ha & Ht).
    split; [exact Hge|]. unfold window_average in Hy.
    assert (Hsl : py_slice (map PNum (closes_of s)) (Some (Z.of_nat (length s) - w))
                    (Some (Z.of_nat (length s) - w + w))
                  = map PNum (lastn (Z.to_nat w) (closes_of s))).
    { rewrite <- lastn_map, <- (length_closes s).
      replace (Z.of_nat (length (map PNum (closes_of s))) - w + w)
        with (Z.of_nat (length (map PNum (closes_of s)))) by lia.
      apply py_slice_lastn. rewrite length_closes. lia. }
    rewrite Hsl in Hy.
    destruct (py_sum fsum_tail _) as [e|total] eqn:Hsum; cbn [bind] in Hy; [discriminate|].
    destruct (num_truediv total (NInt w)) as [e|avg] eqn:Hdiv; cbn [bind] in Hy; [discriminate|].
    injection Hy as <-. exists total, avg. repeat split; assumption.
  - intros zs Hzs Hle Hb Hn.
    assert (Hne : s <> []) by (intro E; subst s; cbn in Hle; lia).
    destruct (moving_average_ints_ok py_str fsum_tail s w zs (all_ints_map _ _ Hzs)
                ltac:(lia) Hle Hne Hb Hn) as (d & Hd & Hst & Hav).
    split; [exact Hst|]. rewrite Hav, (Hd ltac:(lia)). unfold sma, D.
    do 4 f_equal. apply dround_comp.
    rewrite lastn_map, qsum_ints, Z2Nat.id by lia. reflexivity.
Qed.

(** [ramp10] with a 7-day window: the average of the closes 103 .. 109 is
    106 and the latest close 109 is above it. *)
Lemma moving_average_trend_witness :
  get "average_price" (calculate_moving_average demo_loads any_str fsum_naive ramp10_text 7)
    = Some (PNum (NFloat (D 106))) /\
  get "trend" (calculate_moving_average demo_loads any_str fsum_naive ramp10_text 7)
    = Some (PStr "BULLISH") /\
  let r := calculate_moving_average demo_loads any_str fsum_naive ramp10_text 7 in
  (Z.of_nat (length ramp10) < 7 ->
     r = PDict [("error", PStr "Not enough data points"); ("status", PStr "failed")]) /\
  (get "status" r = Some (PStr "success") ->
     7 <= Z.of_nat (length ramp10) /\
     exists total avg,
       py_sum fsum_naive (map PNum (lastn (Z.to_nat 7) (closes_of ramp10))) = Ok total /\
       num_truediv total (NInt 7) = Ok avg /\
       get "current_price" r = Some (PNum (last_close ramp10)) /\
       get "average_price" r = Some (PNum (num_round2 avg)) /\
       get "trend" r = Some (PStr (if num_ltb (num_round2 avg) (last_close ramp10)
                                   then "BULLISH" else "BEARISH"))) /\
  (forall zs, all_ints (closes_of ramp10) = Some zs -> 7 <= Z.of_nat (length ramp10) ->
     (forall z, In z zs -> Z.abs z <= 2 ^ 900) -> Z.of_nat (length ramp10) <= 2 ^ 64 ->
     get "status" r = Some (PStr "success") /\
     get "average_price" r
       = Some (PNum (NFloat (round2_double (D (sma (Z.to_nat 7) (map inject_Z zs))))))).
Proof.
  split; [vm_compute; reflexivity|]. split; [vm_compute; reflexivity|].
  exact (moving_average_trend demo_loads any_str fsum_naive ramp10_text ramp10 7
           eq_refl ltac:(lia)).
Defined.

(** [tick3] (closes 100.01, 100.02, 100.02) with a 3-day window: the exact
    moving average 100.0166... is below the latest close 100.02, yet the
    trend is ["BEARISH"] under either [sum] loop, because the average is
    rounded to 100.02 before the comparison. *)
Lemma moving_average_compares_rounded :
  (sma 3 (map nval (closes_of tick3)) < nval (last_close tick3))%Q /\
  get "trend" (calculate_moving_average demo_loads any_str fsum_naive tick3_text 3)
    = Some (PStr "BEARISH") /\
  get "trend" (calculate_moving_average demo_loads any_str fsum_neumaier tick3_text 3)
    = Some (PStr "BEARISH").
Proof. split; [|split]; vm_compute; reflexivity. Qed.

(** ** A negative window *)

(** With a negative window the last window [closes[n - w : n]] is empty,
    so a successful call reports the average [-0.0] and the trend says
    whether the latest close is positive. Integer closes of moderate size
    make the call succeed. *)
Theorem moving_average_negative_window (json_loads : string -> Exc pyval)
    (py_str : pyval -> string) (fsum_tail : double -> list num -> double)
    (prices : string) (s : list price_point) (w : Z)
    (Hload : json_loads prices = Ok (series_json s)) (Hw : w < 0) :
  let r := calculate_moving_average json_loads py_str fsum_tail prices w in
  (get "status" r = Some (PStr "success") ->
     get "average_price" r = Some (PNum (NFloat (DZero true))) /\
     get "trend" r = Some (PStr (if num_ltb (NInt 0) (last_close s) then "BULLISH" else "BEARISH"))) /\
  (forall zs, all_ints (closes_of s) = Some zs -> s <> [] ->
     (forall z, In z zs -> Z.abs z <= 2 ^ 900) -> Z.of_nat (length s) <= 2 ^ 64 ->
     get "status" r = Some (PStr "success")).
Proof.
  cbv zeta. unfold calculate_moving_average. rewrite Hload. cbn [bind]. split.
  - intro H. destruct (moving_average_success py_str fsum_tail s w H)
      as (Hge & Hne & y & Hy & Hc & Ha & Ht).
    unfold window_average in Hy. rewrite py_slice_nil in Hy by lia.
    cbn [py_sum sum_loop bind num_truediv] in Hy. unfold int_truediv in Hy.
    rewrite (proj2 (Z.eqb_neq w 0)) in Hy by lia.
    rewrite (proj2 (Z.ltb_lt w 0)) in Hy by lia.
    cbn in Hy. injection Hy as <-. split; [exact Ha | exact Ht].
  - intros zs Hzs Hne Hb Hn.
    destruct (moving_average_ints_ok py_str fsum_tail s w zs (all_ints_map _ _ Hzs)
                ltac:(lia) ltac:(lia) Hne Hb Hn) as (d & _ & Hst & _).
    exact Hst.
Qed.

(** [ramp10] with the window -1: success, average [-0.0], trend BULLISH. *)
Lemma moving_average_negative_window_witness :
  get "average_price" (calculate_moving_average demo_loads any_str fsum_naive ramp10_text (-1))
    = Some (PNum (NFloat (DZero true))) /\
  let r := calculate_moving_average demo_loads any_str fsum_naive ramp10_text (-1) in
  (get "status" r = Some (PStr "success") ->
     get "average_price" r = Some (PNum (NFloat (DZero true))) /\
     get "trend" r = Some (PStr (if num_ltb (NInt 0) (last_close ramp10)
                                 then "BULLISH" else "BEARISH"))) /\
  (forall zs, all_ints (closes_of ramp10) = Some zs -> ramp10 <> [] ->
     (forall z, In z zs -> Z.abs z <= 2 ^ 900) -> Z.of_nat (length ramp10) <= 2 ^ 64 ->
     get "status" r = Some (PStr "success")).
Proof.
  split; [vm_compute; reflexivity|].
  exact (moving_average_negative_window demo_loads any_str fsum_naive ramp10_text ramp10 (-1)
           eq_refl ltac:(lia)).
Defined.


(** ** [min] and [max] of numbers *)

Lemma py_min_fold (r : list num) (m0 : num) :
  exists m, fold_left (fun acc y => let* m := acc in let* b := py_lt y m in Ok (if b then y else m))
              (map PNum r) (Ok (PNum m0)) = Ok (PNum m) /\ (m = m0 \/ In m r) /\
    (forallb num_ok (m0 :: r) = true -> (nval m <= nval m0)%Q /\ forall y, In y r -> (nval m <= nval y)%Q).
Proof.
  revert m0. induction r as [|y r IH]; intro m0.
  - exists m0. split; [reflexivity|]. split; [left; reflexivity|]. intros _. split; [Lqa.lra | intros y []].
  - cbn [map fold_left bind py_lt as_num].
    replace (if num_ltb y m0 then PNum y else PNum m0) with (PNum (if num_ltb y m0 then y else m0))
      by (destruct (num_ltb y m0); reflexivity).
    destruct (IH (if num_ltb y m0 then y else m0)) as (m & Hm & Hin & Hle).
    exists m. split; [exact Hm|]. split.
    + destruct Hin as [->|Hin]; [destruct (num_ltb y m0); [right; left | left]; reflexivity|].
      right; right; exact Hin.
    + intro Hok. cbn [forallb] in Hok. apply andb_prop in Hok as [H0 Hok].
      apply andb_prop in Hok as [H1 Hok].
      rewrite (num_ltb_ok y m0 H1 H0) in *.
      assert (Hok' : forallb num_ok ((if Qlt_bool (nval y) (nval m0) then y else m0) :: r) = true).
      { cbn [forallb]. destruct (Qlt_bool _ _); rewrite ?H0, ?H1, Hok; reflexivity. }
      destruct (Hle Hok') as [Hl1 Hl2].
      destruct (Qlt_bool (nval y) (nval m0)) eqn:E.
      * apply Qlt_bool_iff in E. split; [Lqa.lra|].
        intros z [<-|Hz]; [exact Hl1 | exact (Hl2 z Hz)].
      * apply Qlt_bool_false in E. split; [exact Hl1|].
        intros z [<-|Hz]; [Lqa.lra | exact (Hl2 z Hz)].
Qed.

Lemma py_min_num (x : num) (r : list num) :
  exists m, py_min (map PNum (x :: r)) = Ok (PNum m) /\ In m (x :: r) /\
    (forallb num_ok (x :: r) = true -> forall y, In y (x :: r) -> (nval m <= nval y)%Q).
Proof.
  destruct (py_min_fold r x) as (m & Hm & Hin & Hle). exists m. split; [exact Hm|].
  split; [destruct Hin as [->|Hin]; [left; reflexivity | right; exact Hin]|].
  intros Hok y [<-|Hy]; [exact (proj1 (Hle Hok)) | exact (proj2 (Hle Hok) y Hy)].
Qed.

Lemma py_max_fold (r : list num) (m0 : num) :
  exists m, fold_left (fun acc y => let* m := acc in let* b := py_gt y m in Ok (if b then y else m))
              (map PNum r) (Ok (PNum m0)) = Ok (PNum m) /\ (m = m0 \/ In m r) /\
    (forallb num_ok (m0 :: r) = true -> (nval m0 <= nval m)%Q /\ forall y, In y r -> (nval y <= nval m)%Q).
Proof.
  revert m0. induction r as [|y r IH]; intro m0.
  - exists m0. split; [reflexivity|]. split; [left; reflexivity|]. intros _. split; [Lqa.lra | intros y []].
  - cbn [map fold_left bind py_gt as_num].
    replace (if num_ltb m0 y then PNum y else PNum m0) with (PNum (if num_ltb m0 y then y else m0))
      by (destruct (num_ltb m0 y); reflexivity).
    destruct (IH (if num_ltb m0 y then y else m0)) as (m & Hm & Hin & Hle).
    exists m. split; [exact Hm|]. split.
    + destruct Hin as [->|Hin]; [destruct (num_ltb m0 y); [right; left | left]; reflexivity|].
      right; right; exact Hin.
    + intro Hok. cbn [forallb] in Hok. apply andb_prop in Hok as [H0 Hok].
      apply andb_prop in Hok as [H1 Hok].
      rewrite (num_ltb_ok m0 y H0 H1) in *.
      assert (Hok' : forallb num_ok ((if Qlt_bool (nval m0) (nval y) then y else m0) :: r) = true).
      { cbn [forallb]. destruct (Qlt_bool _ _); rewrite ?H0, ?H1, Hok; reflexivity. }
      destruct (Hle Hok') as [Hl1 Hl2].
      destruct (Qlt_bool (nval m0) (nval y)) eqn:E.
      * apply Qlt_bool_iff in E. split; [Lqa.lra|].
        intros z [<-|Hz]; [exact Hl1 | exact (Hl2 z Hz)].
      * apply Qlt_bool_false in E. split; [exact Hl1|].
        intros z [<-|Hz]; [Lqa.lra | exact (Hl2 z Hz)].
Qed.

Lemma py_max_num (x : num) (r : list num) :
  exists m, py_max (map PNum (x :: r)) = Ok (PNum m) /\ In m (x :: r) /\
    (forallb num_ok (x :: r) = true -> forall y, In y (x :: r) -> (nval y <= nval m)%Q).
Proof.
  destruct (py_max_fold r x) as (m & Hm & Hin & Hle). exists m. split; [exact Hm|].
  split; [destruct Hin as [->|Hin]; [left; reflexivity | right; exact Hin]|].
  intros Hok y [<-|Hy]; [exact (proj1 (Hle Hok)) | exact (proj2 (Hle Hok) y Hy)].
Qed.

(** ** Doubles of small integers *)

Lemma int_to_double_ok (z : Z) : Z.abs z <= 2 ^ 1000 -> int_to_double z = Ok (D (inject_Z z)).
Proof.
  intro Hz. unfold int_to_double.
  assert (Hq : (Qabs (inject_Z z) <= 2 ^ 1000)%Q).
  { change (inject_Z z) with (z # 1). rewrite <- Zabs_Qabs. change (Z.abs z # 1) with (inject_Z (Z.abs z)).
    rewrite (p2_Z 1000) by lia. rewrite <- Zle_Qle. exact Hz. }
  pose proof (dround_finite false _ Hq) as Hf. unfold D in *.
  destruct (dround false (inject_Z z)); try discriminate Hf; reflexivity.
Qed.

Lemma dsub_self (d : double) : dfinite d = true -> dsub d d = DZero false.
Proof.
  destruct d as [s|s m e|s|]; try discriminate; intros _; unfold dsub, dadd, dneg.
  - destruct s; reflexivity.
  - unfold dround. replace (Qeq_bool _ 0) with true; [reflexivity|].
    symmetry. apply Qeq_bool_iff. cbn [dval]. destruct s; cbn [negb signed]; ring.
Qed.

Lemma dsign_round_nz (q : Q) : dsign (round_nz q) = Qlt_bool q 0.
Proof.
  unfold round_nz. destruct (_ =? 0); [reflexivity|].
  destruct (Qle_bool _ _); [reflexivity|]. destruct (_ =? 2 ^ 53); reflexivity.
Qed.

(** A positive integer up to [2^53] is a positive finite double. *)
Lemma D_pos_int (n : Z) : 1 <= n <= 2 ^ 53 -> exists m e, D (inject_Z n) = DFin false m e.
Proof.
  intro Hn.
  assert (Hq : (Qabs (inject_Z n) <= 2 ^ 1000)%Q).
  { change (inject_Z n) with (n # 1). rewrite <- Zabs_Qabs. change (Z.abs n # 1) with (inject_Z (Z.abs n)).
    rewrite (p2_Z 1000) by lia. rewrite <- Zle_Qle. lia. }
  pose proof (dround_finite false _ Hq) as Hf.
  destruct (dround_rnd false (inject_Z n)) as (x & Ex & Xx).
  pose proof (rnd_int n ltac:(lia)) as Hr.
  assert (Hs : dsign (D (inject_Z n)) = false).
  { unfold D, dround. rewrite inject_Z_nonzero by lia. rewrite dsign_round_nz.
    apply Qlt_bool_false. change 0%Q with (inject_Z 0). rewrite <- Zle_Qle. lia. }
  unfold D in *. destruct (dround false (inject_Z n)) as [s|s m e|s|]; try discriminate Hf.
  - exfalso. cbn [dx] in Ex. injection Ex as <-.
    pose proof (xeqb_trans _ _ _ Xx Hr) as H. cbn [xeqb] in H. apply Qeq_bool_iff in H.
    unfold Qeq in H. cbn in H. lia.
  - cbn in Hs. subst s. eauto.
Qed.

Lemma float_square_zero (libm_pow : double -> double -> double * bool) :
  float_square libm_pow (NFloat (DZero false)) = Ok (NFloat (DZero false)).
Proof. reflexivity. Qed.

Lemma volatility_of_zero (libm_pow : double -> double -> double * bool) :
  volatility_of libm_pow (NFloat (DZero false)) = Ok (Some (DZero false)).
Proof. reflexivity. Qed.

Lemma fold_add_repeat (c : Z) (k : nat) (acc : Z) :
  fold_left Z.add (repeat c k) acc = acc + Z.of_nat k * c.
Proof. revert acc. induction k as [|k IH]; intro acc; cbn [repeat fold_left]; [lia|]. rewrite IH. lia. Qed.

Lemma mapM_float_operand_zeros (k : nat) :
  mapM float_operand (map PNum (repeat (NFloat (DZero false)) k))
  = Ok (repeat (NFloat (DZero false)) k).
Proof. induction k as [|k IH]; [reflexivity|]. cbn [repeat map mapM]. rewrite IH. reflexivity. Qed.

Lemma py_index_repeat {A : Type} (x : A) (n : nat) (i : Z) :
  0 <= i < Z.of_nat n -> py_index (repeat x n) i = Ok x.
Proof.
  intro Hi. unfold py_index. rewrite repeat_length.
  rewrite (proj2 (Z.ltb_ge i 0)) by lia. rewrite (proj2 (Z.ltb_ge i 0)) by lia.
  rewrite nth_error_repeat by lia. reflexivity.
Qed.

Lemma py_sum_floats (f : double -> list num -> double) (l : list num) :
  l <> [] -> (forall x, In x l -> exists d, x = NFloat d) ->
  exists t, py_sum f (map PNum l) = Ok (NFloat t).
Proof.
  intros Hne H. destruct l as [|x r]; [congruence|].
  destruct (H x (or_introl eq_refl)) as [d ->].
  assert (Hr : mapM float_operand (map PNum r) = Ok r).
  { clear Hne. induction r as [|y r IH]; [reflexivity|].
    destruct (H y (or_intror (or_introl eq_refl))) as [e ->]. cbn [map mapM float_operand as_num bind].
    rewrite IH; [reflexivity|]. intros z [<-|Hz]; [eauto | apply H; right; right; exact Hz]. }
  unfold py_sum. simpl. rewrite Hr. cbn [bind]. eauto.
Qed.

Lemma In_zrange (a b i : Z) : In i (zrange a b) -> a <= i < b.
Proof.
  unfold zrange. intro H. apply in_map_iff in H as (k & <- & Hk).
  apply in_seq in Hk. lia.
Qed.

Lemma mapM_ok_all_P {A B : Type} (f : A -> Exc B) (P : B -> Prop) (l : list A) :
  (forall x, In x l -> exists y, f x = Ok y /\ P y) ->
  exists ys, mapM f l = Ok ys /\ (forall y, In y ys -> P y) /\ length ys = length l.
Proof.
  induction l as [|x l IH]; intro H; [exists []; split; [reflexivity | split; [intros y [] | reflexivity]]|].
  destruct (H x (or_introl eq_refl)) as (y & Hy & Py).
  destruct IH as (ys & Hys & Pys & Lys); [intros z Hz; apply H; right; exact Hz|].
  exists (y :: ys). cbn [mapM]. rewrite Hy, Hys. split; [reflexivity|].
  split; [intros z [<-|Hz]; [exact Py | exact (Pys z Hz)] | cbn; congruence].
Qed.

Lemma mapM_repeat {A B : Type} (f : A -> Exc B) (x : A) (y : B) (n : nat) :
  f x = Ok y -> mapM f (repeat x n) = Ok (repeat y n).
Proof. intro H. induction n as [|n IH]; [reflexivity|]. cbn [repeat mapM]. rewrite H, IH. reflexivity. Qed.

Lemma py_min_ne (l : list num) :
  l <> [] -> exists m, py_min (map PNum l) = Ok (PNum m) /\ In m l /\
    (forallb num_ok l = true -> forall y, In y l -> (nval m <= nval y)%Q).
Proof. destruct l as [|x r]; [congruence|]. intros _. apply py_min_num. Qed.

Lemma py_max_ne (l : list num) :
  l <> [] -> exists m, py_max (map PNum l) = Ok (PNum m) /\ In m l /\
    (forallb num_ok l = true -> forall y, In y l -> (nval y <= nval m)%Q).
Proof. destruct l as [|x r]; [congruence|]. intros _. apply py_max_num. Qed.

Lemma closes_of_nil (s : list price_point) : s <> [] -> closes_of s <> [].
Proof. destruct s; [congruence | discriminate]. Qed.

Lemma closes_const (s : list price_point) (c : Z) :
  (forall p, In p s -> pp_close p = NInt c) -> closes_of s = map NInt (repeat c (length s)).
Proof.
  induction s as [|p s IH]; intro H; [reflexivity|].
  cbn [closes_of map repeat length]. unfold closes_of in IH. rewrite (H p (or_introl eq_refl)), IH;
    [reflexivity | intros q Hq; apply H; right; exact Hq].
Qed.

Section Volatility.
Variable fsum_tail : double -> list num -> double.
Variable libm_pow : double -> double -> double * bool.

Lemma volatility_body_no_key (data : pyval) :
  exc_all (fun v => get "volatility" v = None) (volatility_body fsum_tail libm_pow data).
Proof.
  unfold volatility_body.
  repeat first
    [ apply exc_all_bind; intros ?a ?Ha
    | progress cbv zeta
    | match goal with |- exc_all _ (if ?c then _ else _) => destruct c end ].
  reflexivity.
Qed.

Lemma volatility_success (s : list price_point) :
  let r := tool_boundary (volatility_body fsum_tail libm_pow (series_json s)) in
  get "status" r = Some (PStr "success") ->
  s <> [] /\
  exists v, closes_volatility fsum_tail libm_pow (map PNum (closes_of s)) = Ok (Some v) /\
    get "risk_level" r = Some (PStr (if num_ltb (NFloat v) (NInt 5) then "LOW"
                                     else if num_ltb (NFloat v) (NInt 15) then "MEDIUM"
                                     else "HIGH")) /\
    exists lo hi, py_min (map PNum (closes_of s)) = Ok (PNum lo) /\
      py_max (map PNum (closes_of s)) = Ok (PNum hi) /\
      get "price_range" r = Some (PDict [("lowest", PNum (num_round2 lo));
                                         ("highest", PNum (num_round2 hi));
                                         ("current", PNum (num_round2 (last_close s)))]).
Proof.
  cbv zeta. unfold volatility_body. change (unwrap_data (series_json s)) with (series_json s).
  rewrite closes_column. cbn [bind].
  destruct (closes_volatility fsum_tail libm_pow _) as [e|vo] eqn:Hv; cbn [bind];
    [intro H; discriminate H|].
  assert (Hne : s <> []) by (intro E; subst s; discriminate Hv).
  destruct (mapM _ (zrange 1 _)) as [e|rets]; cbn [bind]; [intro H; discriminate H|].
  destruct (match rets with [] => _ | _ :: _ => _ end) as [e|avg]; cbn [bind];
    [intro H; discriminate H|].
  destruct vo as [v|]; cbn [risk_level_of bind]; [|intro H; discriminate H].
  destruct (py_min_ne _ (closes_of_nil s Hne)) as (lo & Hlo & _).
  destruct (py_max_ne _ (closes_of_nil s Hne)) as (hi & Hhi & _).
  rewrite Hlo, Hhi, (last_closes s Hne). cbn [bind py_round2 as_num].
  intros _. split; [exact Hne|]. exists v. split; [reflexivity|].
  split; [destruct (num_ltb (NFloat v) (NInt 5)), (num_ltb (NFloat v) (NInt 15)); reflexivity|].
  exists lo, hi. split; [reflexivity|]. split; [reflexivity|].
  destruct (num_ltb (NFloat v) (NInt 5)), (num_ltb (NFloat v) (NInt 15)); reflexivity.
Qed.

Lemma dfinite_D_int (z : Z) : Z.abs z <= 2 ^ 1000 -> dfinite (D (inject_Z z)) = true.
Proof.
  intro Hz. apply dround_finite.
  change (inject_Z z) with (z # 1). rewrite <- Zabs_Qabs. change (Z.abs z # 1) with (inject_Z (Z.abs z)).
  rewrite (p2_Z 1000) by lia. rewrite <- Zle_Qle. exact Hz.
Qed.

(** A constant series of a non-zero integer of moderate size: the volatility
    is [0.0] and the call succeeds with the risk level ["LOW"]. *)
Lemma volatility_const (s : list price_point) (c : Z) :
  s <> [] -> (forall p, In p s -> pp_close p = NInt c) -> c <> 0 -> Z.abs c <= 2 ^ 53 ->
  Z.of_nat (length s) <= 2 ^ 53 ->
  (forall k, fsum_tail (DZero false) (repeat (NFloat (DZero false)) k) = DZero false) ->
  closes_volatility fsum_tail libm_pow (map PNum (closes_of s)) = Ok (Some (DZero false)) /\
  let r := tool_boundary (volatility_body fsum_tail libm_pow (series_json s)) in
  get "status" r = Some (PStr "success") /\ get "risk_level" r = Some (PStr "LOW").
Proof.
  intros Hne Hc Hc0 Hcb Hn Hft.
  set (n := length s) in *.
  assert (Hn1 : (1 <= n)%nat) by (destruct s; [congruence | cbn in n; subst n; lia]).
  assert (Hcl : map PNum (closes_of s) = repeat (PNum (NInt c)) n).
  { rewrite (closes_const s c Hc), !map_repeat. reflexivity. }
  assert (Hcv : closes_volatility fsum_tail libm_pow (map PNum (closes_of s)) = Ok (Some (DZero false))).
  { unfold closes_volatility. rewrite Hcl, repeat_length.
    replace (repeat (PNum (NInt c)) n) with (map PNum (map NInt (repeat c n)))
      by (rewrite !map_repeat; reflexivity).
    unfold py_sum at 1. rewrite sum_loop_ints, fold_add_repeat. cbn [bind num_truediv].
    assert (Hb : Z.abs (0 + Z.of_nat n * c) <= 2 ^ 1000).
    { assert (Z.abs (0 + Z.of_nat n * c) <= 2 ^ 53 * 2 ^ 53) by nia.
      assert (2 ^ 53 * 2 ^ 53 <= 2 ^ 1000) by (cbv; discriminate). lia. }
    destruct (int_truediv_ok (0 + Z.of_nat n * c) (Z.of_nat n) ltac:(lia) Hb) as (d & Hd & Hdv).
    rewrite Hd. cbn [bind].
    assert (Hdc : d = D (inject_Z c)).
    { rewrite (Hdv ltac:(lia)). apply dround_comp.
      rewrite Z.add_0_l, inject_Z_mult. field.
      intro E. apply (proj1 (inject_Z_injective _ 0)) in E. lia. }
    subst d. rewrite !map_repeat.
    rewrite (mapM_repeat _ _ (NFloat (DZero false))).
    2: { unfold py_sub, py_arith, num_sub, num_binop. cbn [as_num num_to_double bind].
         rewrite int_to_double_ok by lia. cbn [bind].
         rewrite dsub_self by (apply dfinite_D_int; lia). reflexivity. }
    cbn [bind]. destruct n as [|k]; [lia|]. cbn [repeat map py_sum sum_loop as_num].
    change (int_to_double 0) with (Ok (DZero false)). cbn [bind].
    rewrite mapM_float_operand_zeros. cbn [bind dadd andb]. rewrite Hft.
    cbn [num_truediv num_to_double bind]. rewrite int_to_double_ok by lia. cbn [bind].
    destruct (D_pos_int (Z.of_nat (S k)) ltac:(lia)) as (m & e & ->).
    cbn [dis_zero ddiv dsign xorb]. unfold dround.
    replace (Qeq_bool _ 0) with true; [reflexivity|].
    symmetry. apply Qeq_bool_iff. cbn [dval]. unfold Qdiv. apply Qmult_0_l. }
  split; [exact Hcv|]. cbv zeta.
  unfold volatility_body. change (unwrap_data (series_json s)) with (series_json s).
  rewrite closes_column. cbn [bind]. rewrite Hcv. cbn [bind].
  rewrite length_closes. fold n.
  destruct (mapM_ok_all_P
              (fun i => let* c0 := py_index (map PNum (closes_of s)) i in
                        let* p := py_index (map PNum (closes_of s)) (i - 1) in
                        let* d := py_sub c0 p in
                        let* r := py_truediv (PNum d) p in num_mul r (NInt 100))
              (fun x => exists d, x = NFloat d) (zrange 1 (Z.of_nat n)))
    as (rets & Hrets & Prets & Lrets).
  { intros i Hi. apply In_zrange in Hi. rewrite Hcl.
    rewrite !py_index_repeat by lia. cbn [bind].
    unfold py_sub, py_truediv, py_arith, num_sub, num_binop. cbn [as_num bind num_truediv].
    destruct (int_truediv_ok (c - c) c Hc0 ltac:(lia)) as (d & Hd & _). rewrite Hd. cbn [bind].
    unfold num_mul, num_binop. cbn [num_to_double bind]. rewrite int_to_double_ok by lia.
    cbn [bind]. eexists; split; [reflexivity | eexists; reflexivity]. }
  rewrite Hrets. cbn [bind].
  assert (Havg : exists a, match rets with
                           | [] => Ok (NInt 0)
                           | _ :: _ => let* s0 := py_sum fsum_tail (map PNum rets) in
                                       num_truediv s0 (NInt (Z.of_nat (length rets)))
                           end = Ok a).
  { assert (Hlz : length (zrange 1 (Z.of_nat n)) = (n - 1)%nat).
    { unfold zrange. rewrite length_map, length_seq. lia. }
    destruct rets as [|x rs]; [eexists; reflexivity|].
    destruct (py_sum_floats fsum_tail (x :: rs) ltac:(discriminate) Prets) as [t Ht].
    rewrite Ht. cbn [bind num_truediv num_to_double].
    assert (Hl : 1 <= Z.of_nat (length (x :: rs)) <= 2 ^ 53).
    { rewrite Lrets, Hlz. cbn [length] in Lrets. rewrite Hlz in Lrets. lia. }
    rewrite int_to_double_ok
      by (assert (2 ^ 53 <= 2 ^ 1000) by (cbv; discriminate); lia).
    destruct (D_pos_int _ Hl) as (m & e & ->). cbn [bind dis_zero]. eexists; reflexivity. }
  destruct Havg as [a Ha]. rewrite Ha. cbn [bind risk_level_of].
  change (num_ltb (NFloat (DZero false)) (NInt 5)) with true. cbv iota.
  destruct (py_min_ne _ (closes_of_nil s Hne)) as (lo & Hlo & _).
  destruct (py_max_ne _ (closes_of_nil s Hne)) as (hi & Hhi & _).
  rewrite Hlo, Hhi, (last_closes s Hne). cbn [bind py_round2 as_num].
  split; reflexivity.
Qed.

End Volatility.



Lemma fsum_naive_zeros (k : nat) :
  fsum_naive (DZero false) (repeat (NFloat (DZero false)) k) = DZero false.
Proof. induction k as [|k IH]; [reflexivity|]. exact IH. Qed.



(** ** The price range *)

(** On success, [price_range] holds the 2-decimal roundings of the least
    and the greatest close and of the latest close, and for finite closes
    the rounded latest close lies between the other two. *)
Theorem volatility_price_range (json_loads : string -> Exc pyval)
    (fsum_tail : double -> list num -> double) (libm_pow : double -> double -> double * bool)
    (prices : string) (s : list price_point)
    (Hload : json_loads prices = Ok (series_json s)) (Hok : series_ok s = true) :
  let r := calculate_volatility json_loads fsum_tail libm_pow prices in
  get "status" r = Some (PStr "success") ->
  exists lo hi,
    In lo (closes_of s) /\ In hi (closes_of s) /\
    (forall y, In y (closes_of s) -> (nval lo <= nval y <= nval hi)%Q) /\
    get "price_range" r = Some (PDict [("lowest", PNum (num_round2 lo));
                                       ("highest", PNum (num_round2 hi));
                                       ("current", PNum (num_round2 (last_close s)))]) /\
    num_leb (num_round2 lo) (num_round2 (last_close s)) = true /\
    num_leb (num_round2 (last_close s)) (num_round2 hi) = true.
Proof.
  cbv zeta. unfold calculate_volatility. rewrite Hload. cbn [bind]. intro H.
  destruct (volatility_success fsum_tail libm_pow s H) as (Hne & _ & _ & _ & lo & hi & Hlo & Hhi & Hpr).
  destruct (py_min_ne _ (closes_of_nil s Hne)) as (lo' & Hlo' & Inlo & Blo).
  destruct (py_max_ne _ (closes_of_nil s Hne)) as (hi' & Hhi' & Inhi & Bhi).
  rewrite Hlo in Hlo'. injection Hlo' as <-. rewrite Hhi in Hhi'. injection Hhi' as <-.
  destruct (series_ok_cols s Hok) as (_ & _ & Hc). fold (closes_of s) in Hc.
  assert (Hin : forall y, In y (closes_of s) -> num_ok y = true)
    by (intros y Hy; exact (proj1 (forallb_forall _ _) Hc y Hy)).
  assert (Hlast : In (last_close s) (closes_of s)) by (apply last_In, closes_of_nil, Hne).
  exists lo, hi. split; [exact Inlo|]. split; [exact Inhi|].
  split; [intros y Hy; split; [exact (Blo Hc y Hy) | exact (Bhi Hc y Hy)]|].
  split; [exact Hpr|]. split.
  - apply num_round2_mono; [apply Hin; exact Inlo | apply Hin; exact Hlast | exact (Blo Hc _ Hlast)].
  - apply num_round2_mono; [apply Hin; exact Hlast | apply Hin; exact Inhi | exact (Bhi Hc _ Hlast)].
Qed.

(** [flat3]: every bound is 100. *)
Lemma volatility_price_range_witness :
  series_ok flat3 = true /\
  (let r := calculate_volatility demo_loads fsum_naive pow_nearest flat3_text in
   get "status" r = Some (PStr "success") ->
   exists lo hi,
     In lo (closes_of flat3) /\ In hi (closes_of flat3) /\
     (forall y, In y (closes_of flat3) -> (nval lo <= nval y <= nval hi)%Q) /\
     get "price_range" r = Some (PDict [("lowest", PNum (num_round2 lo));
                                        ("highest", PNum (num_round2 hi));
                                        ("current", PNum (num_round2 (last_close flat3)))]) /\
     num_leb (num_round2 lo) (num_round2 (last_close flat3)) = true /\
     num_leb (num_round2 (last_close flat3)) (num_round2 hi) = true).
Proof.
  split; [reflexivity|].
  exact (volatility_price_range demo_loads fsum_naive pow_nearest flat3_text flat3 eq_refl eq_refl).
Defined.


(** ** The exact least-squares line *)

Lemma fold_left_Qplus_acc (l : list Q) (a : Q) : (fold_left Qplus l a == a + qsum l)%Q.
Proof.
  unfold qsum. revert a. induction l as [|x l IH]; intro a; simpl.
  - ring.
  - rewrite (IH (a + x)%Q), (IH (0 + x)%Q). ring.
Qed.

Lemma qsum_cons (x : Q) (l : list Q) : (qsum (x :: l) == x + qsum l)%Q.
Proof. unfold qsum at 1. simpl. rewrite fold_left_Qplus_acc. ring. Qed.

Lemma sum_over_cons f p l : (sum_over f (p :: l) == f p + sum_over f l)%Q.
Proof. unfold sum_over. cbn [map]. apply qsum_cons. Qed.

Lemma sum_over_ext f g l : (forall p, f p == g p)%Q -> (sum_over f l == sum_over g l)%Q.
Proof.
  intro H. induction l as [|p l IH]; [unfold sum_over, qsum; cbn; ring|].
  rewrite !sum_over_cons, IH, H. reflexivity.
Qed.

Lemma sum_over_plus f g l :
  (sum_over (fun p => f p + g p) l == sum_over f l + sum_over g l)%Q.
Proof.
  induction l as [|p l IH]; [unfold sum_over, qsum; cbn; ring|].
  rewrite !sum_over_cons, IH. ring.
Qed.

Lemma sum_over_scale c f l : (sum_over (fun p => c * f p) l == c * sum_over f l)%Q.
Proof.
  induction l as [|p l IH]; [unfold sum_over, qsum; cbn; ring|].
  rewrite !sum_over_cons, IH. ring.
Qed.

Lemma sum_over_nonneg f l : (forall p, 0 <= f p)%Q -> (0 <= sum_over f l)%Q.
Proof.
  intro H. induction l as [|p l IH]; [unfold sum_over, qsum; cbn; discriminate|].
  rewrite sum_over_cons. pose proof (H p). Lqa.lra.
Qed.

(** A quadratic form in [x] and [y] sums to the same form in the moments. *)
Lemma sum_over_quadratic (c1 c2 c3 c4 c5 : Q) l :
  (sum_over (fun p => c1 * (fst p * snd p) + c2 * (fst p * fst p) + c3 * fst p
                      + c4 * snd p + c5) l
   == c1 * sum_over (fun p => fst p * snd p) l + c2 * sum_over (fun p => fst p * fst p) l
      + c3 * sum_over fst l + c4 * sum_over snd l
      + c5 * inject_Z (Z.of_nat (length l)))%Q.
Proof.
  induction l as [|p l IH]; [unfold sum_over, qsum; cbn; ring|].
  rewrite !sum_over_cons, IH. cbn [length].
  rewrite Nat2Z.inj_succ, <- Z.add_1_r, inject_Z_plus. ring.
Qed.

Lemma map_fst_combine {A B : Type} (xs : list A) (ys : list B) :
  length xs = length ys -> map fst (combine xs ys) = xs.
Proof.
  revert ys. induction xs as [|x xs IH]; intros [|y ys] H; simpl in *; try congruence.
  f_equal. apply IH. congruence.
Qed.

Lemma map_snd_combine {A B : Type} (xs : list A) (ys : list B) :
  length xs = length ys -> map snd (combine xs ys) = ys.
Proof.
  revert ys. induction xs as [|x xs IH]; intros [|y ys] H; simpl in *; try congruence.
  f_equal. apply IH. congruence.
Qed.

Lemma Qsquare_nonneg (q : Q) : (0 <= q * q)%Q.
Proof. Lqa.nra. Qed.

Lemma length_zrange (a b : Z) : length (zrange a b) = Z.to_nat (b - a).
Proof. unfold zrange. rewrite length_map, length_seq. reflexivity. Qed.

Lemma qsum_map_nonneg {A : Type} (f : A -> Q) (l : list A) :
  (forall x, 0 <= f x)%Q -> (0 <= qsum (map f l))%Q.
Proof.
  intro H. induction l as [|x l IH]; [unfold qsum; cbn; discriminate|].
  cbn [map]. rewrite qsum_cons. pose proof (H x). Lqa.lra.
Qed.

Lemma day_points_fst (ys : list Q) :
  map fst (day_points ys) = map inject_Z (zrange 0 (Z.of_nat (length ys))).
Proof.
  unfold day_points. apply map_fst_combine.
  rewrite length_map, length_zrange. lia.
Qed.

Lemma day_points_snd (ys : list Q) : map snd (day_points ys) = ys.
Proof.
  unfold day_points. apply map_snd_combine.
  rewrite length_map, length_zrange. lia.
Qed.

Lemma length_day_points (ys : list Q) : length (day_points ys) = length ys.
Proof.
  rewrite <- (length_map snd), day_points_snd. reflexivity.
Qed.

Lemma zrange_cons (a b : Z) : a < b -> zrange a b = a :: zrange (a + 1) b.
Proof.
  intro H. unfold zrange.
  replace (Z.to_nat (b - a)) with (S (Z.to_nat (b - (a + 1)))) by lia.
  cbn [seq map]. f_equal; [lia|].
  rewrite <- seq_shift, map_map. apply map_ext. intro k. lia.
Qed.

Lemma day_points_two (y0 y1 : Q) (ys : list Q) :
  exists rest, day_points (y0 :: y1 :: ys) = (inject_Z 0, y0) :: (inject_Z 1, y1) :: rest.
Proof.
  unfold day_points. cbn [length].
  rewrite zrange_cons by lia. rewrite zrange_cons by lia.
  cbn [map combine]. eexists. reflexivity.
Qed.

Lemma strictly_increasing_nth (l : list Q) :
  strictly_increasing l = true ->
  forall i j, (i < j < length l)%nat -> (nth i l 0 < nth j l 0)%Q.
Proof.
  induction l as [|x r IH]; intros H i j Hij; cbn [length] in Hij; [lia|].
  destruct r as [|y r']; cbn [length] in Hij; [lia|].
  cbn [strictly_increasing] in H. apply andb_true_iff in H as [Hxy Hr].
  apply Qlt_bool_iff in Hxy.
  destruct i as [|i]; destruct j as [|j]; try lia.
  - cbn [nth]. destruct j as [|j]; [exact Hxy|].
    apply (Qlt_trans _ y); [exact Hxy|].
    apply (IH Hr 0%nat (S j)). cbn [length]. lia.
  - cbn [nth]. apply (IH Hr i j). cbn [length]. lia.
Qed.

Lemma sum_over_nonneg_in f l :
  (forall p, In p l -> 0 <= f p)%Q -> (0 <= sum_over f l)%Q.
Proof.
  induction l as [|p l IH]; intro H; [unfold sum_over, qsum; cbn; discriminate|].
  rewrite sum_over_cons. pose proof (H p (or_introl eq_refl)).
  assert (0 <= sum_over f l)%Q by (apply IH; intros q Hq; apply H; right; exact Hq).
  Lqa.lra.
Qed.

Lemma sum_over_ge_member f l q :
  (forall p, In p l -> 0 <= f p)%Q -> In q l -> (f q <= sum_over f l)%Q.
Proof.
  induction l as [|p l IH]; intros H Hq; [destruct Hq|].
  rewrite sum_over_cons.
  assert (Hl : forall p', In p' l -> (0 <= f p')%Q) by (intros p' Hp'; apply H; right; exact Hp').
  destruct Hq as [<- | Hq].
  - pose proof (sum_over_nonneg_in f l Hl). Lqa.lra.
  - pose proof (H p (or_introl eq_refl)). pose proof (IH Hl Hq). Lqa.lra.
Qed.

(** Twice [n] times the centred cross sum is the sum over all pairs. *)
Lemma pair_sum_identity (l : list (Q * Q)) :
  let n := inject_Z (Z.of_nat (length l)) in
  (sum_over (fun p => sum_over (fun q => (fst p - fst q) * (snd p - snd q)) l) l
   == 2 * (n * sum_over (fun p => fst p * snd p) l - sum_over fst l * sum_over snd l))%Q.
Proof.
  intro n.
  rewrite (sum_over_ext (fun p => sum_over _ l)
     (fun p => sum_over fst l * (- snd p) + (sum_over snd l * (- fst p)
               + (n * (fst p * snd p) + sum_over (fun q => fst q * snd q) l)))%Q).
  2:{ intro p.
      rewrite (sum_over_ext _ (fun q => 1 * (fst q * snd q) + 0 * (fst q * fst q)
                + (- snd p) * fst q + (- fst p) * snd q + fst p * snd p)%Q) by (intro q; ring).
      rewrite sum_over_quadratic. fold n. ring. }
  rewrite !sum_over_plus, !sum_over_scale.
  rewrite (sum_over_ext (fun _ => sum_over (fun q => fst q * snd q)%Q l)
            (fun _ => sum_over (fun q => fst q * snd q) l * 1)%Q) by (intro; ring).
  rewrite sum_over_scale.
  rewrite (sum_over_ext (fun p => - snd p)%Q (fun p => (-1) * snd p)%Q) by (intro; ring).
  rewrite (sum_over_ext (fun p => - fst p)%Q (fun p => (-1) * fst p)%Q) by (intro; ring).
  rewrite !sum_over_scale.
  assert (H1 : (sum_over (fun _ => 1) l == n)%Q).
  { unfold n. clear n. induction l as [|p l IH]; [reflexivity|].
    rewrite sum_over_cons, IH. cbn [length].
    rewrite Nat2Z.inj_succ, <- Z.add_1_r, inject_Z_plus. ring. }
  rewrite H1. ring.
Qed.

Lemma day_points_member (ys : list Q) (p : Q * Q) :
  In p (day_points ys) ->
  exists i, (i < length ys)%nat /\ p = (inject_Z (Z.of_nat i), nth i ys 0%Q).
Proof.
  intro Hp. apply (In_nth _ _ (0%Q, 0%Q)) in Hp as [i [Hi <-]].
  rewrite length_day_points in Hi. exists i. split; [exact Hi|].
  unfold day_points. rewrite combine_nth by (rewrite length_map, length_zrange; lia).
  f_equal. rewrite (nth_indep _ _ (inject_Z 0)) by (rewrite length_map, length_zrange; lia).
  rewrite map_nth. unfold zrange. rewrite (nth_indep _ _ (0 + Z.of_nat 0)) by (rewrite length_map, length_seq; lia).
  change (0 + Z.of_nat 0) with ((fun k : nat => 0 + Z.of_nat k) 0%nat). rewrite map_nth, seq_nth by lia. reflexivity.
Qed.

Lemma increasing_pair_nonneg (ys : list Q) (p q : Q * Q) :
  strictly_increasing ys = true -> In p (day_points ys) -> In q (day_points ys) ->
  (0 <= (fst p - fst q) * (snd p - snd q))%Q.
Proof.
  intros Hinc Hp Hq.
  destruct (day_points_member ys p Hp) as [i [Hi ->]].
  destruct (day_points_member ys q Hq) as [j [Hj ->]]. cbn [fst snd].
  destruct (lt_eq_lt_dec i j) as [[Hij | <-] | Hij].
  - pose proof (strictly_increasing_nth ys Hinc i j ltac:(lia)).
    assert (inject_Z (Z.of_nat i) < inject_Z (Z.of_nat j))%Q by (rewrite <- Zlt_Qlt; lia).
    Lqa.nra.
  - rewrite Qmult_comm. Lqa.nra.
  - pose proof (strictly_increasing_nth ys Hinc j i ltac:(lia)).
    assert (inject_Z (Z.of_nat j) < inject_Z (Z.of_nat i))%Q by (rewrite <- Zlt_Qlt; lia).
    Lqa.nra.
Qed.

Lemma pair_sum_pos (ys : list Q) :
  strictly_increasing ys = true -> (2 <= length ys)%nat ->
  (0 < sum_over (fun p => sum_over (fun q => (fst p - fst q) * (snd p - snd q)) (day_points ys))
                (day_points ys))%Q.
Proof.
  intros Hinc H2.
  destruct ys as [|y0 [|y1 ys']]; cbn [length] in H2; try lia.
  destruct (day_points_two y0 y1 ys') as [rest Hd].
  set (l := day_points (y0 :: y1 :: ys')).
  assert (Hin0 : In (inject_Z 0, y0) l) by (unfold l; rewrite Hd; left; reflexivity).
  assert (Hin1 : In (inject_Z 1, y1) l) by (unfold l; rewrite Hd; right; left; reflexivity).
  assert (Hinner : forall p, In p l ->
            (0 <= sum_over (fun q => (fst p - fst q) * (snd p - snd q)) l)%Q).
  { intros p Hp. apply sum_over_nonneg_in. intros q Hq.
    apply (increasing_pair_nonneg (y0 :: y1 :: ys')); assumption. }
  pose proof (sum_over_ge_member _ l _ Hinner Hin0) as Hout.
  pose proof (sum_over_ge_member (fun q => (fst (inject_Z 0, y0) - fst q)
                                          * (snd (inject_Z 0, y0) - snd q))%Q l _
               (fun q Hq => increasing_pair_nonneg (y0 :: y1 :: ys') _ q Hinc Hin0 Hq) Hin1) as Hin.
  cbn [fst snd] in Hin.
  pose proof (strictly_increasing_nth (y0 :: y1 :: ys') Hinc 0 1 ltac:(cbn [length]; lia)) as H01.
  cbn [nth] in H01. cbn [fst snd] in Hout.
  assert (E : ((inject_Z 0 - inject_Z 1) * (y0 - y1) == y1 - y0)%Q) by (unfold inject_Z; ring).
  rewrite E in Hin. Lqa.lra.
Qed.

Lemma day_den_pos (ys : list Q) :
  (2 <= length ys)%nat ->
  let xs := map inject_Z (zrange 0 (Z.of_nat (length ys))) in
  let m := (qsum xs / inject_Z (Z.of_nat (length ys)))%Q in
  (0 < qsum (map (fun x => (x - m) * (x - m)) xs))%Q.
Proof.
  intros H2 xs m. unfold xs.
  rewrite zrange_cons by lia. rewrite zrange_cons by lia.
  cbn [map]. rewrite !qsum_cons.
  pose proof (qsum_map_nonneg (fun x => (x - m) * (x - m))%Q
                (map inject_Z (zrange (0 + 1 + 1) (Z.of_nat (length ys))))
                (fun x => Qsquare_nonneg _)).
  assert (Hsq : (0 < (inject_Z 0 - m) * (inject_Z 0 - m)
                     + (inject_Z (0 + 1) - m) * (inject_Z (0 + 1) - m))%Q).
  { unfold inject_Z. cbn [Z.add]. Lqa.nra. }
  Lqa.lra.
Qed.

Lemma centred_cross_sum (l : list (Q * Q)) :
  let n := inject_Z (Z.of_nat (length l)) in
  ~ (n == 0)%Q ->
  (sum_over (fun p => (fst p - sum_over fst l / n) * (snd p - sum_over snd l / n)) l
   == (n * sum_over (fun p => fst p * snd p) l - sum_over fst l * sum_over snd l) / n)%Q.
Proof.
  intros n Hn.
  rewrite (sum_over_ext _ (fun p => 1 * (fst p * snd p) + 0 * (fst p * fst p)
            + (- (sum_over snd l / n)) * fst p + (- (sum_over fst l / n)) * snd p
            + (sum_over fst l / n) * (sum_over snd l / n))%Q) by (intro p; ring).
  rewrite sum_over_quadratic. fold n. field. exact Hn.
Qed.

(** The exact slope of a strictly increasing series of at least two values
    is positive. *)
Lemma exact_slope_pos (ys : list Q) :
  strictly_increasing ys = true -> (2 <= length ys)%nat -> (0 < fst (exact_fit ys))%Q.
Proof.
  intros Hinc H2.
  pose proof (day_den_pos ys H2) as Hden. cbv zeta in Hden.
  pose proof (pair_sum_pos ys Hinc H2) as Hpair.
  rewrite pair_sum_identity in Hpair.
  assert (Hn : (0 < inject_Z (Z.of_nat (length ys)))%Q)
    by (change 0%Q with (inject_Z 0); rewrite <- Zlt_Qlt; lia).
  unfold exact_fit. cbn [fst].
  destruct (Qeq_bool _ 0) eqn:E.
  { apply Qeq_bool_eq in E. rewrite E in Hden. discriminate. }
  apply Qlt_shift_div_l; [exact Hden|]. rewrite Qmult_0_l.
  change (combine (map inject_Z (zrange 0 (Z.of_nat (length ys)))) ys) with (day_points ys).
  assert (Hx : qsum (map inject_Z (zrange 0 (Z.of_nat (length ys)))) = sum_over fst (day_points ys))
    by (unfold sum_over; rewrite day_points_fst; reflexivity).
  assert (Hy : qsum ys = sum_over snd (day_points ys))
    by (unfold sum_over; rewrite day_points_snd; reflexivity).
  rewrite Hx, Hy, <- (length_day_points ys).
  rewrite <- (length_day_points ys) in Hn.
  change (qsum (map ?f (day_points ys))) with (sum_over f (day_points ys)).
  rewrite centred_cross_sum by (intro H0; rewrite H0 in Hn; discriminate).
  apply Qlt_shift_div_l; [exact Hn|]. rewrite Qmult_0_l. Lqa.lra.
Qed.


(** ** [predict_trend] *)

Lemma fit_line_single (fsum_tail : double -> list num -> double) (libm_pow : double -> double -> double * bool) (c : pyval) :
  fsum_tail (DZero false) [] = DZero false ->
  forall sl ic, fit_line fsum_tail libm_pow [c] = Ok (sl, ic) -> sl = NInt 0.
Proof.
  intros Hft sl ic H. unfold fit_line in H.
  apply bind_ok_inv in H as (xt & Hxt & H). vm_compute in Hxt. injection Hxt as <-.
  apply bind_ok_inv in H as (xm & Hxm & H). vm_compute in Hxm. injection Hxm as <-.
  apply bind_ok_inv in H as (yt & _ & H).
  apply bind_ok_inv in H as (ym & _ & H).
  apply bind_ok_inv in H as (pr & _ & H).
  apply bind_ok_inv in H as (nu & _ & H).
  apply bind_ok_inv in H as (sq & Hsq & H). vm_compute in Hsq. injection Hsq as <-.
  apply bind_ok_inv in H as (de & Hde & H). cbn in Hde. rewrite Hft in Hde. injection Hde as <-.
  apply bind_ok_inv in H as (sl' & Hsl & H). cbn in Hsl. injection Hsl as <-.
  apply bind_ok_inv in H as (sx & _ & H).
  apply bind_ok_inv in H as (it & _ & H). injection H as <- _. reflexivity.
Qed.

Lemma mapM_nth_error {A B : Type} (f : A -> Exc B) (l : list A) (ys : list B) :
  mapM f l = Ok ys ->
  length ys = length l /\
  forall k x, nth_error l k = Some x -> exists y, f x = Ok y /\ nth_error ys k = Some y.
Proof.
  revert ys. induction l as [|x l IH]; intros ys H.
  - injection H as <-. split; [reflexivity|]. intros k x E. destruct k; discriminate E.
  - cbn [mapM] in H. destruct (f x) as [e|y] eqn:Hx; cbn [bind] in H; [discriminate|].
    destruct (mapM f l) as [e|ys'] eqn:Hl; cbn [bind] in H; [discriminate|].
    injection H as <-. destruct (IH ys' eq_refl) as [Hlen Hn].
    split; [cbn; congruence|].
    intros [|k] z E; cbn in E |- *.
    + injection E as <-. eauto.
    + exact (Hn k z E).
Qed.

Lemma nth_error_zrange (a b : Z) (k : nat) :
  (Z.of_nat k < b - a) -> nth_error (zrange a b) k = Some (a + Z.of_nat k).
Proof.
  intro Hk. unfold zrange. rewrite nth_error_map.
  rewrite (nth_error_nth' _ 0%nat) by (rewrite length_seq; lia).
  rewrite seq_nth by lia. reflexivity.
Qed.

(** The forecast list: one rounded value of the line per day. *)
Lemma forecast_prices_spec (slope intercept : num) (n fd : Z) (fc : list num) :
  1 <= fd -> forecast_prices slope intercept n fd = Ok fc ->
  length fc = Z.to_nat fd /\
  (forall i, 1 <= i <= fd ->
     exists p y, num_mul slope (NInt (n - 1 + i)) = Ok p /\ num_add p intercept = Ok y /\
       nth_error fc (Z.to_nat (i - 1)) = Some (num_round2 y)) /\
  py_index fc (-1) = Ok (last fc (NInt 0)).
Proof.
  intros Hfd H. unfold forecast_prices in H.
  destruct (mapM_nth_error _ _ _ H) as [Hlen Hn].
  rewrite length_zrange in Hlen. replace (fd + 1 - 1) with fd in Hlen by lia.
  split; [exact Hlen|]. split.
  - intros i Hi. destruct (Hn (Z.to_nat (i - 1)) i) as (y & Hy & Hny).
    { rewrite nth_error_zrange by lia. f_equal. lia. }
    apply bind_ok_inv in Hy as (p & Hp & Hy). apply bind_ok_inv in Hy as (y' & Hy' & Hy).
    injection Hy as <-. exists p, y'. split; [|split; [exact Hy' | exact Hny]].
    replace (n - 1 + i) with (n + i - 1) by lia. exact Hp.
  - apply py_index_last'. intro E. subst fc. cbn in Hlen. lia.
Qed.

Section Predict.
Variable py_str : pyval -> string.
Variable py_fixed : nat -> num -> string.
Variable fsum_tail : double -> list num -> double.
Variable libm_pow : double -> double -> double * bool.

Lemma predict_success (s : list price_point) (fd : Z) :
  let r := tool_boundary (predict_body py_str py_fixed fsum_tail libm_pow (series_json s) fd) in
  get "status" r = Some (PStr "success") ->
  exists slope intercept fc predicted,
    fit_line fsum_tail libm_pow (map PNum (closes_of s)) = Ok (slope, intercept) /\
    forecast_prices slope intercept (Z.of_nat (length s)) fd = Ok fc /\
    py_index fc (-1) = Ok predicted /\
    get "predicted_price" r = Some (PNum predicted) /\
    get "direction" r = Some (PStr (if num_ltb (NInt 0) slope then "UP" else "DOWN")).
Proof.
  cbv zeta. unfold predict_body. change (unwrap_data (series_json s)) with (series_json s).
  rewrite closes_column. cbn [bind]. rewrite length_closes.
  destruct (fit_line fsum_tail libm_pow _) as [e|[slope intercept]] eqn:Hf; cbn [bind];
    [intro H; discriminate H|].
  destruct (forecast_prices slope intercept _ fd) as [e|fc] eqn:Hfc; cbn [bind];
    [intro H; discriminate H|].
  destruct (py_index (map PNum (closes_of s)) (-1)) as [e|cur]; cbn [bind];
    [intro H; discriminate H|].
  destruct (py_index fc (-1)) as [e|pred] eqn:Hp; cbn [bind]; [intro H; discriminate H|].
  destruct (py_sub (PNum pred) cur) as [e|d]; cbn [bind]; [intro H; discriminate H|].
  destruct (py_truediv (PNum d) cur) as [e|q]; cbn [bind]; [intro H; discriminate H|].
  destruct (num_mul q (NInt 100)) as [e|cp]; cbn [bind]; [intro H; discriminate H|].
  intros _. exists slope, intercept, fc, pred.
  split; [first [reflexivity | exact Hf]|]. split; [first [reflexivity | exact Hfc]|].
  split; [first [reflexivity | exact Hp]|].
  destruct (num_ltb (NInt 0) slope); split; reflexivity.
Qed.

End Predict.


(** ** Claim C2 *)
(** C2: for [forecast_days >= 1], a successful [predict_trend] has fitted
    the line of closes against the day index with Python's float formula
    ([fit_line]: the means, the centred cross sum and the centred sum of
    squares, slope 0 when that sum is 0); the forecast for day [n - 1 + i],
    [i = 1 .. forecast_days], is [round(slope * (n - 1 + i) + intercept, 2)]
    computed in the same arithmetic, [predicted_price] is the last of them,
    and [direction] is ["UP"] exactly when [slope > 0] (so a slope of 0 or
    NaN gives ["DOWN"]). A single close gives the slope 0 (for a float loop
    of [sum] that leaves a lone [+0.0] alone). On the closes [100 .. 109]
    with 3 forecast days the slope is 1, the intercept 100, the forecasts
    110, 111 and 112, and the direction ["UP"]. *)
Theorem predict_trend_line (json_loads : string -> Exc pyval) (py_str : pyval -> string)
    (py_fixed : nat -> num -> string) (fsum_tail : double -> list num -> double)
    (libm_pow : double -> double -> double * bool) (prices : string) (s : list price_point)
    (fd : Z) (Hload : json_loads prices = Ok (series_json s)) (Hfd : 1 <= fd) :
  let n := Z.of_nat (length s) in
  let r := predict_trend json_loads py_str py_fixed fsum_tail libm_pow prices fd in
  (get "status" r = Some (PStr "success") ->
     exists slope intercept forecast,
       fit_line fsum_tail libm_pow (map PNum (closes_of s)) = Ok (slope, intercept) /\
       forecast_prices slope intercept n fd = Ok forecast /\
       length forecast = Z.to_nat fd /\
       (forall i, 1 <= i <= fd ->
          exists p y, num_mul slope (NInt (n - 1 + i)) = Ok p /\ num_add p intercept = Ok y /\
            nth_error forecast (Z.to_nat (i - 1)) = Some (num_round2 y)) /\
       get "predicted_price" r = Some (PNum (last forecast (NInt 0))) /\
       (get "direction" r = Some (PStr "UP") <-> num_ltb (NInt 0) slope = true) /\
       (get "direction" r = Some (PStr "DOWN") <-> num_ltb (NInt 0) slope = false) /\
       (num_ok slope = true -> (num_ltb (NInt 0) slope = true <-> (0 < nval slope)%Q))) /\
  (length s = 1%nat -> fsum_tail (DZero false) [] = DZero false ->
     forall slope intercept,
       fit_line fsum_tail libm_pow (map PNum (closes_of s)) = Ok (slope, intercept) ->
       slope = NInt 0) /\
  (fit_line fsum_naive pow_nearest (map PNum (closes_of ramp10)) = Ok (NFloat (D 1), NFloat (D 100)) /\
   fit_line fsum_neumaier pow_nearest (map PNum (closes_of ramp10)) = Ok (NFloat (D 1), NFloat (D 100)) /\
   forecast_prices (NFloat (D 1)) (NFloat (D 100)) 10 3
     = Ok [NFloat (D 110); NFloat (D 111); NFloat (D 112)] /\
   get "direction" (predict_trend demo_loads py_str py_fixed fsum_naive pow_nearest ramp10_text 3)
     = Some (PStr "UP")).
Proof.
  cbv zeta. unfold predict_trend. rewrite Hload. cbn [bind].
  split; [|split].
  - intro H. destruct (predict_success py_str py_fixed fsum_tail libm_pow s fd H)
      as (slope & intercept & fc & pred & Hf & Hfc & Hp & Hpred & Hdir).
    destruct (forecast_prices_spec slope intercept _ fd fc Hfd Hfc) as (Hlen & Hnth & Hlast).
    rewrite Hlast in Hp. injection Hp as <-.
    exists slope, intercept, fc. split; [exact Hf|]. split; [exact Hfc|].
    split; [exact Hlen|]. split; [exact Hnth|]. split; [exact Hpred|].
    rewrite Hdir. split; [|split].
    + destruct (num_ltb (NInt 0) slope); split; intro E; try reflexivity;
        try discriminate E; injection E; discriminate.
    + destruct (num_ltb (NInt 0) slope); split; intro E; try reflexivity;
        try discriminate E; injection E; discriminate.
    + intro Hok. rewrite (num_ltb_ok (NInt 0) slope eq_refl Hok). rewrite Qlt_bool_iff.
      reflexivity.
  - intros H1 Hft slope intercept Hf. destruct s as [|p [|p' s']]; try discriminate H1.
    exact (fit_line_single fsum_tail libm_pow (PNum (pp_close p)) Hft slope intercept Hf).
  - split; [vm_compute; reflexivity|]. split; [vm_compute; reflexivity|].
    split; vm_compute; reflexivity.
Qed.

(** [ramp10] with 3 forecast days, where the call succeeds. *)
Lemma predict_trend_line_witness :
  get "status" (predict_trend demo_loads any_str any_fixed fsum_naive pow_nearest ramp10_text 3)
    = Some (PStr "success") /\
  let n := Z.of_nat (length ramp10) in
  let r := predict_trend demo_loads any_str any_fixed fsum_naive pow_nearest ramp10_text 3 in
  (get "status" r = Some (PStr "success") ->
     exists slope intercept forecast,
       fit_line fsum_naive pow_nearest (map PNum (closes_of ramp10)) = Ok (slope, intercept) /\
       forecast_prices slope intercept n 3 = Ok forecast /\
       length forecast = Z.to_nat 3 /\
       (forall i, 1 <= i <= 3 ->
          exists p y, num_mul slope (NInt (n - 1 + i)) = Ok p /\ num_add p intercept = Ok y /\
            nth_error forecast (Z.to_nat (i - 1)) = Some (num_round2 y)) /\
       get "predicted_price" r = Some (PNum (last forecast (NInt 0))) /\
       (get "direction" r = Some (PStr "UP") <-> num_ltb (NInt 0) slope = true) /\
       (get "direction" r = Some (PStr "DOWN") <-> num_ltb (NInt 0) slope = false) /\
       (num_ok slope = true -> (num_ltb (NInt 0) slope = true <-> (0 < nval slope)%Q))) /\
  (length ramp10 = 1%nat -> fsum_naive (DZero false) [] = DZero false ->
     forall slope intercept,
       fit_line fsum_naive pow_nearest (map PNum (closes_of ramp10)) = Ok (slope, intercept) ->
       slope = NInt 0) /\
  (fit_line fsum_naive pow_nearest (map PNum (closes_of ramp10)) = Ok (NFloat (D 1), NFloat (D 100)) /\
   fit_line fsum_neumaier pow_nearest (map PNum (closes_of ramp10)) = Ok (NFloat (D 1), NFloat (D 100)) /\
   forecast_prices (NFloat (D 1)) (NFloat (D 100)) 10 3
     = Ok [NFloat (D 110); NFloat (D 111); NFloat (D 112)] /\
   get "direction" (predict_trend demo_loads any_str any_fixed fsum_naive pow_nearest ramp10_text 3)
     = Some (PStr "UP")).
Proof.
  split; [vm_compute; reflexivity|].
  exact (predict_trend_line demo_loads any_str any_fixed fsum_naive pow_nearest ramp10_text ramp10 3
           eq_refl ltac:(lia)).
Defined.

(** [line3] (closes 100.0, 100.0, 100.03) with 2 forecast days: the exact
    least-squares forecast for day 3 rounds to 100.06, the program reports
    100.05 under either [sum] loop. *)
Lemma predict_trend_float_line :
  (exact_forecast (map nval (closes_of line3)) 2 == 10006 # 100)%Q /\
  get "predicted_price" (predict_trend demo_loads any_str any_fixed fsum_naive pow_nearest line3_text 2)
    = Some (PNum (dec 10005 (-2))) /\
  get "predicted_price" (predict_trend demo_loads any_str any_fixed fsum_neumaier pow_nearest line3_text 2)
    = Some (PNum (dec 10005 (-2))) /\
  Qlt_bool (nval (dec 10005 (-2))) (exact_forecast (map nval (closes_of line3)) 2) = true.
Proof. split; [|split; [|split]]; vm_compute; reflexivity. Qed.





(** ** Ordering of the explanations *)

Lemma insert_by_confidence_perm (a : alibi) (l : list alibi) :
  Permutation (a :: l) (insert_by_confidence a l).
Proof.
  induction l as [|b l IH]; cbn [insert_by_confidence]; [reflexivity|].
  destruct (confidence a <? confidence b); [|reflexivity].
  transitivity (b :: a :: l); [apply perm_swap | apply perm_skip, IH].
Qed.

Lemma sort_by_confidence_perm (l : list alibi) : Permutation l (sort_by_confidence l).
Proof.
  induction l as [|a l IH]; [reflexivity|]. unfold sort_by_confidence. cbn [fold_right].
  fold (sort_by_confidence l). transitivity (a :: sort_by_confidence l);
    [apply perm_skip, IH | apply insert_by_confidence_perm].
Qed.

Lemma insert_by_confidence_hd (a b : alibi) (l : list alibi) :
  conf_ge b a -> HdRel conf_ge b l -> HdRel conf_ge b (insert_by_confidence a l).
Proof.
  intros Hba Hl. destruct l as [|c l]; cbn [insert_by_confidence]; [constructor; exact Hba|].
  destruct (confidence a <? confidence c); constructor; [inversion Hl; assumption | exact Hba].
Qed.

Lemma insert_by_confidence_sorted (a : alibi) (l : list alibi) :
  Sorted conf_ge l -> Sorted conf_ge (insert_by_confidence a l).
Proof.
  induction l as [|b l IH]; intro H; cbn [insert_by_confidence]; [repeat constructor|].
  apply Sorted_inv in H as [Hl Hb].
  destruct (confidence a <? confidence b) eqn:E.
  - apply Z.ltb_lt in E. constructor; [apply IH, Hl|].
    apply insert_by_confidence_hd; [unfold conf_ge; lia | exact Hb].
  - apply Z.ltb_ge in E. constructor; [constructor; assumption|]. constructor. exact E.
Qed.

Lemma sort_by_confidence_sorted (l : list alibi) : Sorted conf_ge (sort_by_confidence l).
Proof.
  induction l as [|a l IH]; [constructor|]. unfold sort_by_confidence. cbn [fold_right].
  apply insert_by_confidence_sorted, IH.
Qed.

Lemma insert_by_confidence_filter (c : Z) (a : alibi) (l : list alibi) :
  filter (fun b => confidence b =? c) (insert_by_confidence a l) =
  filter (fun b => confidence b =? c) (a :: l).
Proof.
  induction l as [|b l IH]; cbn [insert_by_confidence]; [reflexivity|].
  destruct (confidence a <? confidence b) eqn:E; [|reflexivity].
  apply Z.ltb_lt in E. cbn [filter]. rewrite IH. cbn [filter].
  destruct (confidence a =? c) eqn:Ea, (confidence b =? c) eqn:Eb; try reflexivity.
  apply Z.eqb_eq in Ea, Eb. lia.
Qed.

Lemma sort_by_confidence_stable (c : Z) (l : list alibi) :
  filter (fun b => confidence b =? c) (sort_by_confidence l) =
  filter (fun b => confidence b =? c) l.
Proof.
  induction l as [|a l IH]; [reflexivity|]. unfold sort_by_confidence. cbn [fold_right].
  fold (sort_by_confidence l). rewrite insert_by_confidence_filter. cbn [filter].
  rewrite IH. reflexivity.
Qed.

Lemma conf_ge_trans : Relations_1.Transitive conf_ge.
Proof. unfold Relations_1.Transitive, conf_ge. intros. lia. Qed.

(** ** The three kinds of explanation *)

(** Peels the binds and conditionals of a successful computation. *)
Ltac ok_peel H :=
  repeat first
    [ discriminate H
    | progress cbv beta zeta in H
    | match type of H with
      | bind ?m _ = Ok _ =>
          let x := fresh "x" in let Hx := fresh "Hx" in
          apply bind_ok_inv in H as [x [Hx H]]
      | (if ?c then _ else _) = Ok _ => destruct c
      end ].

Lemma qtrunc_nonneg (q : Q) : (0 <= q)%Q -> 0 <= qtrunc q.
Proof.
  intro H. unfold qtrunc. rewrite (proj2 (Qle_bool_iff 0 q) H).
  change 0 with (Qfloor 0). apply Qfloor_resp_le. exact H.
Qed.

Lemma dval_three_halves : (dval (D (3 # 2)) == 3 # 2)%Q.
Proof. reflexivity. Qed.

Lemma D_thirty : D (inject_Z 30) = DFin false 8444249301319680 (-48).
Proof. vm_compute. reflexivity. Qed.

Lemma dval_D_thirty : (dval (DFin false 8444249301319680 (-48)) == 30)%Q.
Proof. reflexivity. Qed.

(** A spike above 1.5 gives a confidence in [[0, 85]]. *)
Lemma volume_confidence_bounds (spike : num) (c : Z) :
  num_ltb (NFloat (D (3 # 2))) spike = true -> volume_confidence spike = Ok c -> 0 <= c <= 85.
Proof.
  intros Hs Hc. unfold volume_confidence in Hc. ok_peel Hc. injection Hc as <-.
  enough (0 <= x0) by lia.
  assert (Hlt : forall q, nx spike = Some (XFin q) -> (3 # 2 < q)%Q).
  { intros q Hq. unfold num_ltb in Hs. rewrite Hq in Hs.
    replace (nx (NFloat (D (3 # 2)))) with (Some (XFin (dval (D (3 # 2))))) in Hs
      by (vm_compute; reflexivity).
    cbn [xltb] in Hs. apply Qlt_bool_iff in Hs. rewrite dval_three_halves in Hs. exact Hs. }
  destruct spike as [z|d].
  - cbn in Hx. injection Hx as <-. cbn in Hx0. injection Hx0 as <-.
    specialize (Hlt (inject_Z z) eq_refl). unfold Qlt in Hlt. cbn in Hlt. lia.
  - unfold num_mul, num_binop in Hx. cbn [num_to_double bind] in Hx.
    rewrite (int_to_double_ok 30) in Hx by lia. cbn [bind] in Hx. injection Hx as <-.
    rewrite D_thirty in Hx0.
    destruct d as [sg|sg m e|sg|].
    + specialize (Hlt 0%Q eq_refl). Lqa.lra.
    + specialize (Hlt (dval (DFin sg m e)) eq_refl).
      cbn [dmul dsign] in Hx0.
      assert (Hq : (0 <= dval (DFin sg m e) * dval (DFin false 8444249301319680 (-48)))%Q).
      { rewrite dval_D_thirty. Lqa.lra. }
      pose proof (dround_nonneg (xorb sg false) _ Hq) as Hn.
      destruct (dround _ _) as [s'|s' m' e'|s'|]; cbn [num_int] in Hx0;
        try discriminate Hx0; injection Hx0 as <-.
      * reflexivity.
      * apply qtrunc_nonneg. exact Hn.
    + cbn in Hx0. discriminate Hx0.
    + discriminate Hs.
Qed.

Lemma volume_alibi_spec (py_fixed : nat -> num -> string) (m : movement_metrics) (o : option alibi) :
  volume_alibi py_fixed m = Ok o ->
  let spike := m_volume_spike m in
  match o with
  | None => num_ltb (NFloat (D (3 # 2))) spike = false
  | Some a =>
      num_ltb (NFloat (D (3 # 2))) spike = true /\
      title a = (if num_ltb (NInt 0) (m_price_change m) then bullish_title else panic_title) /\
      volume_confidence spike = Ok (confidence a) /\ rank a = 1 /\
      (0 <= confidence a <= 85)%Z
  end.
Proof.
  intros H spike. unfold volume_alibi in H. fold spike in H.
  destruct (num_ltb (NFloat (D (3 # 2))) spike) eqn:Es.
  - destruct (num_ltb (NInt 0) (m_price_change m));
      ok_peel H; injection H as <-; cbn [title confidence rank];
      (split; [reflexivity|]); (split; [reflexivity|]); (split; [exact Hx0|]);
      (split; [reflexivity|]); exact (volume_confidence_bounds spike _ Es Hx0).
  - injection H as <-. reflexivity.
Qed.

Lemma news_alibi_spec (py_fixed : nat -> num -> string) (fsum_tail : double -> list num -> double)
    (m : movement_metrics) (a : alibi) :
  news_alibi py_fixed fsum_tail m = Ok (Some a) -> title a = news_title /\ confidence a = 70%Z.
Proof.
  unfold news_alibi. intro H. ok_peel H. injection H as <-. split; reflexivity.
Qed.

Lemma level_alibi_spec (py_fixed : nat -> num -> string) (m : movement_metrics) (a : alibi) :
  level_alibi py_fixed m = Ok (Some a) ->
  (title a = bounce_title \/ title a = rejection_title \/ title a = range_title) /\
  (confidence a = 65 \/ confidence a = 55)%Z.
Proof.
  unfold level_alibi. intro H. ok_peel H; injection H as <-; cbn; auto.
Qed.

Lemma alibi_candidates_inv (py_fixed : nat -> num -> string) (fsum_tail : double -> list num -> double)
    (m : movement_metrics) (cands : list alibi) :
  alibi_candidates py_fixed fsum_tail m = Ok cands ->
  exists o1 o2 o3,
    volume_alibi py_fixed m = Ok o1 /\ news_alibi py_fixed fsum_tail m = Ok o2 /\
    level_alibi py_fixed m = Ok o3 /\
    cands = (option_list o1 ++ option_list o2 ++ option_list o3)%list.
Proof.
  unfold alibi_candidates. intro H.
  apply bind_ok_inv in H as [o1 [H1 H]]. apply bind_ok_inv in H as [o2 [H2 H]].
  apply bind_ok_inv in H as [o3 [H3 H]]. injection H as <-. eauto 7.
Qed.

Lemma movement_analysis_inv (py_fixed : nat -> num -> string) (fsum_tail : double -> list num -> double)
    (data : pyval) (d : Z) (alibis : list alibi) (ctx : list (string * pyval)) :
  movement_analysis py_fixed fsum_tail data d = Ok (alibis, ctx) ->
  exists m cands,
    movement_metrics_of fsum_tail data d = Ok m /\ alibi_candidates py_fixed fsum_tail m = Ok cands /\
    alibis = sort_by_confidence cands.
Proof.
  unfold movement_analysis. intro H.
  apply bind_ok_inv in H as [m [Hm H]]. apply bind_ok_inv in H as [cands [Hc H]].
  apply bind_ok_inv in H as [cur [_ H]]. apply bind_ok_inv in H as [st [_ H]].
  injection H as <- _. eauto.
Qed.

Lemma price_movement_success (json_loads : string -> Exc pyval) (py_fixed : nat -> num -> string)
    (fsum_tail : double -> list num -> double) (prices : string) (d : Z) :
  get "status" (analyze_price_movement json_loads py_fixed fsum_tail prices d) = Some (PStr "success") ->
  exists data alibis ctx,
    json_loads prices = Ok data /\ movement_analysis py_fixed fsum_tail data d = Ok (alibis, ctx) /\
    analyze_price_movement json_loads py_fixed fsum_tail prices d = movement_json (alibis, ctx).
Proof.
  unfold analyze_price_movement.
  destruct (json_loads prices) as [e|data] eqn:E1; [intro H; vm_compute in H; discriminate H|].
  cbn [bind]. destruct (movement_analysis py_fixed fsum_tail data d) as [e|[alibis ctx]] eqn:E2;
    [intro H; vm_compute in H; discriminate H|].
  intros _. exists data, alibis, ctx. auto.
Qed.

Lemma volume_driven_news (a : alibi) : title a = news_title -> volume_driven a = false.
Proof. intro H. unfold volume_driven. rewrite H. reflexivity. Qed.

Lemma volume_driven_level (a : alibi) :
  title a = bounce_title \/ title a = rejection_title \/ title a = range_title ->
  volume_driven a = false.
Proof. unfold volume_driven. intros [H|[H|H]]; rewrite H; reflexivity. Qed.

Lemma volume_driven_source (py_fixed : nat -> num -> string) (fsum_tail : double -> list num -> double)
    (m : movement_metrics) (o1 o2 o3 : option alibi) (a : alibi) :
  news_alibi py_fixed fsum_tail m = Ok o2 -> level_alibi py_fixed m = Ok o3 ->
  In a (option_list o1 ++ option_list o2 ++ option_list o3)%list ->
  volume_driven a = true -> o1 = Some a.
Proof.
  intros H2 H3 Ha Hv. apply in_app_iff in Ha as [Ha|Ha].
  - destruct o1 as [b|]; simpl in Ha; [destruct Ha as [<-|[]]; reflexivity | contradiction].
  - apply in_app_iff in Ha as [Ha|Ha].
    + destruct o2 as [b|]; simpl in Ha; [|contradiction]. destruct Ha as [<-|[]].
      apply news_alibi_spec, proj1, volume_driven_news in H2. congruence.
    + destruct o3 as [b|]; simpl in Ha; [|contradiction]. destruct Ha as [<-|[]].
      apply level_alibi_spec, proj1, volume_driven_level in H3. congruence.
Qed.

Lemma candidate_confidence_bounds (py_fixed : nat -> num -> string)
    (fsum_tail : double -> list num -> double) (m : movement_metrics) (cands : list alibi) :
  alibi_candidates py_fixed fsum_tail m = Ok cands ->
  forall a, In a cands -> (0 <= confidence a <= 100)%Z.
Proof.
  intros Hc a Ha.
  destruct (alibi_candidates_inv py_fixed fsum_tail m cands Hc) as (o1 & o2 & o3 & H1 & H2 & H3 & ->).
  apply in_app_iff in Ha as [Ha|Ha]; [|apply in_app_iff in Ha as [Ha|Ha]].
  - destruct o1 as [b|]; simpl in Ha; [destruct Ha as [<-|[]] | contradiction].
    apply volume_alibi_spec in H1. destruct H1 as (_ & _ & _ & _ & H). lia.
  - destruct o2 as [b|]; simpl in Ha; [destruct Ha as [<-|[]] | contradiction].
    apply news_alibi_spec in H2. destruct H2 as [_ ->]. lia.
  - destruct o3 as [b|]; simpl in Ha; [destruct Ha as [<-|[]] | contradiction].
    apply level_alibi_spec in H3. destruct H3 as [_ [-> | ->]]; lia.
Qed.

(** ** The metrics of a window of a series *)

Lemma recent_window_series (s : list price_point) (d : Z) :
  1 <= d -> recent_window (series_json s) d = Ok (series_json (movement_window s d)).
Proof.
  intro Hd. unfold recent_window, movement_window, series_json. cbn [py_len bind].
  rewrite length_map.
  destruct (d <=? Z.of_nat (length s)) eqn:E.
  - cbn [py_slice_val]. replace (- d) with (- Z.of_nat (Z.to_nat d)) by lia.
    rewrite py_slice_last by lia. rewrite lastn_map. reflexivity.
  - apply Z.leb_gt in E. unfold lastn.
    replace (length s - Z.to_nat d)%nat with 0%nat by lia. reflexivity.
Qed.

Lemma Qlt_bool_inject_Z (a b : Z) : Qlt_bool (inject_Z a) (inject_Z b) = (a <? b).
Proof.
  destruct (a <? b) eqn:E.
  - apply Qlt_bool_iff. rewrite <- Zlt_Qlt. apply Z.ltb_lt, E.
  - apply Qlt_bool_false. rewrite <- Zle_Qle. apply Z.ltb_ge, E.
Qed.

Lemma py_max_ints (zs : list Z) (z : Z) :
  py_max (map PNum (map NInt (z :: zs))) = Ok (PNum (NInt (fold_left Z.max zs z))).
Proof.
  cbn [map py_max]. revert z. induction zs as [|y zs IH]; intro z; [reflexivity|].
  cbn [map fold_left bind py_gt as_num num_ltb nx xltb]. rewrite Qlt_bool_inject_Z.
  destruct (z <? y) eqn:E.
  - apply Z.ltb_lt in E. rewrite Z.max_r by lia. apply IH.
  - apply Z.ltb_ge in E. rewrite Z.max_l by lia. apply IH.
Qed.

Lemma fold_max_bound (B : Z) (zs : list Z) (z : Z) :
  (forall v, In v (z :: zs) -> Z.abs v <= B) -> Z.abs (fold_left Z.max zs z) <= B.
Proof.
  revert z. induction zs as [|y zs IH]; intros z H; cbn [fold_left]; [apply H; left; reflexivity|].
  apply IH. intros v [<-|Hv]; [|apply H; right; right; exact Hv].
  destruct (Z.max_spec z y) as [[_ ->]|[_ ->]]; apply H; [right; left|left]; reflexivity.
Qed.

(** On a window of [days_back >= 1] records with integer volumes of moderate
    size, the volume-spike ratio is [int_spike_ratio] of the volumes and the
    price change is the last close minus the first. *)
Lemma movement_metrics_series (fsum_tail : double -> list num -> double)
    (s : list price_point) (d : Z) (m : movement_metrics) (vs : list Z) :
  1 <= d -> movement_metrics_of fsum_tail (series_json s) d = Ok m ->
  map pp_volume (movement_window s d) = map NInt vs ->
  (forall v, In v vs -> Z.abs v <= 2 ^ 900) -> Z.of_nat (length vs) <= 2 ^ 64 ->
  m_volume_spike m = int_spike_ratio vs /\
  py_sub (PNum (last_close (movement_window s d)))
         (PNum (hd (NInt 0) (closes_of (movement_window s d)))) = Ok (m_price_change m).
Proof.
  intros Hd H Hv Hb Hn.
  unfold movement_metrics_of in H. change (unwrap_data (series_json s)) with (series_json s) in H.
  rewrite recent_window_series in H by exact Hd. cbn [bind] in H.
  set (w := movement_window s d) in *.
  rewrite column_close, column_volume, column_high, column_low in H. cbn [bind] in H.
  apply bind_ok_inv in H as [last [Hlast H]]. apply bind_ok_inv in H as [first [Hfirst H]].
  apply bind_ok_inv in H as [pc [Hpc H]]. apply bind_ok_inv in H as [ratio [_ H]].
  apply bind_ok_inv in H as [pct [_ H]]. apply bind_ok_inv in H as [tot [Htot H]].
  apply bind_ok_inv in H as [avg [Havg H]]. apply bind_ok_inv in H as [spike [Hsp H]].
  apply bind_ok_inv in H as [hmax [_ H]]. apply bind_ok_inv in H as [lmin [_ H]].
  apply bind_ok_inv in H as [vol [_ H]]. injection H as <-. cbn [m_volume_spike m_price_change].
  destruct w as [|p w'] eqn:Ew; [discriminate Hlast|].
  split.
  - rewrite Hv in Htot, Havg, Hsp. rewrite length_map in Havg.
    unfold py_sum in Htot. rewrite sum_loop_ints in Htot. injection Htot as <-.
    destruct vs as [|v0 vs']; [discriminate Hv|].
    assert (Ht : Z.abs (fold_left Z.add (v0 :: vs') 0) <= 2 ^ 1000).
    { pose proof (fold_add_bound (2 ^ 900) (v0 :: vs') 0 Hb) as Hf.
      assert (P : 2 ^ 1000 = 2 ^ 100 * 2 ^ 900) by reflexivity.
      assert (P2 : 2 ^ 64 <= 2 ^ 100) by (apply Z.pow_le_mono_r; lia).
      assert (P3 : 0 < 2 ^ 900) by (apply Z.pow_pos_nonneg; lia).
      nia. }
    assert (Hl : Z.of_nat (length (v0 :: vs')) <> 0) by (cbn [length]; lia).
    destruct (int_truediv_ok _ _ Hl Ht) as (q & Hq & Hq').
    specialize (Hq' ltac:(cbn [length]; lia)).
    cbn [num_truediv] in Havg. rewrite length_map, Hq in Havg. cbn [bind] in Havg. injection Havg as <-.
    unfold int_spike_ratio. rewrite <- Hq'.
    assert (Hfin : dfinite q = true).
    { rewrite Hq'. apply dround_finite.
      apply Qle_trans with (inject_Z (Z.abs (fold_left Z.add (v0 :: vs') 0)));
        [apply Qabs_div_int_le; exact Hl|].
      rewrite (p2_Z 1000) by lia. rewrite <- Zle_Qle. exact Ht. }
    assert (Hcmp : num_ltb (NInt 0) (NFloat q) = Qlt_bool 0 (dval q)).
    { destruct q; try discriminate Hfin; reflexivity. }
    rewrite Hcmp in Hsp. destruct (Qlt_bool 0 (dval q)) eqn:Ep.
    + rewrite py_max_ints in Hsp. cbn [bind py_truediv py_arith as_num num_truediv num_to_double] in Hsp.
      assert (Hmx : Z.abs (fold_left Z.max vs' v0) <= 2 ^ 1000).
      { pose proof (fold_max_bound (2 ^ 900) vs' v0 Hb) as Hm.
        assert (2 ^ 900 <= 2 ^ 1000) by (apply Z.pow_le_mono_r; lia). lia. }
      rewrite (int_to_double_ok _ Hmx) in Hsp. cbn [bind] in Hsp.
      assert (Hz : dis_zero q = false).
      { destruct q; try reflexivity. cbn [dval] in Ep. discriminate Ep. }
      rewrite Hz in Hsp. injection Hsp as <-. cbn [hd fold_left]. rewrite Z.max_id. reflexivity.
    + injection Hsp as <-. reflexivity.
  - rewrite (py_index_last' _ (PNum (NInt 0))) in Hlast by discriminate.
    rewrite (last_map' PNum (map pp_close (p :: w')) (NInt 0) (PNum (NInt 0))) in Hlast
      by discriminate.
    injection Hlast as <-. cbn in Hfirst. injection Hfirst as <-.
    exact Hpc.
Qed.


(** ** Claim C8 *)
(** C8: in every successful result of [analyze_price_movement] on a series,
    a volume-driven explanation is present exactly when the volume-spike
    ratio [m_volume_spike] the code computes exceeds 1.5; it is the bullish
    surge when the window's price change is positive and panic selling
    otherwise, and its confidence is [min(85, int(spike * 30))] evaluated in
    floating point ([volume_confidence]). With [days_back >= 1] and integer
    volumes of moderate size, the ratio is [int_spike_ratio] of the window's
    volumes: the largest volume over the double nearest to the average, 1
    when that average is not positive; the price change is the window's last
    close minus its first. *)
Theorem volume_alibi_rule (json_loads : string -> Exc pyval) (py_fixed : nat -> num -> string)
  (fsum_tail : double -> list num -> double) (prices : string) (s : list price_point)
  (days_back : Z)
  (Hload : json_loads prices = Ok (series_json s))
  (Hok : get "status" (analyze_price_movement json_loads py_fixed fsum_tail prices days_back)
         = Some (PStr "success")) :
  exists m alibis ctx,
    movement_metrics_of fsum_tail (series_json s) days_back = Ok m /\
    analyze_price_movement json_loads py_fixed fsum_tail prices days_back
      = movement_json (alibis, ctx) /\
    ((exists a, In a alibis /\ volume_driven a = true) <->
       num_ltb (NFloat (D (3 # 2))) (m_volume_spike m) = true) /\
    (forall a, In a alibis -> volume_driven a = true ->
       title a = (if num_ltb (NInt 0) (m_price_change m) then bullish_title else panic_title) /\
       volume_confidence (m_volume_spike m) = Ok (confidence a)) /\
    (forall vs, 1 <= days_back -> map pp_volume (movement_window s days_back) = map NInt vs ->
       (forall v, In v vs -> Z.abs v <= 2 ^ 900) -> Z.of_nat (length vs) <= 2 ^ 64 ->
       m_volume_spike m = int_spike_ratio vs /\
       py_sub (PNum (last_close (movement_window s days_back)))
              (PNum (hd (NInt 0) (closes_of (movement_window s days_back))))
         = Ok (m_price_change m)).
Proof.
  destruct (price_movement_success json_loads py_fixed fsum_tail prices days_back Hok)
    as (data & alibis & ctx & Hj & Hm & Hout).
  rewrite Hload in Hj. injection Hj as <-.
  destruct (movement_analysis_inv py_fixed fsum_tail _ _ _ _ Hm) as (m & cands & Hmet & Hc & ->).
  destruct (alibi_candidates_inv py_fixed fsum_tail m cands Hc)
    as (o1 & o2 & o3 & H1 & H2 & H3 & Ec).
  pose proof (volume_alibi_spec py_fixed m o1 H1) as V. cbv zeta in V.
  assert (Hin : forall a, In a (sort_by_confidence cands) <-> In a cands).
  { intro a. split; apply Permutation_in;
      [symmetry|]; apply sort_by_confidence_perm. }
  exists m, (sort_by_confidence cands), ctx.
  split; [exact Hmet|]. split; [exact Hout|]. split; [|split].
  - split.
    + intros [a [Ha Hv]]. apply Hin in Ha. rewrite Ec in Ha.
      rewrite (volume_driven_source py_fixed fsum_tail m o1 o2 o3 a H2 H3 Ha Hv) in V.
      exact (proj1 V).
    + intro Hs. destruct o1 as [a|].
      * exists a. split.
        -- apply Hin. rewrite Ec. left. reflexivity.
        -- destruct V as (_ & Ht & _). unfold volume_driven. rewrite Ht.
           destruct (num_ltb (NInt 0) (m_price_change m)); reflexivity.
      * congruence.
  - intros a Ha Hv. apply Hin in Ha. rewrite Ec in Ha.
    rewrite (volume_driven_source py_fixed fsum_tail m o1 o2 o3 a H2 H3 Ha Hv) in V.
    destruct V as (_ & Ht & Hconf & _). split; assumption.
  - intros vs Hd Hv Hb Hn. exact (movement_metrics_series fsum_tail s days_back m vs Hd Hmet Hv Hb Hn).
Qed.

(** ** Claim C9 *)
(** C9: in every successful result of [analyze_price_movement], the
    explanations are the generated ones reordered by non-increasing
    confidence, explanations of equal confidence keep their generation order,
    and every confidence is an integer between 0 and 100. *)
Theorem explanations_sorted (json_loads : string -> Exc pyval) (py_fixed : nat -> num -> string)
  (fsum_tail : double -> list num -> double) (prices : string) (days_back : Z)
  (Hok : get "status" (analyze_price_movement json_loads py_fixed fsum_tail prices days_back)
         = Some (PStr "success")) :
  exists data m cands alibis ctx,
    json_loads prices = Ok data /\
    movement_metrics_of fsum_tail data days_back = Ok m /\
    alibi_candidates py_fixed fsum_tail m = Ok cands /\
    analyze_price_movement json_loads py_fixed fsum_tail prices days_back
      = movement_json (alibis, ctx) /\
    StronglySorted conf_ge alibis /\
    Permutation cands alibis /\
    (forall c, filter (fun a => confidence a =? c) alibis =
               filter (fun a => confidence a =? c) cands) /\
    (forall a, In a alibis -> (0 <= confidence a <= 100)%Z).
Proof.
  destruct (price_movement_success json_loads py_fixed fsum_tail prices days_back Hok)
    as (data & alibis & ctx & Hj & Hm & Hout).
  destruct (movement_analysis_inv py_fixed fsum_tail _ _ _ _ Hm) as (m & cands & Hmet & Hc & Ea).
  exists data, m, cands, alibis, ctx.
  split; [exact Hj|]. split; [exact Hmet|]. split; [exact Hc|]. split; [exact Hout|].
  subst alibis. split; [|split; [|split]].
  - apply Sorted_StronglySorted; [exact conf_ge_trans | apply sort_by_confidence_sorted].
  - apply sort_by_confidence_perm.
  - intro c. apply sort_by_confidence_stable.
  - intros a Ha. apply (candidate_confidence_bounds py_fixed fsum_tail m cands Hc).
    apply Permutation_in with (l := sort_by_confidence cands); [|exact Ha].
    symmetry. apply sort_by_confidence_perm.
Qed.

(** [spike5]: the last volume is three times the average (the ratio is the
    double 3.0), the price rises, and the bullish volume surge comes first,
    with rank 1 and confidence 85. *)
Lemma volume_alibi_rule_witness :
  demo_loads spike5_text = Ok (series_json spike5) /\
  get "status" (analyze_price_movement demo_loads any_fixed fsum_naive spike5_text 5)
    = Some (PStr "success") /\
  int_spike_ratio [1500000; 1500000; 1500000; 1500000; 9000000] = NFloat (D 3) /\
  match get "alibis" (analyze_price_movement demo_loads any_fixed fsum_naive spike5_text 5) with
  | Some (PList (first :: _)) =>
      get "title" first = Some (PStr bullish_title) /\
      get "confidence" first = Some (PNum (NInt 85)) /\ get "rank" first = Some (PNum (NInt 1))
  | _ => False
  end /\
  exists m alibis ctx,
    movement_metrics_of fsum_naive (series_json spike5) 5 = Ok m /\
    analyze_price_movement demo_loads any_fixed fsum_naive spike5_text 5
      = movement_json (alibis, ctx) /\
    ((exists a, In a alibis /\ volume_driven a = true) <->
       num_ltb (NFloat (D (3 # 2))) (m_volume_spike m) = true) /\
    (forall a, In a alibis -> volume_driven a = true ->
       title a = (if num_ltb (NInt 0) (m_price_change m) then bullish_title else panic_title) /\
       volume_confidence (m_volume_spike m) = Ok (confidence a)) /\
    (forall vs, 1 <= 5 -> map pp_volume (movement_window spike5 5) = map NInt vs ->
       (forall v, In v vs -> Z.abs v <= 2 ^ 900) -> Z.of_nat (length vs) <= 2 ^ 64 ->
       m_volume_spike m = int_spike_ratio vs /\
       py_sub (PNum (last_close (movement_window spike5 5)))
              (PNum (hd (NInt 0) (closes_of (movement_window spike5 5))))
         = Ok (m_price_change m)).
Proof.
  assert (H1 : demo_loads spike5_text = Ok (series_json spike5)) by reflexivity.
  assert (H2 : get "status" (analyze_price_movement demo_loads any_fixed fsum_naive spike5_text 5)
               = Some (PStr "success")) by (vm_compute; reflexivity).
  split; [exact H1|]. split; [exact H2|].
  split; [vm_compute; reflexivity|].
  split; [vm_compute; repeat split; reflexivity|].
  exact (volume_alibi_rule demo_loads any_fixed fsum_naive spike5_text spike5 5 H1 H2).
Defined.

(** [vol3]: volumes 3,000,000, 1,000,000, 1,000,000. The exact ratio is 1.8,
    so [min(85, floor(1.8 * 30))] is 54; the code computes the ratio
    1.7999999999999998 and reports the bullish surge with confidence 53
    (with either float loop of [sum]). *)
Lemma volume_confidence_float_ratio :
  get "status" (analyze_price_movement demo_loads any_fixed fsum_naive vol3_text 3)
    = Some (PStr "success") /\
  (exact_spike_ratio (map nval (map pp_volume vol3)) == 9 # 5)%Q /\
  Z.min 85 (Qfloor (exact_spike_ratio (map nval (map pp_volume vol3)) * 30)) = 54 /\
  match get "alibis" (analyze_price_movement demo_loads any_fixed fsum_naive vol3_text 3),
        get "alibis" (analyze_price_movement demo_loads any_fixed fsum_neumaier vol3_text 3) with
  | Some (PList [_; _; a]), Some (PList [_; _; b]) =>
      get "title" a = Some (PStr bullish_title) /\ get "confidence" a = Some (PNum (NInt 53)) /\
      get "title" b = Some (PStr bullish_title) /\ get "confidence" b = Some (PNum (NInt 53))
  | _, _ => False
  end.
Proof.
  split; [vm_compute; reflexivity|]. split; [vm_compute; reflexivity|].
  split; [vm_compute; reflexivity|]. vm_compute. repeat split; reflexivity.
Qed.

(** [spike5] yields a successful, ordered explanation set. *)
Lemma explanations_sorted_witness :
  get "status" (analyze_price_movement demo_loads any_fixed fsum_naive spike5_text 5)
    = Some (PStr "success") /\
  exists data m cands alibis ctx,
    demo_loads spike5_text = Ok data /\
    movement_metrics_of fsum_naive data 5 = Ok m /\
    alibi_candidates any_fixed fsum_naive m = Ok cands /\
    analyze_price_movement demo_loads any_fixed fsum_naive spike5_text 5
      = movement_json (alibis, ctx) /\
    StronglySorted conf_ge alibis /\
    Permutation cands alibis /\
    (forall c, filter (fun a => confidence a =? c) alibis =
               filter (fun a => confidence a =? c) cands) /\
    (forall a, In a alibis -> (0 <= confidence a <= 100)%Z).
Proof.
  assert (H : get "status" (analyze_price_movement demo_loads any_fixed fsum_naive spike5_text 5)
              = Some (PStr "success")) by (vm_compute; reflexivity).
  split; [exact H|]. exact (explanations_sorted demo_loads any_fixed fsum_naive spike5_text 5 H).
Defined.


(** ** [predict_trend] without a horizon *)

Lemma forecast_prices_no_horizon (slope intercept : num) (n fd : Z) :
  fd <= 0 -> forecast_prices slope intercept n fd = Ok [].
Proof.
  intro H. unfold forecast_prices, zrange.
  replace (Z.to_nat (fd + 1 - 1)) with 0%nat by lia. reflexivity.
Qed.

(** ** The window of [analyze_price_movement] *)

Lemma recent_window_any (s : list price_point) (d : Z) :
  recent_window (series_json s) d =
  Ok (series_json (if 1 <=? d then lastn (Z.to_nat d) s else skipn (Z.to_nat (- d)) s)).
Proof.
  unfold recent_window, series_json, lastn. cbn [py_len bind]. rewrite length_map.
  destruct (Z.leb_spec 1 d) as [H1|H1]; destruct (Z.leb_spec d (Z.of_nat (length s))) as [H2|H2].
  - cbn [py_slice_val]. rewrite py_slice_map. f_equal. f_equal. f_equal.
    unfold py_slice, slice_bound. rewrite (proj2 (Z.ltb_lt (- d) 0)) by lia.
    replace (Z.to_nat (Z.max 0 (- d + Z.of_nat (length s)))) with (length s - Z.to_nat d)%nat by lia.
    apply firstn_all2. rewrite length_skipn. lia.
  - replace (length s - Z.to_nat d)%nat with 0%nat by lia. reflexivity.
  - cbn [py_slice_val]. rewrite py_slice_map. f_equal. f_equal. f_equal.
    unfold py_slice, slice_bound. rewrite (proj2 (Z.ltb_ge (- d) 0)) by lia.
    destruct (Z.le_ge_cases (- d) (Z.of_nat (length s))).
    + rewrite Z.min_l by lia. apply firstn_all2. rewrite length_skipn. lia.
    + rewrite Z.min_r by lia. rewrite Nat2Z.id, skipn_all, firstn_nil.
      symmetry. apply skipn_all2. lia.
  - lia.
Qed.

Lemma dval_fin_nonzero (sg : bool) (m : positive) (e : Z) : Qeq_bool (dval (DFin sg m e)) 0 = false.
Proof.
  apply Bool.not_true_is_false. intro H. apply Qeq_bool_iff in H.
  assert (Hp : (0 < inject_Z (Zpos m) * 2 ^ e)%Q).
  { apply Qmult_lt_0_compat; [reflexivity | apply p2_pos]. }
  unfold dval, signed in H. set (t := (inject_Z (Zpos m) * 2 ^ e)%Q) in *.
  destruct sg; Lqa.lra.
Qed.

(** Dividing by a number equal to 0 raises. *)
Lemma num_truediv_zero (a b : num) : num_eqb b (NInt 0) = true -> exists e, num_truediv a b = Raise e.
Proof.
  intro H. destruct b as [z|d].
  - unfold num_eqb in H. cbn [nx xeqb] in H. apply Qeq_bool_iff in H.
    assert (z = 0) as ->.
    { apply (proj1 (inject_Z_injective z 0)). exact H. }
    destruct a as [x|d]; cbn [num_truediv]; [eexists; reflexivity|].
    cbn [num_to_double bind]. rewrite (int_to_double_ok 0) by lia. cbn [bind].
    eexists. reflexivity.
  - destruct d as [sg|sg m e|sg|]; unfold num_eqb in H; cbn [nx dx xeqb] in H.
    + destruct a as [x|d]; cbn [num_truediv num_to_double];
        [destruct (int_to_double x) |]; cbn [bind dis_zero]; eexists; reflexivity.
    + rewrite dval_fin_nonzero in H. discriminate H.
    + destruct sg; discriminate H.
    + discriminate H.
Qed.

Lemma movement_metrics_empty (fsum_tail : double -> list num -> double) (s : list price_point) (d : Z) :
  (if 1 <=? d then lastn (Z.to_nat d) s else skipn (Z.to_nat (- d)) s) = [] ->
  movement_metrics_of fsum_tail (series_json s) d = Raise index_error.
Proof.
  intro Hw. unfold movement_metrics_of. change (unwrap_data (series_json s)) with (series_json s).
  rewrite recent_window_any, Hw. reflexivity.
Qed.

Lemma movement_metrics_zero_first (fsum_tail : double -> list num -> double)
    (s : list price_point) (d : Z) (p : price_point) (w' : list price_point) :
  (if 1 <=? d then lastn (Z.to_nat d) s else skipn (Z.to_nat (- d)) s) = p :: w' ->
  num_eqb (pp_close p) (NInt 0) = true ->
  exists e, movement_metrics_of fsum_tail (series_json s) d = Raise e.
Proof.
  intros Hw H0. unfold movement_metrics_of. change (unwrap_data (series_json s)) with (series_json s).
  rewrite recent_window_any, Hw. cbn [bind].
  rewrite column_close, column_volume, column_high, column_low. cbn [bind].
  rewrite (py_index_last' _ (PNum (NInt 0))) by discriminate. cbn [bind].
  change (py_index (map PNum (map pp_close (p :: w'))) 0) with (Ok (PNum (pp_close p))).
  cbn [bind].
  destruct (py_sub _ _) as [e|pc]; cbn [bind]; [eexists; reflexivity|].
  destruct (num_truediv_zero pc (pp_close p) H0) as [e He].
  unfold py_truediv, py_arith. cbn [as_num]. rewrite He. cbn [bind]. eexists. reflexivity.
Qed.

(** ** Extra X4 *)
(** X4: [predict_trend] with [forecast_days <= 0] on a series always fails:
    with the error of the line fit when that raises, and otherwise with
    'list index out of range', the forecast list being empty when it is
    indexed with [-1]. *)
Theorem predict_trend_no_horizon (json_loads : string -> Exc pyval) (py_str : pyval -> string)
  (py_fixed : nat -> num -> string) (fsum_tail : double -> list num -> double)
  (libm_pow : double -> double -> double * bool) (prices : string) (s : list price_point) (fd : Z)
  (Hload : json_loads prices = Ok (series_json s)) (Hfd : fd <= 0) :
  predict_trend json_loads py_str py_fixed fsum_tail libm_pow prices fd =
  PDict [("error", PStr (match fit_line fsum_tail libm_pow (map PNum (closes_of s)) with
                         | Ok _ => "list index out of range"
                         | Raise e => exn_msg e
                         end));
         ("status", PStr "failed")].
Proof.
  unfold predict_trend, predict_body. rewrite Hload. cbn [bind].
  change (unwrap_data (series_json s)) with (series_json s).
  rewrite closes_column. cbn [bind]. rewrite length_closes.
  destruct (fit_line fsum_tail libm_pow _) as [e|[sl ic]] eqn:Hf; [reflexivity|]. cbn [bind].
  rewrite forecast_prices_no_horizon by exact Hfd. cbn [bind].
  destruct s as [|p s'].
  - vm_compute in Hf. discriminate Hf.
  - rewrite last_closes by discriminate. cbn [bind]. rewrite py_index_nil. reflexivity.
Qed.

(** [ramp10] with no forecast day: the line fit succeeds and the forecast
    list is empty. *)
Lemma predict_trend_no_horizon_witness :
  predict_trend demo_loads any_str any_fixed fsum_naive pow_nearest ramp10_text 0
    = PDict [("error", PStr "list index out of range"); ("status", PStr "failed")] /\
  predict_trend demo_loads any_str any_fixed fsum_naive pow_nearest ramp10_text 0 =
  PDict [("error", PStr (match fit_line fsum_naive pow_nearest (map PNum (closes_of ramp10)) with
                         | Ok _ => "list index out of range"
                         | Raise e => exn_msg e
                         end));
         ("status", PStr "failed")].
Proof.
  split; [vm_compute; reflexivity|].
  apply (predict_trend_no_horizon demo_loads any_str any_fixed fsum_naive pow_nearest
           ramp10_text ramp10 0); [reflexivity | lia].
Defined.

(** ** Extra X7 *)
(** X7: [analyze_price_movement] on a series looks at the window [w] of the
    last [days_back] records when [days_back >= 1], and of all records but
    the first [-days_back] ones otherwise (the whole series for 0). It fails
    with 'list index out of range' when [w] is empty, and fails when the
    first close of [w] equals 0 (the percentage change divides by it). *)
Theorem price_movement_failures (json_loads : string -> Exc pyval) (py_fixed : nat -> num -> string)
    (fsum_tail : double -> list num -> double) (prices : string) (s : list price_point)
    (days_back : Z)
    (Hload : json_loads prices = Ok (series_json s)) :
  let w := if 1 <=? days_back then lastn (Z.to_nat days_back) s
           else skipn (Z.to_nat (- days_back)) s in
  let r := analyze_price_movement json_loads py_fixed fsum_tail prices days_back in
  (w = [] -> r = PDict [("error", PStr "list index out of range"); ("status", PStr "failed")]) /\
  (forall p w', w = p :: w' -> num_eqb (pp_close p) (NInt 0) = true ->
     get "status" r = Some (PStr "failed")).
Proof.
  intros w r. unfold r, analyze_price_movement, movement_analysis. rewrite Hload. cbn [bind].
  split.
  - intro Hw. rewrite (movement_metrics_empty fsum_tail s days_back Hw). reflexivity.
  - intros p w' Hw H0.
    destruct (movement_metrics_zero_first fsum_tail s days_back p w' Hw H0) as [e ->].
    reflexivity.
Qed.

(** [spike5] with [days_back = -5] drops every record and fails. *)
Lemma price_movement_failures_witness :
  analyze_price_movement demo_loads any_fixed fsum_naive spike5_text (-5)
    = PDict [("error", PStr "list index out of range"); ("status", PStr "failed")] /\
  let w := if 1 <=? -5 then lastn (Z.to_nat (-5)) spike5 else skipn (Z.to_nat (- -5)) spike5 in
  let r := analyze_price_movement demo_loads any_fixed fsum_naive spike5_text (-5) in
  (w = [] -> r = PDict [("error", PStr "list index out of range"); ("status", PStr "failed")]) /\
  (forall p w', w = p :: w' -> num_eqb (pp_close p) (NInt 0) = true ->
     get "status" r = Some (PStr "failed")).
Proof.
  split; [vm_compute; reflexivity|].
  exact (price_movement_failures demo_loads any_fixed fsum_naive spike5_text spike5 (-5) eq_refl).
Defined.
